(** * Monster melee blow effects (mon-blows.c)

    A shallow embedding of the melee effect handlers of [mon-blows.c] and
    the properties of their damage, saving-throw, theft and drain rules.

    The handlers are written in a small state monad over the attack
    context, the player and monster they point to, and a log of the calls
    made to the rest of the game.  Functions of the game that live in other
    files ([take_hit], [adjust_dam], [effect_simple], ...) are fields of the
    record [externs]: every theorem holds for every implementation of them. *)

From Stdlib Require Import ZArith String List Lia Bool.
From stdpp Require Import base list.

Open Scope string_scope.
Open Scope list_scope.
Open Scope Z_scope.

(** ** Machine integers *)

(** The C types [int] and [s32b] are 32-bit signed integers.  Arithmetic on
    locals of these types is reduced into the 32-bit range; division is C's
    truncating division [Z.quot].  Fields of structures declared in other
    files hold integers as they are; the statements bound them where the
    arithmetic depends on it. *)
Definition int32 (z : Z) : Z := (z + 2 ^ 31) mod 2 ^ 32 - 2 ^ 31.

Definition in_int32 (z : Z) : Prop := - 2 ^ 31 <= z < 2 ^ 31.

(** Modelled from the spec: the macros [MIN] and [MAX] of the game's basic
    header (not in this file), the spec's "capped at" and "never below". *)
Definition MIN (a b : Z) : Z := if a >? b then b else a.
Definition MAX (a b : Z) : Z := if a <? b then b else a.

(** A C integer used as a condition. *)
Definition truth (z : Z) : bool := negb (z =? 0).

(** ** Enumerations named by the handlers *)

Inductive tmd : Set :=
  TMD_BLIND | TMD_CONFUSED | TMD_AFRAID | TMD_PARALYZED | TMD_POISONED | TMD_IMAGE.

#[global] Instance tmd_eq_dec : EqDecision tmd.
Proof. solve_decision. Defined.

Inductive gf_type : Set := GF_ACID | GF_ELEC | GF_FIRE | GF_COLD | GF_POIS.

Inductive elem : Set := ELEM_POIS | ELEM_DISEN | ELEM_CHAOS.

Inductive of_flag : Set :=
  OF_HOLD_LIFE | OF_PROT_BLIND | OF_PROT_CONF | OF_PROT_FEAR | OF_FREE_ACT.

Inductive stat_id : Set := STAT_STR | STAT_INT | STAT_WIS | STAT_DEX | STAT_CON.

Inductive skill : Set := SKILL_SAVE.

Inductive effect_index : Set :=
  EF_DRAIN_STAT | EF_DISENCHANT | EF_DRAIN_LIGHT | EF_EARTHQUAKE.

Inductive aspect : Set := MINIMISE | RANDOMISE.

Inductive origin_t : Set := ORIGIN_NONE | ORIGIN_STOLEN.

Inductive odesc : Set := ODESC_FULL | ODESC_BASE | ODESC_PREFIX_BASE.

(** The [element] argument of [update_smart_learn]: the literal [-1], a
    [GF_] constant or an [ELEM_] constant. *)
Inductive learn_element : Set :=
| learn_nothing
| learn_gf (t : gf_type)
| learn_elem (e : elem).

(** An integer parameter of [effect_simple]: a literal or a [STAT_] constant. *)
Inductive eparam : Set :=
| param_int (z : Z)
| param_stat (s : stat_id).

(** An argument of a formatted message. *)
Inductive marg : Set :=
| arg_int (z : Z)
| arg_str (s : string)
| arg_slot (index : Z).

(** ** Structures *)

Record blow_method : Set := {
  name : string;
  act_msg : option string;
  phys : bool
}.

Record object_kind : Set := {
  kname : string;
  level : Z
}.

(** [artifact] is a pointer in C, which the handlers only test against
    NULL; [known] points to the player's knowledge of the object, an object
    of its own, or is NULL. *)
#[warnings="-register-all"]
Inductive object : Set := {
  kind : object_kind;
  tval : Z;
  artifact : bool;
  known : option object;
  number : Z;
  pval : Z;
  origin : origin_t;
  origin_depth : Z
}.

Record player_state : Set := {
  skills : skill -> Z;
  stat_ind : stat_id -> Z
}.

Record player_upkeep : Set := {
  inven : list (option object);
  health_who : option nat;
  notice : Z;
  redraw : Z
}.

Record monster : Set := {
  midx : nat;
  hp : Z;
  maxhp : Z
}.

(** The fields of [melee_effect_handler_context_t] other than the pointers
    [p] and [mon], whose targets are kept in the [world] below. *)
Record context : Set := {
  rlev : Z;
  method : blow_method;
  ac : Z;
  ddesc : string;
  obvious : bool;
  blinked : bool;
  do_break : bool;
  damage : Z
}.

(** A call made to another file of the game, or a message printed. *)
Inductive call : Set :=
| c_msg (fmt : string) (args : list marg)
| c_take_hit (dam : Z) (kb_str : string)
| c_adjust_dam (type : gf_type) (dam : Z) (a : aspect) (resist : Z)
| c_inven_damage (type : gf_type) (cperc : Z)
| c_update_smart_learn (flag : option of_flag) (pflag : Z) (element : learn_element)
| c_player_inc_timed (type : tmd) (amount : Z) (notify check : bool)
| c_effect_simple (index : effect_index) (dice : string) (p1 p2 p3 : eparam)
| c_player_exp_lose (amount : Z) (permanent : bool)
| c_gear_object_for_use (index : Z) (obj : object) (num : Z) (message : bool)
| c_object_prep (k : object_kind) (lev : Z) (a : aspect)
| c_monster_carry (obj : object)
| c_object_delete (obj : object).

(** ** Strings *)

Definition toupper (c : Ascii.ascii) : Ascii.ascii :=
  let n := Ascii.nat_of_ascii c in
  if (Nat.leb 97 n && Nat.leb n 122)%bool then Ascii.ascii_of_nat (n - 32) else c.

Fixpoint upper (s : string) : string :=
  match s with
  | EmptyString => EmptyString
  | String c s' => String (toupper c) (upper s')
  end.

(** Modelled from the spec: [my_stricmp] of z-util.c, the "case-insensitive
    exact match" of the registry; 0 means equal. *)
Definition my_stricmp (a b : string) : Z :=
  if String.eqb (upper a) (upper b) then 0 else 1.

(** ** Random numbers *)

(** Modelled from the spec: the random source ([Rand_div] of z-rand.c, not
    in this file) yields "a uniform draw in [0,m)".  The draws are read from
    a tape of arbitrary integers, so a statement about every tape is a
    statement about every sequence of draws; a bound of 1 or less yields 0,
    as in "random(1..max(1, ...))". *)
Definition Rand_div (m : Z) (tape : list Z) : Z * list Z :=
  if m <=? 1 then (0, tape)
  else match tape with
       | [] => (0, [])
       | x :: tape' => (x mod m, tape')
       end.

Arguments Rand_div : simpl never.
Arguments int32 : simpl never.

Section MonBlows.

(** [P] is the part of the player the handlers never name (flags,
    resistances, hit points, ...); [G] is the rest of the game (the cave,
    the other monsters, ...). *)
Context {P G : Type}.

Record player : Type := {
  is_dead : bool;
  exp : Z;
  au : Z;
  lev : Z;
  depth : Z;
  px : Z;
  py : Z;
  timed : tmd -> Z;
  state : player_state;
  upkeep : player_upkeep;
  p_rest : P
}.

Record world : Type := {
  p : player;
  mon : monster;
  rng : list Z;
  rest : G
}.

(** What runs through a handler: the context, the world its pointers reach,
    and the calls made so far. *)
Record mstate : Type := {
  ctx : context;
  game : world;
  calls : list call
}.

(** ** The rest of the game *)

(** Functions, tables and constants of other files.  A function that
    receives [p], [mon] or reaches the globals may change the world; it
    cannot reach the context, which lives on the caller's stack. *)
Record externs : Type := {
  (* constants *)
  pack_size : Z;
  life_drain_percent : Z;
  MAX_PVAL : positive;
  PR_HEALTH : Z;
  PR_INVEN : Z;
  PR_GOLD : Z;
  PN_COMBINE : Z;
  adj_dex_safe : Z -> Z;
  (* pure functions *)
  x_adjust_dam_armor : Z -> Z -> Z;
  x_player_of_has : player -> of_flag -> bool;
  x_player_resists : player -> elem -> bool;
  x_tval_can_have_charges : object -> bool;
  x_tval_is_edible : object -> bool;
  x_object_desc : object -> odesc -> string;
  x_money_kind : string -> Z -> object_kind;
  (* functions with effects *)
  x_take_hit : Z -> string -> world -> world;
  x_adjust_dam : gf_type -> Z -> aspect -> Z -> world -> Z * world;
  x_inven_damage : gf_type -> Z -> world -> world;
  x_update_smart_learn : option of_flag -> Z -> learn_element -> world -> world;
  x_player_inc_timed : tmd -> Z -> bool -> bool -> world -> bool * world;
  x_effect_simple :
    effect_index -> string -> eparam -> eparam -> eparam -> option bool ->
    world -> bool * world;
  x_player_exp_lose : Z -> bool -> world -> world;
  x_gear_object_for_use : Z -> object -> Z -> bool -> world -> object * world;
  x_object_prep : object_kind -> Z -> aspect -> world -> object * world;
  x_monster_carry : object -> world -> world;
  x_object_delete : object -> world -> world
}.

Variable X : externs.

(** ** The handler monad *)

Definition M (A : Type) : Type := mstate -> A * mstate.

Definition ret {A : Type} (a : A) : M A := fun s => (a, s).

Definition bind {A B : Type} (m : M A) (k : A -> M B) : M B :=
  fun s => k (fst (m s)) (snd (m s)).

Definition run {A : Type} (m : M A) (s : mstate) : mstate := snd (m s).

Definition when (b : bool) (m : M unit) : M unit := if b then m else ret tt.

Declare Scope blow_scope.
Notation "x <- m ; k" := (bind m (fun x => k))
  (at level 20, m at level 100, k at level 200, only parsing) : blow_scope.
Notation "m ;; k" := (bind m (fun _ => k))
  (at level 100, k at level 200, only parsing, right associativity) : blow_scope.
Open Scope blow_scope.

(** *** Field updates *)

Definition with_obvious (b : bool) (c : context) : context :=
  {| rlev := rlev c; method := method c; ac := ac c; ddesc := ddesc c;
     obvious := b; blinked := blinked c; do_break := do_break c;
     damage := damage c |}.

Definition with_blinked (b : bool) (c : context) : context :=
  {| rlev := rlev c; method := method c; ac := ac c; ddesc := ddesc c;
     obvious := obvious c; blinked := b; do_break := do_break c;
     damage := damage c |}.

Definition with_do_break (b : bool) (c : context) : context :=
  {| rlev := rlev c; method := method c; ac := ac c; ddesc := ddesc c;
     obvious := obvious c; blinked := blinked c; do_break := b;
     damage := damage c |}.

Definition with_damage (d : Z) (c : context) : context :=
  {| rlev := rlev c; method := method c; ac := ac c; ddesc := ddesc c;
     obvious := obvious c; blinked := blinked c; do_break := do_break c;
     damage := d |}.

Definition with_pval (v : Z) (o : object) : object :=
  {| kind := kind o; tval := tval o; artifact := artifact o; known := known o;
     number := number o; pval := v; origin := origin o;
     origin_depth := origin_depth o |}.

Definition with_known (k : option object) (o : object) : object :=
  {| kind := kind o; tval := tval o; artifact := artifact o; known := k;
     number := number o; pval := pval o; origin := origin o;
     origin_depth := origin_depth o |}.

Definition with_origin (og : origin_t) (d : Z) (o : object) : object :=
  {| kind := kind o; tval := tval o; artifact := artifact o; known := known o;
     number := number o; pval := pval o; origin := og; origin_depth := d |}.

Definition with_upkeep (u : player_upkeep) (pl : player) : player :=
  {| is_dead := is_dead pl; exp := exp pl; au := au pl; lev := lev pl;
     depth := depth pl; px := px pl; py := py pl; timed := timed pl;
     state := state pl; upkeep := u; p_rest := p_rest pl |}.

Definition with_au (v : Z) (pl : player) : player :=
  {| is_dead := is_dead pl; exp := exp pl; au := v; lev := lev pl;
     depth := depth pl; px := px pl; py := py pl; timed := timed pl;
     state := state pl; upkeep := upkeep pl; p_rest := p_rest pl |}.

Definition with_inven (l : list (option object)) (u : player_upkeep) : player_upkeep :=
  {| inven := l; health_who := health_who u; notice := notice u;
     redraw := redraw u |}.

Definition with_notice (v : Z) (u : player_upkeep) : player_upkeep :=
  {| inven := inven u; health_who := health_who u; notice := v;
     redraw := redraw u |}.

Definition with_redraw (v : Z) (u : player_upkeep) : player_upkeep :=
  {| inven := inven u; health_who := health_who u; notice := notice u;
     redraw := v |}.

Definition with_hp (v : Z) (m : monster) : monster :=
  {| midx := midx m; hp := v; maxhp := maxhp m |}.

Definition with_p (pl : player) (w : world) : world :=
  {| p := pl; mon := mon w; rng := rng w; rest := rest w |}.

Definition with_mon (m : monster) (w : world) : world :=
  {| p := p w; mon := m; rng := rng w; rest := rest w |}.

Definition with_rng (t : list Z) (w : world) : world :=
  {| p := p w; mon := mon w; rng := t; rest := rest w |}.

(** *** Reading and writing through the context *)

Definition context_get {A : Type} (f : context -> A) : M A :=
  fun s => (f (ctx s), s).

Definition player_get {A : Type} (f : player -> A) : M A :=
  fun s => (f (p (game s)), s).

Definition monster_get {A : Type} (f : monster -> A) : M A :=
  fun s => (f (mon (game s)), s).

Definition context_set (f : context -> context) : M unit :=
  fun s => (tt, {| ctx := f (ctx s); game := game s; calls := calls s |}).

Definition player_set (f : player -> player) : M unit :=
  fun s => (tt, {| ctx := ctx s; game := with_p (f (p (game s))) (game s);
                   calls := calls s |}).

Definition monster_set (f : monster -> monster) : M unit :=
  fun s => (tt, {| ctx := ctx s; game := with_mon (f (mon (game s))) (game s);
                   calls := calls s |}).

Definition set_obvious (b : bool) : M unit := context_set (with_obvious b).
Definition set_blinked (b : bool) : M unit := context_set (with_blinked b).
Definition set_do_break (b : bool) : M unit := context_set (with_do_break b).
Definition set_damage (d : Z) : M unit := context_set (with_damage d).

(** [p->upkeep->redraw |= flag] and [p->upkeep->notice |= flag]. *)
Definition or_redraw (flag : Z) : M unit :=
  player_set (fun pl =>
    with_upkeep (with_redraw (Z.lor (redraw (upkeep pl)) flag) (upkeep pl)) pl).

Definition or_notice (flag : Z) : M unit :=
  player_set (fun pl =>
    with_upkeep (with_notice (Z.lor (notice (upkeep pl)) flag) (upkeep pl)) pl).

(** [p->upkeep->inven[index]]; the array has [pack_size] slots, an index
    beyond the list reads as an empty slot. *)
Definition inven_at (index : Z) (pl : player) : option object :=
  match inven (upkeep pl) !! Z.to_nat index with
  | Some slot => slot
  | None => None
  end.

(** A store through the pointer read from [inven[index]]. *)
Definition inven_store (index : Z) (o : object) : M unit :=
  player_set (fun pl =>
    with_upkeep
      (with_inven (<[Z.to_nat index := Some o]> (inven (upkeep pl))) (upkeep pl))
      pl).

(** *** Calls *)

Definition extern {A : Type} (c : call) (f : world -> A * world) : M A :=
  fun s => (fst (f (game s)),
            {| ctx := ctx s; game := snd (f (game s));
               calls := calls s ++ [c] |}).

Definition extern_ (c : call) (f : world -> world) : M unit :=
  fun s => (tt, {| ctx := ctx s; game := f (game s); calls := calls s ++ [c] |}).

Definition msg (fmt : string) (args : list marg) : M unit :=
  extern_ (c_msg fmt args) (fun w => w).

Definition take_hit (dam : Z) (kb_str : string) : M unit :=
  extern_ (c_take_hit dam kb_str) (x_take_hit X dam kb_str).

Definition adjust_dam (type : gf_type) (dam : Z) (a : aspect) (resist : Z) : M Z :=
  extern (c_adjust_dam type dam a resist) (x_adjust_dam X type dam a resist).

Definition inven_damage (type : gf_type) (cperc : Z) : M unit :=
  extern_ (c_inven_damage type cperc) (x_inven_damage X type cperc).

Definition update_smart_learn (flag : option of_flag) (pflag : Z)
    (element : learn_element) : M unit :=
  extern_ (c_update_smart_learn flag pflag element)
          (x_update_smart_learn X flag pflag element).

Definition player_inc_timed (type : tmd) (amount : Z) (notify check : bool) : M bool :=
  extern (c_player_inc_timed type amount notify check)
         (x_player_inc_timed X type amount notify check).

(** [effect_simple(index, dice, p1, p2, p3, &context->obvious)]: the callee
    reads and writes [context->obvious] through the pointer. *)
Definition effect_simple_obvious (index : effect_index) (dice : string)
    (p1 p2 p3 : eparam) : M unit :=
  ident <- context_get obvious ;
  ident' <- extern (c_effect_simple index dice p1 p2 p3)
                   (x_effect_simple X index dice p1 p2 p3 (Some ident)) ;
  set_obvious ident'.

(** [effect_simple(index, dice, p1, p2, p3, NULL)]. *)
Definition effect_simple_NULL (index : effect_index) (dice : string)
    (p1 p2 p3 : eparam) : M unit :=
  extern (c_effect_simple index dice p1 p2 p3)
         (x_effect_simple X index dice p1 p2 p3 None) ;;
  ret tt.

Definition player_exp_lose (amount : Z) (permanent : bool) : M unit :=
  extern_ (c_player_exp_lose amount permanent) (x_player_exp_lose X amount permanent).

Definition gear_object_for_use (index : Z) (obj : object) (num : Z)
    (message : bool) : M object :=
  extern (c_gear_object_for_use index obj num message)
         (x_gear_object_for_use X index obj num message).

(** [object_new()] followed by [object_prep(obj, k, lev, a)]. *)
Definition object_prep (k : object_kind) (lv : Z) (a : aspect) : M object :=
  extern (c_object_prep k lv a) (x_object_prep X k lv a).

Definition monster_carry (obj : object) : M unit :=
  extern_ (c_monster_carry obj) (x_monster_carry X obj).

(** Modelled from the spec: [object_delete] of the game's object code (not
    in this file) is handed the address of a pointer, frees the object that
    pointer refers to and stores NULL in the pointer.  The call is made on
    the object; the store is written out where the pointer is a field. *)
Definition object_delete (obj : object) : M unit :=
  extern_ (c_object_delete obj) (x_object_delete X obj).

(** *** Dice *)

Definition randint0 (m : Z) : M Z :=
  fun s => (fst (Rand_div m (rng (game s))),
            {| ctx := ctx s;
               game := with_rng (snd (Rand_div m (rng (game s)))) (game s);
               calls := calls s |}).

Definition randint1 (m : Z) : M Z :=
  r <- randint0 m ; ret (int32 (r + 1)).

(** Modelled from the spec: [damroll(num, sides)] of z-rand.c, the sum of
    [num] dice of [sides] sides ("base dice 10d6/20d6/40d6/80d6"). *)
Fixpoint damroll (num : nat) (sides : Z) : M Z :=
  match num with
  | O => ret 0
  | S num' =>
      r <- randint1 sides ;
      sum <- damroll num' sides ;
      ret (int32 (r + sum))
  end.

(** ** Blow methods *)

(** Modelled from the spec: [streq] of the game's basic header (not in this
    file), exact string equality. *)
Definition streq (a b : string) : bool := String.eqb a b.

Definition MAX_DESC_INSULT : Z := 8.

Definition desc_insult : list string :=
  [ "insults you!";
    "insults your mother!";
    "gives you the finger!";
    "humiliates you!";
    "defiles you!";
    "dances around you!";
    "makes obscene gestures!";
    "moons you!!!" ].

Definition MAX_DESC_MOAN : Z := 8.

Definition desc_moan : list string :=
  [ "wants his mushrooms back.";
    "tells you to get off his land.";
    "looks for his dogs. ";
    "says 'Did you kill my Fang?' ";
    "asks 'Do you want to buy any mushrooms?' ";
    "seems sad about something.";
    "asks if you have seen his dogs.";
    "mumbles something about mushrooms." ].

(** Return a randomly chosen string to append to an INSULT message.  The
    result is the table entry read; [None] stands for a read outside the
    table. *)
Definition monster_blow_random_insult : M (option string) :=
  r <- randint0 MAX_DESC_INSULT ;
  ret (desc_insult !! Z.to_nat r).

(** Return a randomly chosen string to append to a MOAN message. *)
Definition monster_blow_random_moan : M (option string) :=
  r <- randint0 MAX_DESC_MOAN ;
  ret (desc_moan !! Z.to_nat r).

(** Return an action string to be appended on the attack message; [None]
    is the NULL action. *)
Definition monster_blow_method_action (method : blow_method) : M (option string) :=
  match act_msg method with
  | Some m => ret (Some m)
  | None =>
      if streq (name method) "INSULT" then monster_blow_random_insult
      else if streq (name method) "MOAN" then monster_blow_random_moan
      else ret None
  end.

(** ** Shared effect families *)

(** Do damage as the result of a melee attack that has an elemental aspect. *)
Definition melee_effect_elemental (type : gf_type) (pure_element : bool) : M unit :=
  when pure_element (set_obvious true) ;;
  match type with
  | GF_ACID => msg "You are covered in acid!" []
  | GF_ELEC => msg "You are struck by electricity!" []
  | GF_FIRE => msg "You are enveloped in flames!" []
  | GF_COLD => msg "You are covered with frost!" []
  | GF_POIS => ret tt
  end ;;
  dam <- context_get damage ;
  armor <- context_get ac ;
  (* Give the player a small bonus to ac for elemental attacks *)
  let physical_dam := x_adjust_dam_armor X dam (int32 (armor + 50)) in
  (* Some attacks do no physical damage *)
  is_phys <- context_get (fun c => phys (method c)) ;
  let physical_dam := if negb is_phys then 0 else physical_dam in
  elemental_dam <- adjust_dam type dam RANDOMISE 0 ;
  (* Take the larger of physical or elemental damage *)
  set_damage (if physical_dam >? elemental_dam then physical_dam
              else elemental_dam) ;;
  when (elemental_dam >? 0)
       (inven_damage type (MIN (int32 (elemental_dam * 5)) 300)) ;;
  dam' <- context_get damage ;
  kb <- context_get ddesc ;
  when (dam' >? 0) (take_hit dam' kb) ;;
  when pure_element (update_smart_learn None 0 (learn_gf type)).

(** Do damage as the result of a melee attack that has a status effect. *)
Definition melee_effect_timed (type : tmd) (amount : Z) (of_flag : of_flag)
    (attempt_save : bool) (save_msg : option string) : M unit :=
  dam <- context_get damage ;
  kb <- context_get ddesc ;
  take_hit dam kb ;;
  dead <- player_get is_dead ;
  if dead then ret tt else
  (* Perform a saving throw if desired. *)
  saved <- (if attempt_save then
              r <- randint0 100 ;
              save <- player_get (fun pl => skills (state pl) SKILL_SAVE) ;
              ret (r <? save)
            else ret false) ;
  (if saved then
     match save_msg with
     | Some m => msg "%s" [arg_str m]
     | None => ret tt
     end ;;
     set_obvious true
   else
     changed <- player_inc_timed type amount true true ;
     when changed (set_obvious true)) ;;
  update_smart_learn (Some of_flag) 0 learn_nothing.

(** Do damage as the result of a melee attack that drains a stat. *)
Definition melee_effect_stat (stat : stat_id) : M unit :=
  dam <- context_get damage ;
  kb <- context_get ddesc ;
  take_hit dam kb ;;
  dead <- player_get is_dead ;
  if dead then ret tt else
  effect_simple_obvious EF_DRAIN_STAT "0"
    (param_stat stat) (param_int 0) (param_int 0).

(** Do damage as the result of an experience draining melee attack. *)
Definition melee_effect_experience (chance : Z) (drain_amount : Z) : M unit :=
  set_obvious true ;;
  dam <- context_get damage ;
  kb <- context_get ddesc ;
  take_hit dam kb ;;
  update_smart_learn (Some OF_HOLD_LIFE) 0 learn_nothing ;;
  dead <- player_get is_dead ;
  if dead then ret tt else
  hold <- player_get (fun pl => x_player_of_has X pl OF_HOLD_LIFE) ;
  resisted <- (if hold then r <- randint0 100 ; ret (r <? chance)
               else ret false) ;
  if resisted then msg "You keep hold of your life force!" []
  else
    cur_exp <- player_get exp ;
    let d := int32 (drain_amount +
                    int32 (int32 (cur_exp ÷ 100) * life_drain_percent X)) in
    hold' <- player_get (fun pl => x_player_of_has X pl OF_HOLD_LIFE) ;
    if hold' then
      msg "You feel your life slipping away!" [] ;;
      player_exp_lose (int32 (d ÷ 10)) false
    else
      msg "You feel your life draining away!" [] ;;
      player_exp_lose d false.

(** The saving throw "(unless paralyzed) based on dex and level" that guards
    [EAT_GOLD] and [EAT_ITEM]: the condition
    [!p->timed[TMD_PARALYZED] && randint0(100) < adj_dex_safe[...] + p->lev]. *)
Definition dex_lev_save : M bool :=
  paralyzed <- player_get (fun pl => timed pl TMD_PARALYZED) ;
  if truth paralyzed then ret false
  else
    r <- randint0 100 ;
    dex <- player_get (fun pl => stat_ind (state pl) STAT_DEX) ;
    plev <- player_get lev ;
    ret (r <? int32 (adj_dex_safe X dex + plev)).

(** ** Handlers *)

(** Hit the player, but don't do any damage. *)
Definition melee_effect_handler_NONE : M unit :=
  set_obvious true ;;
  set_damage 0.

(** Hurt the player with no side effects. *)
Definition melee_effect_handler_HURT : M unit :=
  set_obvious true ;;
  dam <- context_get damage ;
  armor <- context_get ac ;
  set_damage (x_adjust_dam_armor X dam armor) ;;
  dam' <- context_get damage ;
  kb <- context_get ddesc ;
  take_hit dam' kb.

(** Poison the player. *)
Definition melee_effect_handler_POISON : M unit :=
  melee_effect_elemental GF_POIS false ;;
  dead <- player_get is_dead ;
  if dead then ret tt else
  rl <- context_get rlev ;
  r <- randint1 rl ;
  changed <- player_inc_timed TMD_POISONED (int32 (5 + r)) true true ;
  when changed (set_obvious true) ;;
  update_smart_learn None 0 (learn_elem ELEM_POIS).

(** Disenchant the player. *)
Definition melee_effect_handler_DISENCHANT : M unit :=
  dam <- context_get damage ;
  kb <- context_get ddesc ;
  take_hit dam kb ;;
  dead <- player_get is_dead ;
  if dead then ret tt else
  resists <- player_get (fun pl => x_player_resists X pl ELEM_DISEN) ;
  when (negb resists)
       (effect_simple_obvious EF_DISENCHANT "0"
          (param_int 0) (param_int 0) (param_int 0)) ;;
  update_smart_learn None 0 (learn_elem ELEM_DISEN).

(** The loop [for (tries = 0; tries < 10; tries++)] of [DRAIN_CHARGES];
    [unpower] is the local declared before the loop. *)
Fixpoint drain_charges_scan (tries_left : nat) (unpower : Z) : M unit :=
  match tries_left with
  | O => ret tt
  | S tries_left' =>
      (* Pick an item *)
      index <- randint0 (pack_size X) ;
      slot <- player_get (inven_at index) ;
      match slot with
      | None => drain_charges_scan tries_left' unpower
      | Some obj =>
          (* Drain charged wands/staves *)
          unpower <-
            (if x_tval_can_have_charges X obj && truth (pval obj) then
               rl <- context_get rlev ;
               (* Get number of charge to drain *)
               let unpower :=
                 int32 (int32 (rl ÷ int32 (level (kind obj) + 2)) + 1) in
               (* Get new charge value, don't allow negative *)
               let newcharge := MAX (int32 (pval obj - unpower)) 0 in
               (* Remove the charges *)
               inven_store index (with_pval newcharge obj) ;;
               ret unpower
             else ret unpower) ;
          if truth unpower then
            rl <- context_get rlev ;
            let heal := int32 (rl * unpower) in
            msg "Energy drains from your pack!" [] ;;
            set_obvious true ;;
            (* Don't heal more than max hp *)
            m <- monster_get (fun m => m) ;
            let heal := MIN heal (int32 (maxhp m - hp m)) in
            (* Heal *)
            monster_set (with_hp (hp m + heal)) ;;
            (* Redraw (later) if needed *)
            who <- player_get (fun pl => health_who (upkeep pl)) ;
            when (match who with
                  | Some i => Nat.eqb i (midx m)
                  | None => false
                  end)
                 (or_redraw (PR_HEALTH X)) ;;
            (* Combine the pack *)
            or_notice (PN_COMBINE X) ;;
            (* Redraw stuff *)
            or_redraw (PR_INVEN X)
            (* Affect only a single inventory slot: break *)
          else drain_charges_scan tries_left' unpower
      end
  end.

(** Drain charges from the player's inventory. *)
Definition melee_effect_handler_DRAIN_CHARGES : M unit :=
  dam <- context_get damage ;
  kb <- context_get ddesc ;
  take_hit dam kb ;;
  dead <- player_get is_dead ;
  if dead then ret tt else
  drain_charges_scan 10 0.

(** The local [gold] of [EAT_GOLD] after its three adjustments. *)
Definition eat_gold_amount : M Z :=
  purse <- player_get au ;
  r <- randint1 25 ;
  let gold := int32 (int32 (purse ÷ 10) + r) in
  let gold := if gold <? 2 then 2 else gold in
  gold <- (if gold >? 5000 then
             r' <- randint1 3000 ; ret (int32 (int32 (purse ÷ 20) + r'))
           else ret gold) ;
  ret (if gold >? purse then purse else gold).

(** The loop [while (gold > 0)] of [EAT_GOLD]; it returns the gold left to
    hand over.  Every turn removes at least one coin, so [gold] turns
    suffice ([carry_gold_done]). *)
Fixpoint carry_gold (fuel : nat) (gold : Z) : M Z :=
  match fuel with
  | O => ret gold
  | S fuel' =>
      if gold >? 0 then
        (* Create a new temporary object *)
        obj <- object_prep (x_money_kind X "gold" gold) 0 MINIMISE ;
        (* Amount of gold to put in this object *)
        let amt := if gold >? Z.pos (MAX_PVAL X) then Z.pos (MAX_PVAL X)
                   else gold in
        let obj := with_pval amt obj in
        let gold := gold - amt in
        (* Set origin to stolen *)
        dlev <- player_get depth ;
        let obj := with_origin ORIGIN_STOLEN dlev obj in
        (* Give the gold to the monster *)
        monster_carry obj ;;
        carry_gold fuel' gold
      else ret gold
  end.

(** The rest of the theft branch of [EAT_GOLD], from [p->au -= gold] on. *)
Definition eat_gold_steal (gold : Z) : M unit :=
  purse <- player_get au ;
  player_set (with_au (purse - gold)) ;;
  if gold <=? 0 then msg "Nothing was stolen." []
  else
    (* Let the player know they were robbed *)
    msg "Your purse feels lighter." [] ;;
    purse' <- player_get au ;
    (if truth purse' then msg "%d coins were stolen!" [arg_int gold]
     else msg "All of your coins were stolen!" []) ;;
    (* While we have gold, put it in objects *)
    carry_gold (Z.to_nat gold) gold ;;
    (* Redraw gold *)
    or_redraw (PR_GOLD X) ;;
    (* Blink away *)
    set_blinked true.

(** Take the player's gold. *)
Definition melee_effect_handler_EAT_GOLD : M unit :=
  dam <- context_get damage ;
  kb <- context_get ddesc ;
  take_hit dam kb ;;
  dead <- player_get is_dead ;
  if dead then ret tt else
  set_obvious true ;;
  (* Attempt saving throw (unless paralyzed) based on dex and level *)
  saved <- dex_lev_save ;
  if saved then
    msg "You quickly protect your money pouch!" [] ;;
    (* Occasional blink anyway *)
    r <- randint0 3 ;
    when (truth r) (set_blinked true)
  else
    gold <- eat_gold_amount ;
    eat_gold_steal gold.

(** The loop [for (tries = 0; tries < 10; tries++)] of [EAT_ITEM]. *)
Fixpoint eat_item_scan (tries_left : nat) : M unit :=
  match tries_left with
  | O => ret tt
  | S tries_left' =>
      (* Pick an item *)
      index <- randint0 (pack_size X) ;
      (* Obtain the item *)
      slot <- player_get (inven_at index) ;
      match slot with
      | None => eat_item_scan tries_left'
      | Some obj =>
          (* Skip artifacts *)
          if artifact obj then eat_item_scan tries_left'
          else
            let o_name := x_object_desc X obj ODESC_FULL in
            (* Is it one of a stack being stolen? *)
            let split := number obj >? 1 in
            msg "%s %s (%c) was stolen!"
                [arg_str (if split then "One of your" else "Your");
                 arg_str o_name; arg_slot index] ;;
            (* Steal and carry *)
            stolen <- gear_object_for_use index obj 1 false ;
            monster_carry stolen ;;
            set_obvious true ;;
            (* Blink away *)
            set_blinked true
            (* Done: break *)
      end
  end.

(** Take something from the player's inventory. *)
Definition melee_effect_handler_EAT_ITEM : M unit :=
  dam <- context_get damage ;
  kb <- context_get ddesc ;
  take_hit dam kb ;;
  dead <- player_get is_dead ;
  if dead then ret tt else
  (* Saving throw (unless paralyzed) based on dex and level *)
  saved <- dex_lev_save ;
  if saved then
    msg "You grab hold of your backpack!" [] ;;
    (* Occasional "blink" anyway *)
    set_blinked true ;;
    set_obvious true
  else eat_item_scan 10.

(** The loop [for (tries = 0; tries < 10; tries++)] of [EAT_FOOD]. *)
Fixpoint eat_food_scan (tries_left : nat) : M unit :=
  match tries_left with
  | O => ret tt
  | S tries_left' =>
      (* Pick an item from the pack *)
      index <- randint0 (pack_size X) ;
      slot <- player_get (inven_at index) ;
      match slot with
      | None => eat_food_scan tries_left'
      | Some obj =>
          (* Skip non-food objects *)
          if negb (x_tval_is_edible X obj) then eat_food_scan tries_left'
          else
            (if number obj =? 1 then
               msg "Your %s (%c) was eaten!"
                   [arg_str (x_object_desc X obj ODESC_BASE); arg_slot index]
             else
               msg "One of your %s (%c) was eaten!"
                   [arg_str (x_object_desc X obj ODESC_PREFIX_BASE);
                    arg_slot index]) ;;
            (* Steal and eat *)
            eaten <- gear_object_for_use index obj 1 false ;
            eaten <- (match known eaten with
                      | Some copy =>
                          (* object_delete(&eaten->known) *)
                          object_delete copy ;;
                          ret (with_known None eaten)
                      | None => ret eaten
                      end) ;
            object_delete eaten ;;
            set_obvious true
            (* Done: break *)
      end
  end.

(** Eat the player's food. *)
Definition melee_effect_handler_EAT_FOOD : M unit :=
  dam <- context_get damage ;
  kb <- context_get ddesc ;
  take_hit dam kb ;;
  dead <- player_get is_dead ;
  if dead then ret tt else
  eat_food_scan 10.

(** Absorb the player's light. *)
Definition melee_effect_handler_EAT_LIGHT : M unit :=
  dam <- context_get damage ;
  kb <- context_get ddesc ;
  take_hit dam kb ;;
  dead <- player_get is_dead ;
  if dead then ret tt else
  effect_simple_obvious EF_DRAIN_LIGHT "250+1d250"
    (param_int 0) (param_int 0) (param_int 0).

Definition melee_effect_handler_ACID : M unit := melee_effect_elemental GF_ACID true.
Definition melee_effect_handler_ELEC : M unit := melee_effect_elemental GF_ELEC true.
Definition melee_effect_handler_FIRE : M unit := melee_effect_elemental GF_FIRE true.
Definition melee_effect_handler_COLD : M unit := melee_effect_elemental GF_COLD true.

(** Blind the player. *)
Definition melee_effect_handler_BLIND : M unit :=
  rl <- context_get rlev ;
  r <- randint1 rl ;
  melee_effect_timed TMD_BLIND (int32 (10 + r)) OF_PROT_BLIND false None.

(** Confuse the player. *)
Definition melee_effect_handler_CONFUSE : M unit :=
  rl <- context_get rlev ;
  r <- randint1 rl ;
  melee_effect_timed TMD_CONFUSED (int32 (3 + r)) OF_PROT_CONF false None.

(** Terrify the player. *)
Definition melee_effect_handler_TERRIFY : M unit :=
  rl <- context_get rlev ;
  r <- randint1 rl ;
  melee_effect_timed TMD_AFRAID (int32 (3 + r)) OF_PROT_FEAR true
    (Some "You stand your ground!").

(** Paralyze the player. *)
Definition melee_effect_handler_PARALYZE : M unit :=
  (* Hack -- Prevent perma-paralysis via damage *)
  paralyzed <- player_get (fun pl => timed pl TMD_PARALYZED) ;
  dam <- context_get damage ;
  when (truth paralyzed && (dam <? 1)) (set_damage 1) ;;
  rl <- context_get rlev ;
  r <- randint1 rl ;
  melee_effect_timed TMD_PARALYZED (int32 (3 + r)) OF_FREE_ACT true
    (Some "You resist the effects!").

Definition melee_effect_handler_LOSE_STR : M unit := melee_effect_stat STAT_STR.
Definition melee_effect_handler_LOSE_INT : M unit := melee_effect_stat STAT_INT.
Definition melee_effect_handler_LOSE_WIS : M unit := melee_effect_stat STAT_WIS.
Definition melee_effect_handler_LOSE_DEX : M unit := melee_effect_stat STAT_DEX.
Definition melee_effect_handler_LOSE_CON : M unit := melee_effect_stat STAT_CON.

(** Drain all of the player's stats. *)
Definition melee_effect_handler_LOSE_ALL : M unit :=
  dam <- context_get damage ;
  kb <- context_get ddesc ;
  take_hit dam kb ;;
  dead <- player_get is_dead ;
  if dead then ret tt else
  effect_simple_obvious EF_DRAIN_STAT "0" (param_stat STAT_STR) (param_int 0) (param_int 0) ;;
  effect_simple_obvious EF_DRAIN_STAT "0" (param_stat STAT_DEX) (param_int 0) (param_int 0) ;;
  effect_simple_obvious EF_DRAIN_STAT "0" (param_stat STAT_CON) (param_int 0) (param_int 0) ;;
  effect_simple_obvious EF_DRAIN_STAT "0" (param_stat STAT_INT) (param_int 0) (param_int 0) ;;
  effect_simple_obvious EF_DRAIN_STAT "0" (param_stat STAT_WIS) (param_int 0) (param_int 0).

(** Cause an earthquake around the player. *)
Definition melee_effect_handler_SHATTER : M unit :=
  set_obvious true ;;
  (* Hack -- Reduce damage based on the player armor class *)
  dam <- context_get damage ;
  armor <- context_get ac ;
  set_damage (x_adjust_dam_armor X dam armor) ;;
  dam' <- context_get damage ;
  kb <- context_get ddesc ;
  take_hit dam' kb ;;
  dead <- player_get is_dead ;
  if dead then ret tt else
  (* Radius 8 earthquake centered at the monster *)
  dam'' <- context_get damage ;
  if dam'' >? 23 then
    px_old <- player_get px ;
    py_old <- player_get py ;
    effect_simple_NULL EF_EARTHQUAKE "0" (param_int 0) (param_int 8) (param_int 0) ;;
    (* Stop the blows if the player is pushed away *)
    px_new <- player_get px ;
    py_new <- player_get py ;
    when (negb (px_old =? px_new) || negb (py_old =? py_new))
         (set_do_break true)
  else ret tt.

(** Drain the player's experience. *)
Definition melee_effect_handler_EXP_10 : M unit :=
  d <- damroll 10 6 ; melee_effect_experience 95 d.
Definition melee_effect_handler_EXP_20 : M unit :=
  d <- damroll 20 6 ; melee_effect_experience 90 d.
Definition melee_effect_handler_EXP_40 : M unit :=
  d <- damroll 40 6 ; melee_effect_experience 75 d.
Definition melee_effect_handler_EXP_80 : M unit :=
  d <- damroll 80 6 ; melee_effect_experience 50 d.

(** Make the player hallucinate. *)
Definition melee_effect_handler_HALLU : M unit :=
  dam <- context_get damage ;
  kb <- context_get ddesc ;
  take_hit dam kb ;;
  dead <- player_get is_dead ;
  if dead then ret tt else
  rl <- context_get rlev ;
  r <- randint1 (int32 (rl ÷ 2)) ;
  changed <- player_inc_timed TMD_IMAGE (int32 (3 + r)) true true ;
  when changed (set_obvious true) ;;
  update_smart_learn None 0 (learn_elem ELEM_CHAOS).

(** ** The registry *)

Definition effect_handlers : list (string * M unit) :=
  [ ("NONE", melee_effect_handler_NONE);
    ("HURT", melee_effect_handler_HURT);
    ("POISON", melee_effect_handler_POISON);
    ("DISENCHANT", melee_effect_handler_DISENCHANT);
    ("DRAIN_CHARGES", melee_effect_handler_DRAIN_CHARGES);
    ("EAT_GOLD", melee_effect_handler_EAT_GOLD);
    ("EAT_ITEM", melee_effect_handler_EAT_ITEM);
    ("EAT_FOOD", melee_effect_handler_EAT_FOOD);
    ("EAT_LIGHT", melee_effect_handler_EAT_LIGHT);
    ("ACID", melee_effect_handler_ACID);
    ("ELEC", melee_effect_handler_ELEC);
    ("FIRE", melee_effect_handler_FIRE);
    ("COLD", melee_effect_handler_COLD);
    ("BLIND", melee_effect_handler_BLIND);
    ("CONFUSE", melee_effect_handler_CONFUSE);
    ("TERRIFY", melee_effect_handler_TERRIFY);
    ("PARALYZE", melee_effect_handler_PARALYZE);
    ("LOSE_STR", melee_effect_handler_LOSE_STR);
    ("LOSE_INT", melee_effect_handler_LOSE_INT);
    ("LOSE_WIS", melee_effect_handler_LOSE_WIS);
    ("LOSE_DEX", melee_effect_handler_LOSE_DEX);
    ("LOSE_CON", melee_effect_handler_LOSE_CON);
    ("LOSE_ALL", melee_effect_handler_LOSE_ALL);
    ("SHATTER", melee_effect_handler_SHATTER);
    ("EXP_10", melee_effect_handler_EXP_10);
    ("EXP_20", melee_effect_handler_EXP_20);
    ("EXP_40", melee_effect_handler_EXP_40);
    ("EXP_80", melee_effect_handler_EXP_80);
    ("HALLU", melee_effect_handler_HALLU) ].

(** The scan [while (current->name != NULL && current->function != NULL)];
    the end of the list stands for the NULL entry that closes the table. *)
Fixpoint lookup_handler (effect_name : string) (table : list (string * M unit))
    : option (M unit) :=
  match table with
  | [] => None
  | (n, f) :: table' =>
      if my_stricmp effect_name n =? 0 then Some f
      else lookup_handler effect_name table'
  end.

Definition melee_handler_for_blow_effect (effect_name : string) : option (M unit) :=
  lookup_handler effect_name effect_handlers.

(** ** Vocabulary of the statements *)

(** The state once the blow's damage has been applied by [take_hit]. *)
Definition after_hit (s : mstate) : mstate :=
  run (take_hit (damage (ctx s)) (ddesc (ctx s))) s.

(** The calls a computation adds to the log. *)
Definition made {A : Type} (m : M A) (s : mstate) : list call :=
  drop (length (calls s)) (calls (run m s)).

(** An output flag of the context is never taken back. *)
Definition flags_kept (c c' : context) : Prop :=
  (obvious c = true -> obvious c' = true) /\
  (blinked c = true -> blinked c' = true) /\
  (do_break c = true -> do_break c' = true).

Definition monotone {A : Type} (m : M A) : Prop :=
  forall s, flags_kept (ctx s) (ctx (run m s)).

(** What [effect_simple] owes its caller: a flag that is set when the
    pointer is handed over is still set on return. *)
Definition ident_kept : Prop :=
  forall index dice p1 p2 p3 w,
    fst (x_effect_simple X index dice p1 p2 p3 (Some true) w) = true.

(** The handlers of the elemental family, each with its element. *)
Definition elemental_handlers : list (M unit * gf_type) :=
  [ (melee_effect_handler_ACID, GF_ACID);
    (melee_effect_handler_ELEC, GF_ELEC);
    (melee_effect_handler_FIRE, GF_FIRE);
    (melee_effect_handler_COLD, GF_COLD);
    (melee_effect_handler_POISON, GF_POIS) ].

(** The four experience drains: handler, resist chance, number of dice. *)
Definition exp_tiers : list (M unit * Z * nat) :=
  [ (melee_effect_handler_EXP_10, 95, 10%nat);
    (melee_effect_handler_EXP_20, 90, 20%nat);
    (melee_effect_handler_EXP_40, 75, 40%nat);
    (melee_effect_handler_EXP_80, 50, 80%nat) ].

(** The message printed on a successful save of the timed family. *)
Definition save_msg_calls (save_msg : option string) : list call :=
  match save_msg with
  | Some m => [c_msg "%s" [arg_str m]]
  | None => []
  end.

Definition earthquake : call :=
  c_effect_simple EF_EARTHQUAKE "0" (param_int 0) (param_int 8) (param_int 0).

(** An object is handed to [gear_object_for_use] in a list of calls. *)
Definition taken (l : list call) (obj : object) : Prop :=
  exists index num message, In (c_gear_object_for_use index obj num message) l.

(** Every object taken in a list of calls satisfies [Q]. *)
Definition only_takes (Q : object -> Prop) (l : list call) : Prop :=
  forall obj, taken l obj -> Q obj.




(** The scan of [DRAIN_CHARGES] found nothing to drain between [s1] and
    [s']. *)
Definition undrained (s1 s' : mstate) : Prop :=
  ctx s' = ctx s1 /\ p (game s') = p (game s1) /\
  mon (game s') = mon (game s1) /\ calls s' = calls s1.


(** The slots the first [n] tries of a scan pick: [n] draws of
    [randint0(z_info->pack_size)] from the tape, in order. *)
Fixpoint slots_drawn (n : nat) (tape : list Z) : list Z :=
  match n with
  | O => []
  | S n' =>
      fst (Rand_div (pack_size X) tape) ::
      slots_drawn n' (snd (Rand_div (pack_size X) tape))
  end.



(** *** Vocabulary of the further statements *)

(** The handlers whose first step is [take_hit] on the rolled damage,
    followed by the check of [is_dead]. *)
Definition damage_first_handlers : list (M unit) :=
  [ melee_effect_handler_DISENCHANT;
    melee_effect_handler_DRAIN_CHARGES;
    melee_effect_handler_EAT_GOLD;
    melee_effect_handler_EAT_ITEM;
    melee_effect_handler_EAT_FOOD;
    melee_effect_handler_EAT_LIGHT;
    melee_effect_handler_LOSE_STR;
    melee_effect_handler_LOSE_INT;
    melee_effect_handler_LOSE_WIS;
    melee_effect_handler_LOSE_DEX;
    melee_effect_handler_LOSE_CON;
    melee_effect_handler_LOSE_ALL;
    melee_effect_handler_HALLU ].

(** The objects handed to [monster_carry] in a list of calls. *)
Fixpoint carried (l : list call) : list object :=
  match l with
  | [] => []
  | c_monster_carry obj :: l' => obj :: carried l'
  | _ :: l' => carried l'
  end.

(** The total of the [pval]s of a list of objects. *)
Fixpoint total_pval (objs : list object) : Z :=
  match objs with
  | [] => 0
  | obj :: objs' => pval obj + total_pval objs'
  end.

(** The handlers that start a timer whose length is drawn from the
    monster level: handler, timer, fixed part, and whether the level is
    halved. *)
Definition timer_tiers : list (M unit * tmd * Z * bool) :=
  [ (melee_effect_handler_BLIND, TMD_BLIND, 10, false);
    (melee_effect_handler_CONFUSE, TMD_CONFUSED, 3, false);
    (melee_effect_handler_TERRIFY, TMD_AFRAID, 3, false);
    (melee_effect_handler_PARALYZE, TMD_PARALYZED, 3, false);
    (melee_effect_handler_POISON, TMD_POISONED, 5, false);
    (melee_effect_handler_HALLU, TMD_IMAGE, 3, true) ].

(** A computation leaves the part [f] of the context as it found it. *)
Definition keeps {A B : Type} (f : context -> B) (m : M A) : Prop :=
  forall s, f (ctx (run m s)) = f (ctx s).

(** The inputs of a handler in the context. *)
Definition context_inputs (c : context) : Z * blow_method * Z * string :=
  (rlev c, method c, ac c, ddesc c).

(** A slot without anything to steal, to eat, or to drain. *)
Definition nothing_to_steal (slot : option object) : Prop :=
  match slot with
  | Some obj => artifact obj = true
  | None => True
  end.

Definition nothing_to_eat (slot : option object) : Prop :=
  match slot with
  | Some obj => x_tval_is_edible X obj = false
  | None => True
  end.

Definition nothing_to_drain (slot : option object) : Prop :=
  match slot with
  | Some obj => x_tval_can_have_charges X obj && truth (pval obj) = false
  | None => True
  end.

(** The message of a theft from slot [index]. *)
Definition stolen_msg (index : Z) (obj : object) : call :=
  c_msg "%s %s (%c) was stolen!"
        [arg_str (if number obj >? 1 then "One of your" else "Your");
         arg_str (x_object_desc X obj ODESC_FULL); arg_slot index].

(** The slot holds something edible. *)
Definition edible_slot (pl : player) (index : Z) : bool :=
  match inven_at index pl with
  | Some obj => x_tval_is_edible X obj
  | None => false
  end.

(** The end of the unit [eaten]: its known copy is deleted first, if it has
    one, and then the unit itself, which no longer points to a copy. *)
Definition eaten_calls (eaten : object) : list call :=
  match known eaten with
  | Some copy => [c_object_delete copy; c_object_delete (with_known None eaten)]
  | None => [c_object_delete eaten]
  end.

Definition eaten_game (eaten : object) (w : world) : world :=
  match known eaten with
  | Some copy =>
      x_object_delete X (with_known None eaten) (x_object_delete X copy w)
  | None => x_object_delete X eaten w
  end.

(** The message of a meal from slot [index]. *)
Definition eaten_msg (index : Z) (obj : object) : call :=
  if number obj =? 1
  then c_msg "Your %s (%c) was eaten!"
             [arg_str (x_object_desc X obj ODESC_BASE); arg_slot index]
  else c_msg "One of your %s (%c) was eaten!"
             [arg_str (x_object_desc X obj ODESC_PREFIX_BASE); arg_slot index].

(** The messages of the acid, lightning, fire and frost blows. *)
Definition elemental_msgs (type : gf_type) : list call :=
  match type with
  | GF_ACID => [c_msg "You are covered in acid!" []]
  | GF_ELEC => [c_msg "You are struck by electricity!" []]
  | GF_FIRE => [c_msg "You are enveloped in flames!" []]
  | GF_COLD => [c_msg "You are covered with frost!" []]
  | GF_POIS => []
  end.

(** One gold object of the loop: at least one coin, at most [MAX_PVAL],
    marked as stolen. *)
Definition stolen_coins (obj : object) : Prop :=
  1 <= pval obj <= Z.pos (MAX_PVAL X) /\ origin obj = ORIGIN_STOLEN.

(** The damage and the description handed to [take_hit] in a list of
    calls. *)
Fixpoint hits (l : list call) : list (Z * string) :=
  match l with
  | [] => []
  | c_take_hit dam kb_str :: l' => (dam, kb_str) :: hits l'
  | _ :: l' => hits l'
  end.

(** A computation that calls [take_hit] never and keeps the description
    of the attacker; one that keeps the damage as well; and one that
    deals the damage it leaves in the context, once, or leaves no positive
    damage. *)
Definition hitless {A : Type} (m : M A) : Prop :=
  forall s, exists l,
    calls (run m s) = calls s ++ l /\ hits l = [] /\
    ddesc (ctx (run m s)) = ddesc (ctx s).

Definition quiet {A : Type} (m : M A) : Prop :=
  forall s, exists l,
    calls (run m s) = calls s ++ l /\ hits l = [] /\
    ddesc (ctx (run m s)) = ddesc (ctx s) /\
    damage (ctx (run m s)) = damage (ctx s).

Definition deals_once {A : Type} (m : M A) : Prop :=
  forall s, exists l,
    calls (run m s) = calls s ++ l /\
    (hits l = [(damage (ctx (run m s)), ddesc (ctx s))] \/
     (hits l = [] /\ damage (ctx (run m s)) <= 0)).

End MonBlows.

Arguments damroll : simpl never.
Arguments drain_charges_scan : simpl never.
Arguments carry_gold : simpl never.
Arguments eat_item_scan : simpl never.
Arguments eat_food_scan : simpl never.
Arguments slots_drawn : simpl never.

(** Follows the spec's words: "stolen amount = floor(currentGold/10) +
    random(1..25), clamped to a minimum of 2; if the naive amount exceeds
    5000, recompute as floor(currentGold/20) + random(1..3000); never steal
    more than the defender currently holds". *)
Definition stolen_amount_spec (currentGold r25 r3000 : Z) : Z :=
  let naive := Z.max 2 (currentGold / 10 + r25) in
  let amount := if 5000 <? naive then currentGold / 20 + r3000 else naive in
  Z.min amount currentGold.

(** ** A sample game *)

(** A small implementation of the rest of the game, on which the handlers
    can be evaluated: the player's hidden part is whether the life force is
    held, the rest of the game is the player's hit points. *)

Definition sample_take_hit (dam : Z) (kb_str : string)
    (w : @world bool Z) : @world bool Z :=
  let pl := p w in
  {| p := {| is_dead := is_dead pl || (rest w - dam <? 0);
             exp := exp pl; au := au pl; lev := lev pl; depth := depth pl;
             px := px pl; py := py pl; timed := timed pl; state := state pl;
             upkeep := upkeep pl; p_rest := p_rest pl |};
     mon := mon w; rng := rng w; rest := rest w - dam |}.

Definition sample_inc_timed (type : tmd) (amount : Z) (notify check : bool)
    (w : @world bool Z) : bool * @world bool Z :=
  let pl := p w in
  (0 <? amount,
   with_p {| is_dead := is_dead pl; exp := exp pl; au := au pl; lev := lev pl;
             depth := depth pl; px := px pl; py := py pl;
             timed := fun t => if decide (t = type) then timed pl t + amount
                               else timed pl t;
             state := state pl; upkeep := upkeep pl; p_rest := p_rest pl |} w).

Definition sample_exp_lose (amount : Z) (permanent : bool)
    (w : @world bool Z) : @world bool Z :=
  let pl := p w in
  with_p {| is_dead := is_dead pl; exp := exp pl - Z.min amount (exp pl);
            au := au pl; lev := lev pl; depth := depth pl; px := px pl;
            py := py pl; timed := timed pl; state := state pl;
            upkeep := upkeep pl; p_rest := p_rest pl |} w.

(** The earthquake pushes the player one step east; the other effects are
    noticed. *)
Definition sample_effect_simple (index : effect_index) (dice : string)
    (p1 p2 p3 : eparam) (ident : option bool)
    (w : @world bool Z) : bool * @world bool Z :=
  let pl := p w in
  match index with
  | EF_EARTHQUAKE =>
      (match ident with Some b => b | None => false end,
       with_p {| is_dead := is_dead pl; exp := exp pl; au := au pl;
                 lev := lev pl; depth := depth pl; px := px pl + 1;
                 py := py pl; timed := timed pl; state := state pl;
                 upkeep := upkeep pl; p_rest := p_rest pl |} w)
  | _ => (true, w)
  end.

Definition sample_object_for_use (index : Z) (obj : object) (num : Z)
    (message : bool) (w : @world bool Z) : object * @world bool Z :=
  let pl := p w in
  let left := if number obj <=? num then None
              else Some {| kind := kind obj; tval := tval obj;
                           artifact := artifact obj; known := known obj;
                           number := number obj - num; pval := pval obj;
                           origin := origin obj;
                           origin_depth := origin_depth obj |} in
  ({| kind := kind obj; tval := tval obj; artifact := artifact obj;
      known := known obj; number := num; pval := pval obj;
      origin := origin obj; origin_depth := origin_depth obj |},
   with_p (with_upkeep
             (with_inven (<[Z.to_nat index := left]> (inven (upkeep pl)))
                         (upkeep pl)) pl) w).

Definition sample_object_prep (k : object_kind) (lv : Z) (a : aspect)
    (w : @world bool Z) : object * @world bool Z :=
  ({| kind := k; tval := 0; artifact := false; known := None; number := 1;
      pval := 0; origin := ORIGIN_NONE; origin_depth := 0 |}, w).

(** Object types of the sample game: 1 is a wand, 2 a staff, 3 food. *)
Definition sample : @externs bool Z :=
  {| pack_size := 3;
     life_drain_percent := 10;
     MAX_PVAL := 32767;
     PR_HEALTH := 1;
     PR_INVEN := 2;
     PR_GOLD := 4;
     PN_COMBINE := 8;
     adj_dex_safe := fun i => i;
     x_adjust_dam_armor := fun dam a => dam - dam * Z.min a 240 / 400;
     x_player_of_has := fun pl f =>
       match f with OF_HOLD_LIFE => p_rest pl | _ => false end;
     x_player_resists := fun _ _ => false;
     x_tval_can_have_charges := fun obj => (tval obj =? 1) || (tval obj =? 2);
     x_tval_is_edible := fun obj => tval obj =? 3;
     x_object_desc := fun obj _ => kname (kind obj);
     x_money_kind := fun nm _ => {| kname := nm; level := 0 |};
     x_take_hit := sample_take_hit;
     x_adjust_dam := fun _ dam _ _ w => (dam, w);
     x_inven_damage := fun _ _ w => w;
     x_update_smart_learn := fun _ _ _ w => w;
     x_player_inc_timed := sample_inc_timed;
     x_effect_simple := sample_effect_simple;
     x_player_exp_lose := sample_exp_lose;
     x_gear_object_for_use := sample_object_for_use;
     x_object_prep := sample_object_prep;
     x_monster_carry := fun _ w => w;
     x_object_delete := fun _ w => w |}.

Definition sample_object (tv : Z) (art : bool) (charges : Z) : object :=
  {| kind := {| kname := "thing"; level := 0 |}; tval := tv; artifact := art;
     known := None; number := 1; pval := charges; origin := ORIGIN_NONE;
     origin_depth := 0 |}.

(** A player of level 10 at full health 100, with a given purse,
    experience, paralysis timer, pack and hold on the life force. *)
Definition sample_player (gold xp paralysis : Z) (pack : list (option object))
    (hold_life : bool) : @player bool :=
  {| is_dead := false; exp := xp; au := gold; lev := 10; depth := 5;
     px := 20; py := 30;
     timed := fun t => match t with TMD_PARALYZED => paralysis | _ => 0 end;
     state := {| skills := fun _ => 40; stat_ind := fun _ => 15 |};
     upkeep := {| inven := pack; health_who := None; notice := 0;
                  redraw := 0 |};
     p_rest := hold_life |}.

Definition sample_context (dam armor : Z) (physical : bool) : context :=
  {| rlev := 40;
     method := {| name := "HIT"; act_msg := None; phys := physical |};
     ac := armor; ddesc := "a sample monster"; obvious := false;
     blinked := false; do_break := false; damage := dam |}.

Definition sample_state (c : context) (pl : @player bool) (tape : list Z)
    : @mstate bool Z :=
  {| ctx := c;
     game := {| p := pl; mon := {| midx := 1; hp := 100; maxhp := 1000 |};
                rng := tape; rest := 100 |};
     calls := [] |}.

(** Sample states, one for each statement evaluated below. *)

(** A blow of 40 acid damage from a method without physical damage,
    against armor 50. *)
Definition acid_state : @mstate bool Z :=
  sample_state (sample_context 40 50 false) (sample_player 0 0 0 [] false) [].

(** A paralyzed player (no saving throw) holding 100 gold. *)
Definition purse_state : @mstate bool Z :=
  sample_state (sample_context 5 10 true) (sample_player 100 0 1 [] false) [7].

(** A player with 1000 experience who holds the life force and fails the
    resist check of EXP_10 (the dice give 31, the check draws 99). *)
Definition drain_state : @mstate bool Z :=
  sample_state (sample_context 5 10 true) (sample_player 0 1000 0 [] true)
               [0; 1; 2; 3; 4; 5; 0; 1; 2; 3; 99].

(** A frightening blow whose saving throw draws 10 against a skill of 40. *)
Definition fear_state : @mstate bool Z :=
  sample_state (sample_context 5 10 true) (sample_player 0 0 0 [] false) [10].

(** A shattering blow of 60 that the player survives, and one of 200 that
    kills. *)
Definition quake_state : @mstate bool Z :=
  sample_state (sample_context 60 0 true) (sample_player 0 0 0 [] false) [].

Definition fatal_state : @mstate bool Z :=
  sample_state (sample_context 200 0 true) (sample_player 0 0 0 [] false) [].


(** A pack whose only item is a food ration, an artifact in
    [relic_state]. *)
Definition ration_state : @mstate bool Z :=
  sample_state (sample_context 5 10 true)
               (sample_player 0 0 0 [Some (sample_object 3 false 0)] false) [0].

Definition relic_state : @mstate bool Z :=
  sample_state (sample_context 5 10 true)
               (sample_player 0 0 0 [Some (sample_object 3 true 0)] false) [0].

(** A thief whose victim misses the saving throw (50 against 25) and loses
    the wand of the first slot. *)
Definition burglar_state : @mstate bool Z :=
  sample_state (sample_context 5 10 true)
               (sample_player 0 0 0 [Some (sample_object 1 false 1)] false)
               [50; 0].

(** A thief whose victim makes the saving throw (10 against 25). *)
Definition thief_state : @mstate bool Z :=
  sample_state (sample_context 5 10 true)
               (sample_player 0 0 0 [Some (sample_object 1 false 1)] false) [10].

(** A context in which the three flags are already set. *)
Definition flagged_state : @mstate bool Z :=
  sample_state
    (with_obvious true (with_blinked true (with_do_break true
       (sample_context 5 10 true))))
    (sample_player 0 0 0 [] false) [].

(** A paralyzed player struck by a paralyzing blow that rolled no damage. *)
Definition held_state : @mstate bool Z :=
  sample_state (sample_context 0 10 true) (sample_player 0 0 5 [] false) [3; 50].


(** A food ration that the player knows, and a pack that holds it. *)
Definition known_ration : object :=
  with_known (Some (sample_object 3 false 0)) (sample_object 3 false 0).

Definition known_ration_state : @mstate bool Z :=
  sample_state (sample_context 5 10 true)
               (sample_player 0 0 0 [Some known_ration] false) [0].

(** A player who holds the life force and passes the resist check of
    EXP_10 (the check draws 50). *)
Definition steadfast_state : @mstate bool Z :=
  sample_state (sample_context 5 10 true) (sample_player 0 1000 0 [] true)
               [0; 1; 2; 3; 4; 5; 0; 1; 2; 3; 50].

(** A thief whose victim misses the saving throw and carries nothing but
    an artifact. *)
Definition guarded_state : @mstate bool Z :=
  sample_state (sample_context 5 10 true)
               (sample_player 0 0 0 [Some (sample_object 1 true 1)] false)
               [50; 0].

(** A monster that insults (the draw of [insult_state] reads the fourth
    entry of the table), and one that bites. *)
Definition insult_method : blow_method :=
  {| name := "INSULT"; act_msg := None; phys := false |}.

Definition insult_state : @mstate bool Z :=
  sample_state (sample_context 0 10 false) (sample_player 0 0 0 [] false) [11].

Definition bite_method : blow_method :=
  {| name := "BITE"; act_msg := None; phys := true |}.

(** * Properties *)

Lemma int32_id z : in_int32 z -> int32 z = z.
Proof.
  unfold in_int32, int32. intros Hz.
  rewrite Z.mod_small; lia.
Qed.

Lemma MIN_min a b : MIN a b = Z.min a b.
Proof. unfold MIN. destruct (Z.gtb_spec a b); lia. Qed.


Lemma truth_true z : truth z = true <-> z <> 0.
Proof. unfold truth. destruct (Z.eqb_spec z 0); simpl; split; congruence. Qed.

Lemma truth_false z : truth z = false <-> z = 0.
Proof. unfold truth. destruct (Z.eqb_spec z 0); simpl; split; congruence. Qed.

Lemma Rand_div_range m tape : 0 < m -> 0 <= fst (Rand_div m tape) < m.
Proof.
  intros Hm. unfold Rand_div.
  destruct (m <=? 1) eqn:E; [simpl; lia|].
  apply Z.leb_gt in E.
  destruct tape as [|x tape']; simpl; [lia|].
  apply Z.mod_pos_bound. lia.
Qed.

Arguments bind : simpl never.
Arguments when : simpl never.

Lemma bind_eq {P G A B : Type} (m : @M P G A) (k : A -> @M P G B) (s : @mstate P G) :
  bind m k s = k (fst (m s)) (snd (m s)).
Proof. reflexivity. Qed.

(** One step of symbolic execution: a branch applied to a state is split,
    otherwise the leftmost sequence is entered. *)
Ltac exec_step :=
  match goal with
  | |- context [(if ?b then _ else _) ?s] => destruct b eqn:?
  | |- context [when ?b ?m ?s] => unfold when at 1
  | |- context [(match ?x with Some _ => _ | None => _ end) ?s] =>
      destruct x eqn:?
  | |- context [bind ?m ?k ?s] => rewrite (bind_eq m k s)
  end; cbn.

Ltac exec :=
  unfold run, effect_simple_NULL, effect_simple_obvious, randint1;
  cbn; repeat exec_step.

(** Case analysis on a comparison between branch-free terms. *)
Ltac branch_free t :=
  lazymatch t with
  | context [if _ then _ else _] => fail
  | _ => idtac
  end.

Ltac compare_cases :=
  match goal with
  | |- context [?a >? ?b] =>
      branch_free a; branch_free b; destruct (Z.gtb_spec a b)
  | |- context [?a <? ?b] =>
      branch_free a; branch_free b; destruct (Z.ltb_spec a b)
  | |- context [?a <=? ?b] =>
      branch_free a; branch_free b; destruct (Z.leb_spec a b)
  end.

(** Entering sequences only, leaving the branches to the proof. *)
Ltac exec_bind :=
  match goal with
  | |- context [bind ?m ?k ?s] => rewrite (bind_eq m k s)
  end; cbn.

Ltac break_if :=
  match goal with
  | |- context [if ?b then _ else _] => destruct b eqn:?
  end.

Section Properties.

Context {P G : Type} (X : @externs P G).

Local Abbreviation mstate := (@mstate P G).
Local Abbreviation M := (@M P G).

Lemma made_app {A : Type} (m : M A) (s : mstate) (l : list call) :
  calls (run m s) = calls s ++ l -> made m s = l.
Proof. intros H. unfold made. rewrite H. apply drop_app_length. Qed.

(** ** The elemental family *)

Lemma elemental_family_damage (type : gf_type) (pure_element : bool) (s : mstate) :
  let raw := damage (ctx s) in
  let physical :=
    if phys (method (ctx s))
    then x_adjust_dam_armor X raw (int32 (ac (ctx s) + 50)) else 0 in
  let elemental := fst (x_adjust_dam X type raw RANDOMISE 0 (game s)) in
  damage (ctx (run (melee_effect_elemental X type pure_element) s)) =
  Z.max physical elemental.
Proof.
  unfold melee_effect_elemental.
  destruct type, (phys (method (ctx s))) eqn:Hphys; exec;
    rewrite ?Hphys; cbn; repeat break_if; lia.
Qed.

(** C1.  For ACID, ELEC, FIRE, COLD and POISON the damage left in the
    context is the larger of the armor-mitigated physical damage and the
    resistance-mitigated elemental damage of the same raw damage; a method
    that deals no physical damage has physical component 0, and the damage
    is then the elemental one (elemental mitigation yielding no negative
    amount). *)
Theorem elemental_damage_is_max (h : M unit) (type : gf_type) (s : mstate) :
  In (h, type) (elemental_handlers X) ->
  let raw := damage (ctx s) in
  let physical :=
    if phys (method (ctx s))
    then x_adjust_dam_armor X raw (int32 (ac (ctx s) + 50)) else 0 in
  let elemental := fst (x_adjust_dam X type raw RANDOMISE 0 (game s)) in
  damage (ctx (run h s)) = Z.max physical elemental /\
  (phys (method (ctx s)) = false ->
     physical = 0 /\
     (0 <= elemental -> damage (ctx (run h s)) = elemental)).
Proof.
  intros Hin raw physical elemental.
  assert (Hmax : damage (ctx (run h s)) = Z.max physical elemental).
  { subst raw physical elemental.
    unfold elemental_handlers in Hin. simpl in Hin.
    destruct Hin as [E|[E|[E|[E|[E|[]]]]]]; inversion E; subst; clear E.
    - exact (elemental_family_damage GF_ACID true s).
    - exact (elemental_family_damage GF_ELEC true s).
    - exact (elemental_family_damage GF_FIRE true s).
    - exact (elemental_family_damage GF_COLD true s).
    - rewrite <- (elemental_family_damage GF_POIS false s).
      unfold melee_effect_handler_POISON.
      generalize (melee_effect_elemental X GF_POIS false). intros m.
      exec; reflexivity. }
  split; [exact Hmax|].
  intros Hphys. subst physical. rewrite Hphys in *.
  split; [reflexivity|]. intros Hpos. rewrite Hmax. lia.
Qed.

(** ** The timed family *)

(** C4.  In the timed-status family, once the defender has survived the
    damage: a requested saving throw succeeds exactly when the draw, which
    lies in [0,100), is below the save skill; on success [player_inc_timed]
    is not called and the context is marked obvious; otherwise the timer is
    increased by the given amount and the context is marked obvious exactly
    when [player_inc_timed] reports a change. *)
Theorem timed_family_save (type : tmd) (amount : Z) (flag : of_flag)
    (attempt_save : bool) (save_msg : option string) (s : mstate) :
  let s1 := after_hit X s in
  let r := fst (Rand_div 100 (rng (game s1))) in
  let saved :=
    attempt_save && (r <? skills (state (p (game s1))) SKILL_SAVE) in
  let w1 := if attempt_save
            then with_rng (snd (Rand_div 100 (rng (game s1)))) (game s1)
            else game s1 in
  let learn := c_update_smart_learn (Some flag) 0 learn_nothing in
  let s' := run (melee_effect_timed X type amount flag attempt_save save_msg) s in
  is_dead (p (game s1)) = false ->
  0 <= r < 100 /\
  (saved = true ->
     obvious (ctx s') = true /\
     calls s' = calls s1 ++ save_msg_calls save_msg ++ [learn] /\
     game s' = x_update_smart_learn X (Some flag) 0 learn_nothing w1) /\
  (saved = false ->
     let inc := x_player_inc_timed X type amount true true w1 in
     obvious (ctx s') = obvious (ctx s) || fst inc /\
     calls s' = calls s1 ++ [c_player_inc_timed type amount true true; learn] /\
     game s' = x_update_smart_learn X (Some flag) 0 learn_nothing (snd inc)).
Proof.
  intros s1 r saved w1 learn s' Halive.
  split; [apply Rand_div_range; lia|].
  subst s' learn w1 saved r s1.
  unfold after_hit, melee_effect_timed in *. unfold run in *. cbn in *.
  repeat (rewrite bind_eq; cbn). rewrite Halive.
  destruct attempt_save; cbn; repeat (rewrite bind_eq; cbn).
  - split; intros Hs; rewrite Hs; [destruct save_msg|]; exec;
      rewrite <- ?app_assoc; cbn; rewrite ?orb_true_r, ?orb_false_r; auto.
  - split; [discriminate|]. intros _. exec;
      rewrite <- ?app_assoc; cbn; rewrite ?orb_true_r, ?orb_false_r; auto.
Qed.

(** C10.  PARALYZE against a defender whose paralysis timer is running
    raises a rolled damage below 1 to exactly 1 before it is applied, so
    that at least 1 damage is dealt; against a defender who is not
    paralyzed the damage is left as rolled. *)
Theorem paralyze_minimum_damage (s : mstate) :
  let paralysis := timed (p (game s)) TMD_PARALYZED in
  let rolled := damage (ctx s) in
  let s' := run (melee_effect_handler_PARALYZE X) s in
  (paralysis <> 0 -> rolled < 1 ->
     damage (ctx s') = 1 /\
     head (made (melee_effect_handler_PARALYZE X) s) =
       Some (c_take_hit 1 (ddesc (ctx s)))) /\
  (paralysis <> 0 ->
     exists dealt, 1 <= dealt /\
       head (made (melee_effect_handler_PARALYZE X) s) =
         Some (c_take_hit dealt (ddesc (ctx s)))) /\
  (paralysis = 0 ->
     damage (ctx s') = rolled /\
     head (made (melee_effect_handler_PARALYZE X) s) =
       Some (c_take_hit rolled (ddesc (ctx s)))).
Proof.
  intros paralysis rolled s'.
  assert (Hrun : exists l,
    let dealt := if truth paralysis && (rolled <? 1) then 1 else rolled in
    damage (ctx s') = dealt /\
    calls s' = calls s ++ c_take_hit dealt (ddesc (ctx s)) :: l).
  { subst s' paralysis rolled.
    unfold melee_effect_handler_PARALYZE, melee_effect_timed.
    exec; rewrite <- ?app_assoc; cbn; eexists; split; reflexivity. }
  destruct Hrun as (l & Hdam & Hcalls).
  apply made_app in Hcalls. fold s' in Hdam.
  rewrite Hcalls, Hdam. cbn. clear Hcalls Hdam.
  repeat split.
  - apply truth_true in H. rewrite H.
    destruct (Z.ltb_spec rolled 1); [reflexivity|lia].
  - apply truth_true in H. rewrite H.
    destruct (Z.ltb_spec rolled 1); [reflexivity|lia].
  - intros Hp. apply truth_true in Hp. rewrite Hp. cbn.
    destruct (Z.ltb_spec rolled 1); eexists; (split; [|reflexivity]); lia.
  - apply truth_false in H. rewrite H. reflexivity.
  - apply truth_false in H. rewrite H. reflexivity.
Qed.
(** ** The experience drains *)

Lemma randint1_range (m : Z) (s : mstate) :
  0 < m < 2 ^ 30 -> 1 <= fst (randint1 m s) <= m.
Proof.
  intros Hm. unfold randint1, randint0. rewrite bind_eq. cbn.
  pose proof (Rand_div_range m (rng (game s))) as Hr.
  rewrite int32_id; unfold in_int32; lia.
Qed.

Lemma randint1_frame (m : Z) (s : mstate) :
  ctx (run (randint1 m) s) = ctx s /\
  calls (run (randint1 m) s) = calls s /\
  p (game (run (randint1 m) s)) = p (game s) /\
  mon (game (run (randint1 m) s)) = mon (game s).
Proof. unfold randint1, randint0, run. rewrite bind_eq. cbn. auto. Qed.

Lemma damroll_S (num : nat) (sides : Z) :
  damroll (S num) sides =
  bind (randint1 sides) (fun r : Z =>
    bind (damroll num sides) (fun sum : Z => @ret P G Z (int32 (r + sum)))).
Proof. reflexivity. Qed.

Lemma damroll_frame (num : nat) (sides : Z) (s : mstate) :
  ctx (run (damroll num sides) s) = ctx s /\
  calls (run (damroll num sides) s) = calls s /\
  p (game (run (damroll num sides) s)) = p (game s) /\
  mon (game (run (damroll num sides) s)) = mon (game s).
Proof.
  revert s. induction num as [|num IH]; intros s; [cbn; auto|].
  unfold run. rewrite damroll_S, !bind_eq. cbn.
  destruct (IH (run (randint1 sides) s)) as (H1 & H2 & H3 & H4).
  destruct (randint1_frame sides s) as (F1 & F2 & F3 & F4).
  unfold run in *. rewrite H1, H2, H3, H4. auto.
Qed.

Lemma damroll_range (num : nat) (sides : Z) (s : mstate) :
  0 < sides < 2 ^ 10 -> (num < 2 ^ 10)%nat ->
  0 <= fst (damroll num sides s) <= sides * Z.of_nat num.
Proof.
  intros Hsides. revert s. induction num as [|num IH]; intros s Hnum.
  - unfold damroll, ret. cbn. lia.
  - rewrite damroll_S, !bind_eq. cbn.
    pose proof (randint1_range sides s ltac:(lia)) as Hr.
    assert (Hnum' : (num < 2 ^ 10)%nat) by lia.
    pose proof (IH (snd (randint1 sides s)) Hnum') as Hsum.
    assert (Z.of_nat num < 2 ^ 10) by (change (2 ^ 10) with (Z.of_nat (2 ^ 10)); lia).
    rewrite int32_id; unfold in_int32; nia.
Qed.

(** The family, for any chance and base amount. *)
Lemma experience_family (chance base : Z) (s : mstate) :
  let s1 := run (update_smart_learn X (Some OF_HOLD_LIFE) 0 learn_nothing)
                (after_hit X s) in
  let hold := x_player_of_has X (p (game s1)) OF_HOLD_LIFE in
  let r := fst (Rand_div 100 (rng (game s1))) in
  let w2 := if hold
            then with_rng (snd (Rand_div 100 (rng (game s1)))) (game s1)
            else game s1 in
  let cur := exp (p (game s1)) in
  let drain := base + cur / 100 * life_drain_percent X in
  let s' := run (melee_effect_experience X chance base) s in
  is_dead (p (game s1)) = false ->
  hold && (r <? chance) = false ->
  0 <= cur < 2 ^ 31 -> 0 <= life_drain_percent X -> 0 <= base ->
  drain < 2 ^ 31 ->
  let lost := if hold then drain / 10 else drain in
  calls s' = calls s1 ++
    [c_msg (if hold then "You feel your life slipping away!"
            else "You feel your life draining away!") [];
     c_player_exp_lose lost false] /\
  game s' = x_player_exp_lose X lost false w2.
Proof.
  intros s1 hold r w2 cur drain s' Halive Hfail Hcur Hpct Hbase Hdrain lost.
  assert (Hquot : cur ÷ 100 = cur / 100) by (apply Z.quot_div_nonneg; lia).
  assert (Hq : 0 <= cur / 100 < 2 ^ 31).
  { split; [apply Z.div_pos; lia|].
    apply Z.div_lt_upper_bound; lia. }
  assert (Hprod : 0 <= cur / 100 * life_drain_percent X) by nia.
  assert (Hd : int32 (base + int32 (int32 (cur ÷ 100) * life_drain_percent X))
               = drain).
  { rewrite Hquot. subst drain.
    rewrite (int32_id (cur / 100)) by (unfold in_int32; lia).
    rewrite (int32_id (cur / 100 * _)) by (unfold in_int32; lia).
    apply int32_id. unfold in_int32. lia. }
  assert (Hd10 : int32 (drain ÷ 10) = drain / 10).
  { rewrite Z.quot_div_nonneg by lia.
    apply int32_id. unfold in_int32.
    split; [transitivity 0; [lia|apply Z.div_pos; lia]|].
    apply Z.div_lt_upper_bound; lia. }
  subst s' lost w2 r drain cur hold s1.
  unfold melee_effect_experience, after_hit in *. unfold run in *.
  cbn in *. repeat exec_bind. rewrite Halive. cbn. repeat exec_bind.
  destruct (x_player_of_has X _ OF_HOLD_LIFE) eqn:Hhold;
    cbn in *; repeat exec_bind.
  - rewrite Hfail. repeat exec_bind.
    rewrite Hhold. repeat exec_bind.
    rewrite Hd, Hd10. rewrite <- !app_assoc. auto.
  - rewrite Hhold. repeat exec_bind.
    rewrite Hd. rewrite <- !app_assoc. auto.
Qed.

(** C3.  For EXP_10, EXP_20, EXP_40 and EXP_80, when the defender survives
    the damage and the drain is not fully negated: the drain is the base
    amount rolled plus floor(experience / 100) times the life drain
    percentage; a defender holding the life force (whose resist check
    failed) loses exactly floor(drain / 10), a defender without it loses
    the full drain.  Experience and the percentage are non-negative and the
    drain fits in 32 bits. *)
Theorem experience_drain_amount (h : M unit) (chance : Z) (dice : nat) (s : mstate) :
  In (h, chance, dice) (exp_tiers X) ->
  let base := fst (damroll dice 6 s) in
  let s1 := run (update_smart_learn X (Some OF_HOLD_LIFE) 0 learn_nothing)
                (after_hit X (run (damroll dice 6) s)) in
  let hold := x_player_of_has X (p (game s1)) OF_HOLD_LIFE in
  let r := fst (Rand_div 100 (rng (game s1))) in
  let w2 := if hold
            then with_rng (snd (Rand_div 100 (rng (game s1)))) (game s1)
            else game s1 in
  let cur := exp (p (game s1)) in
  let drain := base + cur / 100 * life_drain_percent X in
  let lost := if hold then drain / 10 else drain in
  is_dead (p (game s1)) = false ->
  hold && (r <? chance) = false ->
  0 <= cur < 2 ^ 31 -> 0 <= life_drain_percent X -> drain < 2 ^ 31 ->
  made h s =
    [c_take_hit (damage (ctx s)) (ddesc (ctx s));
     c_update_smart_learn (Some OF_HOLD_LIFE) 0 learn_nothing;
     c_msg (if hold then "You feel your life slipping away!"
            else "You feel your life draining away!") [];
     c_player_exp_lose lost false] /\
  game (run h s) = x_player_exp_lose X lost false w2.
Proof.
  intros Hin.
  assert (Hshape : h = bind (damroll dice 6)
                         (fun d => melee_effect_experience X chance d) /\
                   (dice < 2 ^ 10)%nat).
  { unfold exp_tiers in Hin. simpl in Hin.
    destruct Hin as [E|[E|[E|[E|[]]]]]; inversion E; subst;
      (split; [reflexivity|cbn; lia]). }
  destruct Hshape as [Hh Hdice]. clear Hin.
  intros base s1 hold r w2 cur drain lost Halive Hfail Hcur Hpct Hdrain.
  assert (Hbase : 0 <= base) by (apply damroll_range; [lia|exact Hdice]).
  destruct (damroll_frame dice 6 s) as (Fctx & Fcalls & _ & _).
  assert (Hrun : run h s =
                 run (melee_effect_experience X chance base)
                     (run (damroll dice 6) s)).
  { rewrite Hh. reflexivity. }
  destruct (experience_family chance base (run (damroll dice 6) s)
              Halive Hfail Hcur Hpct Hbase Hdrain) as [Hcalls Hgame].
  rewrite <- Hrun in Hcalls, Hgame.
  split; [|exact Hgame].
  apply made_app. rewrite Hcalls. clear Hcalls Hgame Hrun.
  subst lost drain cur w2 r hold s1 base.
  unfold after_hit, run in *. cbn.
  rewrite !Fctx, Fcalls. rewrite <- !app_assoc. reflexivity.
Qed.

(** ** Shatter *)

(** C5 (as amended).  SHATTER deals the armor-mitigated damage.  When the
    defender survives it, the radius-8 earthquake is triggered if and only
    if that damage exceeds 23, and the sequence-break flag is set exactly
    when the earthquake ran and left the defender at another position.
    When the defender dies of it, no earthquake is triggered, whatever the
    damage: the hit is the only call, and the flag stays as it was. *)
Theorem shatter_earthquake (s : mstate) :
  let dealt := x_adjust_dam_armor X (damage (ctx s)) (ac (ctx s)) in
  let w1 := x_take_hit X dealt (ddesc (ctx s)) (game s) in
  let w2 := snd (x_effect_simple X EF_EARTHQUAKE "0" (param_int 0)
                   (param_int 8) (param_int 0) None w1) in
  let moved := negb (px (p w1) =? px (p w2)) || negb (py (p w1) =? py (p w2)) in
  let s' := run (melee_effect_handler_SHATTER X) s in
  damage (ctx s') = dealt /\
  (In earthquake (made (melee_effect_handler_SHATTER X) s) <->
     is_dead (p w1) = false /\ 23 < dealt) /\
  (is_dead (p w1) = false ->
     (23 < dealt ->
        game s' = w2 /\ do_break (ctx s') = do_break (ctx s) || moved) /\
     (dealt <= 23 ->
        game s' = w1 /\ do_break (ctx s') = do_break (ctx s))) /\
  (is_dead (p w1) = true ->
     made (melee_effect_handler_SHATTER X) s =
       [c_take_hit dealt (ddesc (ctx s))] /\
     game s' = w1 /\ do_break (ctx s') = do_break (ctx s)).
Proof.
  intros dealt w1 w2 moved s'.
  set (quake := negb (is_dead (p w1)) && (dealt >? 23)).
  assert (Hrun :
    damage (ctx s') = dealt /\
    calls s' = calls s ++ c_take_hit dealt (ddesc (ctx s)) ::
                 (if quake then [earthquake] else []) /\
    game s' = (if quake then w2 else w1) /\
    do_break (ctx s') = do_break (ctx s) || (quake && moved)).
  { subst s' quake moved w2 w1 dealt.
    unfold melee_effect_handler_SHATTER, effect_simple_NULL.
    unfold run. cbn. repeat exec_bind.
    destruct (is_dead _); cbn; [rewrite orb_false_r; auto|].
    repeat exec_bind.
    destruct (x_adjust_dam_armor X (damage (ctx s)) (ac (ctx s)) >? 23);
      cbn; repeat exec_bind.
    - unfold when.
      destruct (negb (_ =? _) || negb (_ =? _)); cbn;
        rewrite <- ?app_assoc, ?orb_true_r, ?orb_false_r; auto.
    - rewrite orb_false_r. auto. }
  destruct Hrun as (Hdam & Hcalls & Hgame & Hbreak).
  apply made_app in Hcalls.
  split; [exact Hdam|]. rewrite Hcalls, Hgame, Hbreak. subst quake.
  destruct (is_dead (p w1)); cbn [negb andb].
  - rewrite orb_false_r. split; [split|split].
    + intros [Hin|[]]. discriminate Hin.
    + intros [Hlive _]. discriminate Hlive.
    + intros Hlive. discriminate Hlive.
    + intros _. auto.
  - destruct (Z.gtb_spec dealt 23) as [Hgt|Hle]; cbn [andb].
    + split; [split|split].
      * intros _. split; [reflexivity|exact Hgt].
      * intros _. right. left. reflexivity.
      * intros _. split; [intros _; auto|intros Hle; lia].
      * intros Hdead. discriminate Hdead.
    + rewrite orb_false_r. split; [split|split].
      * intros [Hin|[]]. discriminate Hin.
      * intros [_ Hbig]. lia.
      * intros _. split; [intros Hbig; lia|intros _; auto].
      * intros Hdead. discriminate Hdead.
Qed.

(** ** Item theft *)

(** C8 (what the code does).  When the defender survives the damage of
    EAT_ITEM, is not paralyzed, and the saving throw on dexterity and level
    succeeds, nothing is taken, the context is marked obvious, and the
    attacker disengages: [blinked] is set on every such run, whatever the
    draws. *)
Theorem eat_item_save_always_blinks (s : mstate) :
  let s1 := after_hit X s in
  let pl := p (game s1) in
  let r := fst (Rand_div 100 (rng (game s1))) in
  let s' := run (melee_effect_handler_EAT_ITEM X) s in
  is_dead pl = false ->
  timed pl TMD_PARALYZED = 0 ->
  r < int32 (adj_dex_safe X (stat_ind (state pl) STAT_DEX) + lev pl) ->
  blinked (ctx s') = true /\
  obvious (ctx s') = true /\
  made (melee_effect_handler_EAT_ITEM X) s =
    [c_take_hit (damage (ctx s)) (ddesc (ctx s));
     c_msg "You grab hold of your backpack!" []] /\
  p (game s') = pl.
Proof.
  intros s1 pl r s' Halive Hfree Hsave.
  apply Z.ltb_lt in Hsave.
  assert (Hrun :
    blinked (ctx s') = true /\ obvious (ctx s') = true /\
    calls s' = calls s ++ [c_take_hit (damage (ctx s)) (ddesc (ctx s));
                           c_msg "You grab hold of your backpack!" []] /\
    p (game s') = pl).
  { subst s' r pl s1.
    unfold melee_effect_handler_EAT_ITEM, dex_lev_save, after_hit in *.
    unfold run in *. cbn in *. repeat exec_bind. rewrite Halive. cbn.
    repeat exec_bind. rewrite Hfree. cbn. repeat exec_bind.
    rewrite Hsave. cbn. repeat exec_bind.
    rewrite <- ?app_assoc. auto. }
  destruct Hrun as (Hb & Ho & Hcalls & Hp).
  apply made_app in Hcalls. auto.
Qed.

(** ** Gold theft *)

Lemma with_au_same (pl : @player P) : with_au (au pl) pl = pl.
Proof. destruct pl; reflexivity. Qed.

Lemma with_p_same (w : @world P G) : with_p (p w) w = w.
Proof. destruct w; reflexivity. Qed.

(** The local [gold] as a function of the purse and of the two draws. *)
Lemma eat_gold_amount_value (s2 : mstate) :
  let purse := au (p (game s2)) in
  let r25 := fst (randint1 25 s2) in
  let r3000 := fst (randint1 3000 (run (randint1 25) s2)) in
  let naive := int32 (int32 (purse ÷ 10) + r25) in
  let floored := if naive <? 2 then 2 else naive in
  let redone := if floored >? 5000 then int32 (int32 (purse ÷ 20) + r3000)
                else floored in
  fst (eat_gold_amount s2) = (if redone >? purse then purse else redone).
Proof.
  cbn zeta. unfold eat_gold_amount, run. repeat exec_bind.
  destruct (_ >? 5000) eqn:E; cbn; repeat exec_bind; reflexivity.
Qed.

Lemma eat_gold_amount_frame (s2 : mstate) :
  let s3 := run eat_gold_amount s2 in
  ctx s3 = ctx s2 /\ calls s3 = calls s2 /\
  p (game s3) = p (game s2) /\ mon (game s3) = mon (game s2).
Proof.
  cbn zeta. unfold eat_gold_amount, run, randint1. repeat exec_bind.
  destruct (_ >? 5000) eqn:E; cbn; repeat exec_bind; auto.
Qed.

(** C2.  In the theft branch of EAT_GOLD (the defender survived and the
    saving throw did not succeed): the amount is floor(gold/10) plus a draw
    in 1..25, raised to at least 2, redone as floor(gold/20) plus a draw in
    1..3000 when above 5000, and capped by the gold held; with 100 gold it
    lies in [2, 100], with 1,000,000 gold it is at most floor(gold/20) +
    3000; a non-positive amount steals nothing. *)
Theorem gold_theft_amount (s : mstate) :
  let s1 := run (set_obvious true) (after_hit X s) in
  let s2 := snd (dex_lev_save X s1) in
  let purse := au (p (game s2)) in
  let r25 := fst (randint1 25 s2) in
  let r3000 := fst (randint1 3000 (run (randint1 25) s2)) in
  let gold := fst (eat_gold_amount s2) in
  let s' := run (melee_effect_handler_EAT_GOLD X) s in
  is_dead (p (game s1)) = false ->
  fst (dex_lev_save X s1) = false ->
  s' = run (eat_gold_steal X gold) (run eat_gold_amount s2) /\
  (1 <= r25 <= 25 /\ 1 <= r3000 <= 3000) /\
  (0 <= purse < 2 ^ 31 -> gold = stolen_amount_spec purse r25 r3000) /\
  (purse = 100 -> 2 <= gold <= 100) /\
  (purse = 1000000 -> gold <= purse / 20 + 3000) /\
  (0 <= purse < 2 ^ 31 -> gold <= 0 ->
     p (game s') = p (game s2) /\
     mon (game s') = mon (game s2) /\
     blinked (ctx s') = blinked (ctx s) /\
     calls s' = calls s1 ++ [c_msg "Nothing was stolen." []]).
Proof.
  intros s1 s2 purse r25 r3000 gold s' Halive Hfail.
  assert (Hr25 : 1 <= r25 <= 25) by (apply randint1_range; lia).
  assert (Hr3000 : 1 <= r3000 <= 3000) by (apply randint1_range; lia).
  assert (Hspec : 0 <= purse < 2 ^ 31 ->
                  gold = stolen_amount_spec purse r25 r3000).
  { intros Hpurse. subst gold. rewrite eat_gold_amount_value.
    fold purse r25 r3000. unfold stolen_amount_spec.
    assert (H10 : purse ÷ 10 = purse / 10) by (apply Z.quot_div_nonneg; lia).
    assert (H20 : purse ÷ 20 = purse / 20) by (apply Z.quot_div_nonneg; lia).
    assert (0 <= purse / 10 < 214748365)
      by (split; [apply Z.div_pos; lia|apply Z.div_lt_upper_bound; lia]).
    assert (0 <= purse / 20 < 214748365)
      by (split; [apply Z.div_pos; lia|apply Z.div_lt_upper_bound; lia]).
    rewrite H10, H20.
    rewrite (int32_id (purse / 10)) by (unfold in_int32; lia).
    rewrite (int32_id (purse / 20)) by (unfold in_int32; lia).
    rewrite (int32_id (purse / 10 + r25)) by (unfold in_int32; lia).
    rewrite (int32_id (purse / 20 + r3000)) by (unfold in_int32; lia).
    repeat compare_cases; lia. }
  split.
  { subst s' gold s2 s1. unfold melee_effect_handler_EAT_GOLD, after_hit in *.
    unfold run in *. cbn in *. repeat exec_bind. rewrite Halive. cbn.
    repeat exec_bind. rewrite Hfail. cbn. repeat exec_bind. reflexivity. }
  split; [auto|]. split; [exact Hspec|].
  assert (Hdiv100 : 100 / 10 = 10) by reflexivity.
  assert (Hdiv1m : 1000000 / 10 = 100000) by reflexivity.
  assert (Hdiv1m' : 1000000 / 20 = 50000) by reflexivity.
  split; [|split].
  - intros H100. rewrite Hspec by lia. unfold stolen_amount_spec.
    rewrite H100, Hdiv100.
    destruct (Z.ltb_spec 5000 (Z.max 2 (10 + r25))); lia.
  - intros H1m. rewrite Hspec by lia. unfold stolen_amount_spec.
    rewrite H1m, Hdiv1m, Hdiv1m'.
    destruct (Z.ltb_spec 5000 (Z.max 2 (100000 + r25))); lia.
  - intros Hpurse Hgold.
    assert (Hzero : gold = 0 /\ purse = 0).
    { specialize (Hspec Hpurse). unfold stolen_amount_spec in Hspec.
      assert (0 <= purse / 10) by (apply Z.div_pos; lia).
      assert (0 <= purse / 20) by (apply Z.div_pos; lia).
      destruct (Z.ltb_spec 5000 (Z.max 2 (purse / 10 + r25))); lia. }
    destruct Hzero as [Hg0 Hp0].
    assert (Hs' : s' = run (eat_gold_steal X gold) (run eat_gold_amount s2)).
    { subst s' gold s2 s1. unfold melee_effect_handler_EAT_GOLD, after_hit in *.
      unfold run in *. cbn in *. repeat exec_bind. rewrite Halive. cbn.
      repeat exec_bind. rewrite Hfail. cbn. repeat exec_bind. reflexivity. }
    destruct (eat_gold_amount_frame s2) as (Fctx & Fcalls & Fp & Fmon).
    cbn zeta in *.
    assert (Fpurse : au (p (game (run eat_gold_amount s2))) = 0)
      by (rewrite Fp; exact Hp0).
    rewrite Hs', Hg0. unfold eat_gold_steal. unfold run in *.
    repeat exec_bind. rewrite Fpurse, Fctx, Fcalls, Fmon.
    change (0 - 0) with 0. rewrite <- Fpurse at 1.
    rewrite with_au_same, Fp.
    repeat split.
    subst s2 s1. unfold dex_lev_save, after_hit, run.
    cbn. repeat exec_bind.
    destruct (truth _); cbn; repeat exec_bind; reflexivity.
    subst s2 s1. f_equal. unfold dex_lev_save, after_hit, run.
    cbn. repeat exec_bind.
    destruct (truth _); cbn; repeat exec_bind; reflexivity.
Qed.

(** ** What the thieves pick *)

Lemma only_takes_app (Q : object -> Prop) (l1 l2 : list call) :
  only_takes Q l1 -> only_takes Q l2 -> only_takes Q (l1 ++ l2).
Proof.
  intros H1 H2 obj (i & n & m & Hin). apply in_app_or in Hin.
  destruct Hin as [Hin|Hin]; [apply H1|apply H2]; exists i, n, m; exact Hin.
Qed.

Lemma only_takes_nil (Q : object -> Prop) : only_takes Q [].
Proof. intros obj (i & n & m & []). Qed.

Lemma eat_item_scan_S (n : nat) :
  eat_item_scan X (S n) =
  bind (randint0 (pack_size X)) (fun index =>
    bind (player_get (inven_at index)) (fun slot =>
      match slot with
      | None => eat_item_scan X n
      | Some obj =>
          if artifact obj then eat_item_scan X n
          else
            bind (msg "%s %s (%c) was stolen!"
                    [arg_str (if number obj >? 1 then "One of your" else "Your");
                     arg_str (x_object_desc X obj ODESC_FULL); arg_slot index])
              (fun _ =>
                 bind (gear_object_for_use X index obj 1 false) (fun stolen =>
                   bind (monster_carry X stolen) (fun _ =>
                     bind (set_obvious true) (fun _ => set_blinked true))))
      end)).
Proof. reflexivity. Qed.

Lemma eat_food_scan_S (n : nat) :
  eat_food_scan X (S n) =
  bind (randint0 (pack_size X)) (fun index =>
    bind (player_get (inven_at index)) (fun slot =>
      match slot with
      | None => eat_food_scan X n
      | Some obj =>
          if negb (x_tval_is_edible X obj) then eat_food_scan X n
          else
            bind (if number obj =? 1
                  then msg "Your %s (%c) was eaten!"
                         [arg_str (x_object_desc X obj ODESC_BASE);
                          arg_slot index]
                  else msg "One of your %s (%c) was eaten!"
                         [arg_str (x_object_desc X obj ODESC_PREFIX_BASE);
                          arg_slot index])
              (fun _ =>
                 bind (gear_object_for_use X index obj 1 false) (fun eaten =>
                   bind (match known eaten with
                         | Some copy =>
                             bind (object_delete X copy)
                               (fun _ => ret (with_known None eaten))
                         | None => ret eaten
                         end)
                     (fun eaten' =>
                        bind (object_delete X eaten')
                          (fun _ => set_obvious true))))
      end)).
Proof. reflexivity. Qed.

Ltac use_scan IH scan :=
  match goal with
  | |- context [scan ?st] => exact (IH st)
  end.

(** The same for a scan that asks for the sizes of [drain_sized]. *)
Ltac use_scan_sized IH Hsized scan :=
  match goal with
  | |- context [scan ?st] => exact (IH st Hsized)
  end.

Ltac in_cases H :=
  repeat (destruct H as [H|H]; [try discriminate H|]); try contradiction.

Lemma eat_item_scan_takes (n : nat) (s : mstate) :
  exists l, calls (run (eat_item_scan X n) s) = calls s ++ l /\
            only_takes (fun obj => artifact obj = false) l.
Proof.
  revert s. induction n as [|n IH]; intros s.
  - exists []. split; [cbn; symmetry; apply app_nil_r|apply only_takes_nil].
  - rewrite eat_item_scan_S. unfold run. repeat exec_bind.
    destruct (inven_at _ _) as [obj|] eqn:Hslot;
      [|use_scan IH (eat_item_scan X n)].
    destruct (artifact obj) eqn:Hart; [use_scan IH (eat_item_scan X n)|].
    repeat exec_bind. eexists. rewrite <- !app_assoc. split; [reflexivity|].
    intros o (i & k & m & Hin). cbn in Hin. in_cases Hin.
    inversion Hin; subst. exact Hart.
Qed.

Lemma eat_food_scan_takes (n : nat) (s : mstate) :
  exists l, calls (run (eat_food_scan X n) s) = calls s ++ l /\
            only_takes (fun obj => x_tval_is_edible X obj = true) l.
Proof.
  revert s. induction n as [|n IH]; intros s.
  - exists []. split; [cbn; symmetry; apply app_nil_r|apply only_takes_nil].
  - rewrite eat_food_scan_S. unfold run. repeat exec_bind.
    destruct (inven_at _ _) as [obj|] eqn:Hslot;
      [|use_scan IH (eat_food_scan X n)].
    destruct (x_tval_is_edible X obj) eqn:Hfood; cbn;
      [|use_scan IH (eat_food_scan X n)].
    repeat exec_bind.
    destruct (number obj =? 1);
      destruct (known _) as [copy|]; cbn; repeat exec_bind;
      eexists; rewrite <- !app_assoc; (split; [reflexivity|]);
      intros o (i & k & m & Hin); cbn in Hin; in_cases Hin;
      inversion Hin; subst; exact Hfood.
Qed.

(** C7 (as amended).  Over all draws of the 10-attempt scans: the object
    EAT_ITEM takes from the pack is never an artifact, and the object
    EAT_FOOD takes is always edible, hence not an artifact as long as no
    edible object is one. *)
Theorem theft_selection (s : mstate) (obj : object) :
  (taken (made (melee_effect_handler_EAT_ITEM X) s) obj ->
     artifact obj = false) /\
  (taken (made (melee_effect_handler_EAT_FOOD X) s) obj ->
     x_tval_is_edible X obj = true /\
     ((forall o, x_tval_is_edible X o = true -> artifact o = false) ->
      artifact obj = false)).
Proof.
  split; [|intros Htaken;
           cut (x_tval_is_edible X obj = true); [auto|revert Htaken]].
  - assert (Hrun : exists l,
      calls (run (melee_effect_handler_EAT_ITEM X) s) = calls s ++ l /\
      only_takes (fun o => artifact o = false) l).
    { unfold melee_effect_handler_EAT_ITEM, dex_lev_save. unfold run.
      repeat exec_bind.
      destruct (is_dead _); cbn.
      { eexists. split; [reflexivity|].
        intros o (i & k & m & Hin). cbn in Hin. in_cases Hin. }
      repeat exec_bind. destruct (truth _); cbn; repeat exec_bind.
      - destruct (eat_item_scan_takes 10
          {| ctx := ctx s;
             game := x_take_hit X (damage (ctx s)) (ddesc (ctx s)) (game s);
             calls := calls s ++ [c_take_hit (damage (ctx s)) (ddesc (ctx s))] |})
          as (l & Hl & Hq).
        unfold run in Hl. rewrite Hl. cbn. rewrite <- app_assoc.
        eexists. split; [reflexivity|].
        apply (only_takes_app _ [_]); [|exact Hq].
        intros o (i & k & m & Hin). cbn in Hin. in_cases Hin.
      - destruct (_ <? _); cbn; repeat exec_bind.
        + eexists. rewrite <- !app_assoc. split; [reflexivity|].
          intros o (i & k & m & Hin). cbn in Hin. in_cases Hin.
        + match goal with
          | |- context [eat_item_scan X 10 ?st] =>
              destruct (eat_item_scan_takes 10 st) as (l & Hl & Hq)
          end.
          unfold run in Hl. rewrite Hl. cbn. rewrite <- app_assoc.
          eexists. split; [reflexivity|].
          apply (only_takes_app _ [_]); [|exact Hq].
          intros o (i & k & m & Hin). cbn in Hin. in_cases Hin. }
    destruct Hrun as (l & Hl & Hq). rewrite (made_app _ _ _ Hl). apply Hq.
  - assert (Hrun : exists l,
      calls (run (melee_effect_handler_EAT_FOOD X) s) = calls s ++ l /\
      only_takes (fun o => x_tval_is_edible X o = true) l).
    { unfold melee_effect_handler_EAT_FOOD. unfold run.
      repeat exec_bind.
      destruct (is_dead _); cbn.
      { eexists. split; [reflexivity|].
        intros o (i & k & m & Hin). cbn in Hin. in_cases Hin. }
      match goal with
      | |- context [eat_food_scan X 10 ?st] =>
          destruct (eat_food_scan_takes 10 st) as (l & Hl & Hq)
      end.
      unfold run in Hl. rewrite Hl. cbn. rewrite <- app_assoc.
      eexists. split; [reflexivity|].
      apply (only_takes_app _ [_]); [|exact Hq].
      intros o (i & k & m & Hin). cbn in Hin. in_cases Hin. }
    destruct Hrun as (l & Hl & Hq). rewrite (made_app _ _ _ Hl). apply Hq.
Qed.

(** ** The output flags *)

Lemma flags_kept_refl (c : context) : flags_kept c c.
Proof. unfold flags_kept. auto. Qed.

Lemma flags_kept_trans (c1 c2 c3 : context) :
  flags_kept c1 c2 -> flags_kept c2 c3 -> flags_kept c1 c3.
Proof. unfold flags_kept. intuition. Qed.

Lemma monotone_ret {A : Type} (a : A) : monotone (@ret P G A a).
Proof. intros s. apply flags_kept_refl. Qed.

Lemma monotone_bind {A B : Type} (m : M A) (k : A -> M B) :
  monotone m -> (forall a, monotone (k a)) -> monotone (bind m k).
Proof.
  intros Hm Hk s. unfold run. rewrite bind_eq.
  eapply flags_kept_trans; [apply Hm|apply Hk].
Qed.

(** A computation that leaves the context alone. *)
Lemma monotone_frame {A : Type} (m : M A) :
  (forall s, ctx (run m s) = ctx s) -> monotone m.
Proof. intros H s. rewrite H. apply flags_kept_refl. Qed.

Lemma monotone_when (b : bool) (m : M unit) : monotone m -> monotone (when b m).
Proof. intros Hm. unfold when. destruct b; [exact Hm|apply monotone_ret]. Qed.

Lemma monotone_set_obvious : monotone (@set_obvious P G true).
Proof. intros s. unfold flags_kept. cbn. auto. Qed.

Lemma monotone_set_blinked : monotone (@set_blinked P G true).
Proof. intros s. unfold flags_kept. cbn. auto. Qed.

Lemma monotone_set_do_break : monotone (@set_do_break P G true).
Proof. intros s. unfold flags_kept. cbn. auto. Qed.

Lemma monotone_set_damage (d : Z) : monotone (@set_damage P G d).
Proof. intros s. unfold flags_kept. cbn. auto. Qed.

Section Monotone.

Hypothesis ident_is_kept : ident_kept X.

Lemma monotone_effect_simple_obvious index dice p1 p2 p3 :
  monotone (effect_simple_obvious X index dice p1 p2 p3).
Proof.
  intros s. unfold effect_simple_obvious, run. repeat exec_bind.
  unfold flags_kept. cbn. repeat split; auto.
  intros Hobv. rewrite Hobv. apply ident_is_kept.
Qed.

Create HintDb mono discriminated.

Ltac mono_step :=
  lazymatch goal with
  | |- monotone (ret _) => apply monotone_ret
  | |- monotone (bind _ _) => apply monotone_bind; [|intros ?]
  | |- monotone (when _ _) => apply monotone_when
  | |- monotone (if ?b then _ else _) => destruct b
  | |- monotone (match ?x with _ => _ end) => destruct x
  | |- monotone (set_obvious true) => apply monotone_set_obvious
  | |- monotone (set_blinked true) => apply monotone_set_blinked
  | |- monotone (set_do_break true) => apply monotone_set_do_break
  | |- monotone (set_damage _) => apply monotone_set_damage
  | |- monotone (effect_simple_obvious _ _ _ _ _ _) =>
      apply monotone_effect_simple_obvious
  | |- monotone (context_get _) => apply monotone_frame; reflexivity
  | |- monotone (player_get _) => apply monotone_frame; reflexivity
  | |- monotone (monster_get _) => apply monotone_frame; reflexivity
  | |- monotone (player_set _) => apply monotone_frame; reflexivity
  | |- monotone (monster_set _) => apply monotone_frame; reflexivity
  | |- monotone (or_redraw _) => apply monotone_frame; reflexivity
  | |- monotone (or_notice _) => apply monotone_frame; reflexivity
  | |- monotone (inven_store _ _) => apply monotone_frame; reflexivity
  | |- monotone (extern _ _) => apply monotone_frame; reflexivity
  | |- monotone (extern_ _ _) => apply monotone_frame; reflexivity
  | |- monotone (randint0 _) => apply monotone_frame; reflexivity
  | |- monotone _ => solve [eauto 2 with mono nocore]
  end.

Ltac mono :=
  unfold msg, take_hit, adjust_dam, inven_damage, update_smart_learn,
    player_inc_timed, player_exp_lose, gear_object_for_use, object_prep,
    monster_carry, object_delete;
  repeat mono_step.


Lemma monotone_randint1 (m : Z) : monotone (@randint1 P G m).
Proof. unfold randint1. mono. Qed.

#[local] Hint Resolve monotone_randint1 : mono.

Lemma monotone_damroll (num : nat) (sides : Z) : monotone (@damroll P G num sides).
Proof.
  induction num as [|num IH]; [apply monotone_ret|].
  rewrite damroll_S. mono.
Qed.

#[local] Hint Resolve monotone_damroll : mono.

Lemma monotone_elemental (type : gf_type) (pure_element : bool) :
  monotone (melee_effect_elemental X type pure_element).
Proof. unfold melee_effect_elemental. mono. Qed.

#[local] Hint Resolve monotone_elemental : mono.

Lemma monotone_timed type amount flag attempt_save save_msg :
  monotone (melee_effect_timed X type amount flag attempt_save save_msg).
Proof. unfold melee_effect_timed. mono. Qed.

#[local] Hint Resolve monotone_timed : mono.

Lemma monotone_stat (stat : stat_id) : monotone (melee_effect_stat X stat).
Proof. unfold melee_effect_stat. mono. Qed.

#[local] Hint Resolve monotone_stat : mono.

Lemma monotone_experience (chance drain_amount : Z) :
  monotone (melee_effect_experience X chance drain_amount).
Proof. unfold melee_effect_experience. mono. Qed.

#[local] Hint Resolve monotone_experience : mono.

Lemma monotone_dex_lev_save : monotone (dex_lev_save X).
Proof. unfold dex_lev_save. mono. Qed.

#[local] Hint Resolve monotone_dex_lev_save : mono.

Lemma drain_charges_scan_S (n : nat) (unpower : Z) :
  drain_charges_scan X (S n) unpower =
  bind (randint0 (pack_size X)) (fun index =>
    bind (player_get (inven_at index)) (fun slot =>
      match slot with
      | None => drain_charges_scan X n unpower
      | Some obj =>
          bind (if x_tval_can_have_charges X obj && truth (pval obj)
                then
                  bind (context_get rlev) (fun rl =>
                    bind (inven_store index
                            (with_pval
                               (MAX (int32 (pval obj -
                                  int32 (int32 (rl ÷ int32 (level (kind obj) + 2)) + 1)))
                                  0) obj))
                      (fun _ =>
                         ret (int32 (int32 (rl ÷ int32 (level (kind obj) + 2)) + 1))))
                else ret unpower)
            (fun unpower =>
               if truth unpower
               then
                 bind (context_get rlev) (fun rl =>
                   bind (msg "Energy drains from your pack!" []) (fun _ =>
                     bind (set_obvious true) (fun _ =>
                       bind (monster_get (fun m => m)) (fun m =>
                         bind (monster_set
                                 (with_hp (hp m +
                                    MIN (int32 (rl * unpower))
                                        (int32 (maxhp m - hp m)))))
                           (fun _ =>
                              bind (player_get (fun pl => health_who (upkeep pl)))
                                (fun who =>
                                   bind (when (match who with
                                               | Some i => Nat.eqb i (midx m)
                                               | None => false
                                               end)
                                              (or_redraw (PR_HEALTH X)))
                                     (fun _ =>
                                        bind (or_notice (PN_COMBINE X))
                                          (fun _ => or_redraw (PR_INVEN X)))))))))
               else drain_charges_scan X n unpower)
      end)).
Proof. reflexivity. Qed.

Lemma monotone_drain_charges_scan (n : nat) (unpower : Z) :
  monotone (drain_charges_scan X n unpower).
Proof.
  revert unpower. induction n as [|n IH]; intros unpower;
    [apply monotone_ret|].
  rewrite drain_charges_scan_S. mono.
Qed.

#[local] Hint Resolve monotone_drain_charges_scan : mono.

Lemma carry_gold_S (fuel : nat) (gold : Z) :
  carry_gold X (S fuel) gold =
  if gold >? 0 then
    bind (object_prep X (x_money_kind X "gold" gold) 0 MINIMISE) (fun obj =>
      bind (player_get depth) (fun dlev =>
        bind (monster_carry X
                (with_origin ORIGIN_STOLEN dlev
                   (with_pval (if gold >? Z.pos (MAX_PVAL X)
                               then Z.pos (MAX_PVAL X) else gold) obj)))
          (fun _ =>
             carry_gold X fuel
               (gold - (if gold >? Z.pos (MAX_PVAL X)
                        then Z.pos (MAX_PVAL X) else gold)))))
  else ret gold.
Proof. reflexivity. Qed.

Lemma monotone_carry_gold (fuel : nat) (gold : Z) :
  monotone (carry_gold X fuel gold).
Proof.
  revert gold. induction fuel as [|fuel IH]; intros gold;
    [apply monotone_ret|].
  rewrite carry_gold_S. mono.
Qed.

#[local] Hint Resolve monotone_carry_gold : mono.

Lemma monotone_eat_item_scan (n : nat) : monotone (eat_item_scan X n).
Proof.
  induction n as [|n IH]; [apply monotone_ret|].
  rewrite eat_item_scan_S. mono.
Qed.

#[local] Hint Resolve monotone_eat_item_scan : mono.

Lemma monotone_eat_food_scan (n : nat) : monotone (eat_food_scan X n).
Proof.
  induction n as [|n IH]; [apply monotone_ret|].
  rewrite eat_food_scan_S. mono.
Qed.

#[local] Hint Resolve monotone_eat_food_scan : mono.

Lemma monotone_handlers :
  Forall (fun entry => monotone (snd entry)) (effect_handlers X).
Proof.
  unfold effect_handlers.
  repeat (apply List.Forall_cons; [cbn [snd]|]); [..|apply List.Forall_nil].
  all: unfold melee_effect_handler_NONE, melee_effect_handler_HURT,
    melee_effect_handler_POISON, melee_effect_handler_DISENCHANT,
    melee_effect_handler_DRAIN_CHARGES, melee_effect_handler_EAT_GOLD,
    eat_gold_amount, eat_gold_steal,
    melee_effect_handler_EAT_ITEM, melee_effect_handler_EAT_FOOD,
    melee_effect_handler_EAT_LIGHT, melee_effect_handler_ACID,
    melee_effect_handler_ELEC, melee_effect_handler_FIRE,
    melee_effect_handler_COLD, melee_effect_handler_BLIND,
    melee_effect_handler_CONFUSE, melee_effect_handler_TERRIFY,
    melee_effect_handler_PARALYZE, melee_effect_handler_LOSE_STR,
    melee_effect_handler_LOSE_INT, melee_effect_handler_LOSE_WIS,
    melee_effect_handler_LOSE_DEX, melee_effect_handler_LOSE_CON,
    melee_effect_handler_LOSE_ALL, melee_effect_handler_SHATTER,
    effect_simple_NULL,
    melee_effect_handler_EXP_10, melee_effect_handler_EXP_20,
    melee_effect_handler_EXP_40, melee_effect_handler_EXP_80,
    melee_effect_handler_HALLU.
  all: mono.
Qed.

End Monotone.

Lemma lookup_handler_In (effect_name : string) (table : list (string * M unit))
    (h : M unit) :
  lookup_handler effect_name table = Some h ->
  exists n, In (n, h) table.
Proof.
  induction table as [|[n f] table IH]; [discriminate|].
  cbn. destruct (my_stricmp effect_name n =? 0).
  - intros E. inversion E; subst. exists n. left. reflexivity.
  - intros E. destruct (IH E) as [n' Hin]. exists n'. right. exact Hin.
Qed.

(** C9.  Every handler of the registry, from every state, leaves each of
    [obvious], [blinked] and [do_break] set if it was set: the handlers
    only write [true] to them, and [effect_simple], which is handed a
    pointer to [obvious], does not clear a flag that is set. *)
Theorem flags_monotonic (effect_name : string) (h : M unit) (s : mstate) :
  ident_kept X ->
  In (effect_name, h) (effect_handlers X) ->
  (obvious (ctx s) = true -> obvious (ctx (run h s)) = true) /\
  (blinked (ctx s) = true -> blinked (ctx (run h s)) = true) /\
  (do_break (ctx s) = true -> do_break (ctx (run h s)) = true).
Proof.
  intros Hident Hin.
  pose proof (monotone_handlers Hident) as Hall.
  rewrite List.Forall_forall in Hall.
  exact (Hall (effect_name, h) Hin s).
Qed.

(** The handlers the lookup returns are those of the table. *)
Lemma looked_up_handler_monotone (effect_name : string) (h : M unit) :
  ident_kept X ->
  melee_handler_for_blow_effect X effect_name = Some h ->
  monotone h.
Proof.
  intros Hident Hlookup.
  destruct (lookup_handler_In _ _ _ Hlookup) as [n Hin].
  pose proof (monotone_handlers Hident) as Hall.
  rewrite List.Forall_forall in Hall.
  exact (Hall (n, h) Hin).
Qed.

(** ** Charge drain *)




Lemma slots_drawn_S (n : nat) (tape : list Z) :
  slots_drawn X (S n) tape =
  fst (Rand_div (pack_size X) tape) ::
  slots_drawn X n (snd (Rand_div (pack_size X) tape)).
Proof. reflexivity. Qed.



(** ** The gold handed over *)

(** The loop of [EAT_GOLD] ends with no gold left once it has run as many
    turns as there are coins. *)
Lemma carry_gold_done (fuel : nat) (gold : Z) (s : mstate) :
  gold <= Z.of_nat fuel -> fst (carry_gold X fuel gold s) <= 0.
Proof.
  revert gold s. induction fuel as [|fuel IH]; intros gold s Hfuel.
  - unfold carry_gold, ret. cbn. lia.
  - rewrite carry_gold_S. destruct (Z.gtb_spec gold 0) as [Hpos|Hle].
    + repeat exec_bind. apply IH.
      destruct (Z.gtb_spec gold (Z.pos (MAX_PVAL X))); lia.
    + unfold ret. cbn. exact Hle.
Qed.

(** * Further properties *)

(** ** The registry lookup *)

Lemma my_stricmp_zero (a b : string) :
  (my_stricmp a b =? 0) = true <-> upper a = upper b.
Proof.
  unfold my_stricmp. destruct (String.eqb_spec (upper a) (upper b)); cbn;
    split; congruence.
Qed.

Lemma lookup_handler_found (effect_name : string)
    (table : list (string * M unit)) (n : string) (h : M unit) :
  List.NoDup (map (fun entry => upper (fst entry)) table) ->
  In (n, h) table ->
  upper effect_name = upper n ->
  lookup_handler effect_name table = Some h.
Proof.
  induction table as [|[n' f] table IH]; intros Hnodup Hin Hname;
    [contradiction|].
  cbn in Hnodup. inversion Hnodup as [|? ? Hfresh Hrest]; subst.
  cbn. destruct (my_stricmp effect_name n' =? 0) eqn:Hcmp.
  - apply my_stricmp_zero in Hcmp.
    destruct Hin as [E|Hin]; [inversion E; reflexivity|].
    exfalso. apply Hfresh. rewrite <- Hcmp, Hname.
    apply (in_map (fun entry => upper (fst entry)) table (n, h) Hin).
  - destruct Hin as [E|Hin]; [|exact (IH Hrest Hin Hname)].
    inversion E; subst.
    apply my_stricmp_zero in Hname. congruence.
Qed.

Lemma lookup_handler_missing (effect_name : string)
    (table : list (string * M unit)) :
  lookup_handler effect_name table = None <->
  forall n h, In (n, h) table -> upper effect_name <> upper n.
Proof.
  induction table as [|[n' f] table IH]; cbn.
  - split; [intros _ n h []|reflexivity].
  - destruct (my_stricmp effect_name n' =? 0) eqn:Hcmp.
    + apply my_stricmp_zero in Hcmp. split; [discriminate|].
      intros Hall. exfalso. apply (Hall n' f); [left; reflexivity|exact Hcmp].
    + rewrite IH. split.
      * intros Hall n h [E|Hin]; [|exact (Hall n h Hin)].
        inversion E; subst. intros Hname.
        apply my_stricmp_zero in Hname. congruence.
      * intros Hall n h Hin. apply (Hall n h). right. exact Hin.
Qed.

Lemma effect_names_distinct :
  List.NoDup (map (fun entry => upper (fst entry)) (effect_handlers X)).
Proof.
  unfold effect_handlers. cbn [map fst].
  repeat (apply List.NoDup_cons;
          [cbn; intros Hin; in_cases Hin|]).
  apply List.NoDup_nil.
Qed.

(** X1.  The registry finds every handler of its table under its name,
    whatever the case of the letters of the name asked for. *)
Theorem registry_finds_handler (effect_name n : string) (h : M unit) :
  In (n, h) (effect_handlers X) ->
  upper effect_name = upper n ->
  melee_handler_for_blow_effect X effect_name = Some h.
Proof.
  intros Hin Hname. unfold melee_handler_for_blow_effect.
  exact (lookup_handler_found _ _ _ _ effect_names_distinct Hin Hname).
Qed.

(** X2.  The registry answers NULL exactly for the names that match no
    name of its table when the case of the letters is ignored. *)
Theorem registry_unknown_name (effect_name : string) :
  melee_handler_for_blow_effect X effect_name = None <->
  forall n h, In (n, h) (effect_handlers X) -> upper effect_name <> upper n.
Proof. unfold melee_handler_for_blow_effect. apply lookup_handler_missing. Qed.

(** ** The action of a blow method *)

Lemma table_pick (table : list string) (r : Z) :
  0 <= r < Z.of_nat (length table) ->
  exists action, table !! Z.to_nat r = Some action /\ In action table.
Proof.
  intros Hr.
  destruct (table !! Z.to_nat r) as [action|] eqn:E.
  - exists action. split; [reflexivity|].
    apply list_elem_of_In. exact (list_elem_of_lookup_2 _ _ _ E).
  - apply lookup_ge_None in E. lia.
Qed.

(** X3.  A blow method with a message of its own gets that message and
    draws nothing; otherwise INSULT gets an entry of the table of insults
    and MOAN an entry of the table of moans, the index drawn never leaving
    the table. *)
Theorem method_action_in_table (method : blow_method) (s : mstate) :
  let action := fst (monster_blow_method_action method s) in
  let s' := run (monster_blow_method_action method) s in
  (forall m, act_msg method = Some m -> action = Some m /\ s' = s) /\
  (act_msg method = None -> name method = "INSULT" ->
     exists a, action = Some a /\ In a desc_insult) /\
  (act_msg method = None -> name method = "MOAN" ->
     exists a, action = Some a /\ In a desc_moan).
Proof.
  cbn zeta. unfold monster_blow_method_action, run.
  split; [|split].
  - intros m Hm. rewrite Hm. cbn. auto.
  - intros Hnone Hname. rewrite Hnone, Hname. cbn.
    unfold monster_blow_random_insult. rewrite bind_eq. cbn.
    destruct (table_pick desc_insult
                (fst (Rand_div MAX_DESC_INSULT (rng (game s)))))
      as (a & Ha & Hin).
    { apply (Rand_div_range 8). lia. }
    exists a. split; [exact Ha|exact Hin].
  - intros Hnone Hname. rewrite Hnone, Hname. cbn.
    unfold monster_blow_random_moan. rewrite bind_eq. cbn.
    destruct (table_pick desc_moan
                (fst (Rand_div MAX_DESC_MOAN (rng (game s)))))
      as (a & Ha & Hin).
    { apply (Rand_div_range 8). lia. }
    exists a. split; [exact Ha|exact Hin].
Qed.

(** X4.  The action is NULL exactly when the method has no message of its
    own and is named neither INSULT nor MOAN; the context, the player, the
    monster and the log are never touched. *)
Theorem method_action_null (method : blow_method) (s : mstate) :
  let action := fst (monster_blow_method_action method s) in
  let s' := run (monster_blow_method_action method) s in
  (action = None <->
     act_msg method = None /\ name method <> "INSULT" /\
     name method <> "MOAN") /\
  ctx s' = ctx s /\ p (game s') = p (game s) /\
  mon (game s') = mon (game s) /\ calls s' = calls s.
Proof.
  cbn zeta.
  destruct (method_action_in_table method s) as (Hown & Hinsult & Hmoan).
  cbn zeta in *. split.
  - destruct (act_msg method) as [m|] eqn:Hmsg.
    + destruct (Hown m eq_refl) as [Ha _]. rewrite Ha.
      split; [discriminate|intros (E & _); discriminate E].
    + destruct (String.eqb_spec (name method) "INSULT") as [Hi|Hi].
      { destruct (Hinsult eq_refl Hi) as (a & Ha & _). rewrite Ha.
        split; [discriminate|intros (_ & Hne & _); contradiction]. }
      destruct (String.eqb_spec (name method) "MOAN") as [Hm|Hm].
      { destruct (Hmoan eq_refl Hm) as (a & Ha & _). rewrite Ha.
        split; [discriminate|intros (_ & _ & Hne); contradiction]. }
      unfold monster_blow_method_action, streq. rewrite Hmsg.
      rewrite (proj2 (String.eqb_neq _ _) Hi), (proj2 (String.eqb_neq _ _) Hm).
      cbn. tauto.
  - unfold monster_blow_method_action, streq, run,
      monster_blow_random_insult, monster_blow_random_moan.
    destruct (act_msg method); cbn; [auto|].
    destruct (String.eqb _ "INSULT"); [rewrite bind_eq; cbn; auto|].
    destruct (String.eqb _ "MOAN"); [rewrite bind_eq; cbn; auto|].
    cbn. auto.
Qed.

(** ** A fatal blow *)

(** X5.  When the damage kills the defender, a handler that applies the
    damage first does nothing more: the state it leaves is the one
    [take_hit] left.  So do the timed and the stat families. *)
Theorem fatal_blow_stops (h : M unit) (s : mstate) :
  In h (damage_first_handlers X) \/
  (exists type amount flag attempt_save save_msg,
     h = melee_effect_timed X type amount flag attempt_save save_msg) \/
  (exists stat, h = melee_effect_stat X stat) ->
  is_dead (p (game (after_hit X s))) = true ->
  run h s = after_hit X s.
Proof.
  intros Hh Hdead. unfold after_hit, run in *. cbn in Hdead.
  destruct Hh as [Hin|[(type & amount & flag & sv & msg & Hh)|(stat & Hh)]].
  - unfold damage_first_handlers in Hin. cbn in Hin.
    in_cases Hin; subst h;
      unfold melee_effect_handler_DISENCHANT,
        melee_effect_handler_DRAIN_CHARGES, melee_effect_handler_EAT_GOLD,
        melee_effect_handler_EAT_ITEM, melee_effect_handler_EAT_FOOD,
        melee_effect_handler_EAT_LIGHT, melee_effect_handler_LOSE_STR,
        melee_effect_handler_LOSE_INT, melee_effect_handler_LOSE_WIS,
        melee_effect_handler_LOSE_DEX, melee_effect_handler_LOSE_CON,
        melee_effect_handler_LOSE_ALL, melee_effect_handler_HALLU,
        melee_effect_stat;
      cbn; repeat exec_bind; rewrite Hdead; reflexivity.
  - subst h. unfold melee_effect_timed. cbn. repeat exec_bind.
    rewrite Hdead. reflexivity.
  - subst h. unfold melee_effect_stat. cbn. repeat exec_bind.
    rewrite Hdead. reflexivity.
Qed.

(** ** The calls of an elemental blow *)

(** X6.  An elemental blow asks [adjust_dam] once, damages the pack only
    when the elemental damage is positive, by five times that damage and
    never by more than 300, applies the final damage only when it is
    positive, and lets the monster learn only when the element is pure. *)
Theorem elemental_calls (type : gf_type) (pure_element : bool) (s : mstate) :
  let elemental :=
    fst (x_adjust_dam X type (damage (ctx s)) RANDOMISE 0 (game s)) in
  let cperc := MIN (int32 (elemental * 5)) 300 in
  let s' := run (melee_effect_elemental X type pure_element) s in
  made (melee_effect_elemental X type pure_element) s =
    elemental_msgs type ++
    [c_adjust_dam type (damage (ctx s)) RANDOMISE 0] ++
    (if elemental >? 0 then [c_inven_damage type cperc] else []) ++
    (if damage (ctx s') >? 0
     then [c_take_hit (damage (ctx s')) (ddesc (ctx s))] else []) ++
    (if pure_element
     then [c_update_smart_learn None 0 (learn_gf type)] else []) /\
  cperc <= 300 /\
  (0 <= elemental < 2 ^ 28 -> cperc = Z.min (5 * elemental) 300).
Proof.
  cbn zeta. split; [|split].
  - apply made_app. unfold melee_effect_elemental.
    destruct type, pure_element; exec;
      rewrite <- ?app_assoc; cbn;
      repeat match goal with
             | H : ?t = _ |- context [?t] => rewrite H
             end; reflexivity.
  - rewrite MIN_min. lia.
  - intros He. rewrite MIN_min, int32_id by (unfold in_int32; lia). lia.
Qed.

(** ** The gold a thief carries away *)

Lemma carried_app (l1 l2 : list call) :
  carried (l1 ++ l2) = carried l1 ++ carried l2.
Proof.
  induction l1 as [|c l1 IH]; [reflexivity|].
  destruct c; cbn; rewrite IH; reflexivity.
Qed.

Lemma total_pval_app (l1 l2 : list object) :
  total_pval (l1 ++ l2) = total_pval l1 + total_pval l2.
Proof. induction l1 as [|o l1 IH]; cbn; [reflexivity|rewrite IH; lia]. Qed.

Lemma carry_gold_carried (fuel : nat) (gold : Z) (s : mstate) :
  0 <= gold <= Z.of_nat fuel ->
  exists l,
    calls (run (carry_gold X fuel gold) s) = calls s ++ l /\
    ctx (run (carry_gold X fuel gold) s) = ctx s /\
    total_pval (carried l) = gold /\
    Forall (stolen_coins X) (carried l) /\
    Z.of_nat (length (carried l)) =
      (gold + Z.pos (MAX_PVAL X) - 1) / Z.pos (MAX_PVAL X).
Proof.
  revert gold s. induction fuel as [|fuel IH]; intros gold s Hgold.
  - assert (gold = 0) by lia. subst gold. exists [].
    unfold carry_gold, run, ret. cbn.
    rewrite app_nil_r. repeat split; [constructor|].
    symmetry. apply Z.div_small. lia.
  - rewrite carry_gold_S. destruct (Z.gtb_spec gold 0) as [Hpos|Hzero].
    + unfold run. repeat exec_bind.
      set (amt := if gold >? Z.pos (MAX_PVAL X) then Z.pos (MAX_PVAL X)
                  else gold).
      assert (Hamt : 1 <= amt <= Z.pos (MAX_PVAL X) /\ amt <= gold /\
                     (gold <= Z.pos (MAX_PVAL X) -> amt = gold) /\
                     (Z.pos (MAX_PVAL X) < gold -> amt = Z.pos (MAX_PVAL X))).
      { unfold amt. destruct (Z.gtb_spec gold (Z.pos (MAX_PVAL X))); lia. }
      clearbody amt. destruct Hamt as (Hamt1 & Hamt2 & Hamt3 & Hamt4).
      assert (Hfuel : 0 <= gold - amt <= Z.of_nat fuel) by lia.
      match goal with
      | |- context [carry_gold X fuel (gold - amt) ?st] =>
          destruct (IH (gold - amt) st Hfuel)
            as (l & Hcalls & Hctx & Hsum & Hall & Hlen)
      end.
      unfold run in Hcalls, Hctx. rewrite Hcalls, Hctx. cbn.
      rewrite <- !app_assoc. eexists. split; [reflexivity|].
      split; [reflexivity|]. cbn.
      split; [lia|]. split.
      * constructor; [|exact Hall]. unfold stolen_coins. cbn.
        split; [lia|reflexivity].
      * rewrite Nat2Z.inj_succ, Hlen.
        destruct (Z_le_gt_dec gold (Z.pos (MAX_PVAL X))) as [Hle|Hgt].
        -- replace amt with gold by lia.
           rewrite Z.sub_diag. rewrite Z.div_small by lia.
           change (Z.succ 0) with 1.
           apply (Z.div_unique _ _ 1 (gold - 1)); lia.
        -- replace amt with (Z.pos (MAX_PVAL X)) by lia.
           replace (gold + Z.pos (MAX_PVAL X) - 1)
             with (gold - Z.pos (MAX_PVAL X) + Z.pos (MAX_PVAL X) - 1
                   + 1 * Z.pos (MAX_PVAL X)) by lia.
           rewrite Z.div_add by lia. lia.
    + assert (gold = 0) by lia. subst gold. exists [].
      unfold run, ret. cbn.
      rewrite app_nil_r. repeat split; [constructor|].
      symmetry. apply Z.div_small. lia.
Qed.

(** X7.  When a positive amount of gold is stolen, the gold objects handed
    to the monster hold that amount in total, each between 1 coin and
    [MAX_PVAL] coins and marked as stolen; there are ceil(gold / MAX_PVAL)
    of them, and the thief is set to blink away. *)
Theorem stolen_gold_is_carried (gold : Z) (s : mstate) :
  0 < gold ->
  let l := made (eat_gold_steal X gold) s in
  total_pval (carried l) = gold /\
  Forall (stolen_coins X) (carried l) /\
  Z.of_nat (length (carried l)) =
    (gold + Z.pos (MAX_PVAL X) - 1) / Z.pos (MAX_PVAL X) /\
  blinked (ctx (run (eat_gold_steal X gold) s)) = true.
Proof.
  intros Hgold. cbn zeta.
  assert (Hrun : exists l,
    calls (run (eat_gold_steal X gold) s) = calls s ++ l /\
    blinked (ctx (run (eat_gold_steal X gold) s)) = true /\
    total_pval (carried l) = gold /\
    Forall (stolen_coins X) (carried l) /\
    Z.of_nat (length (carried l)) =
      (gold + Z.pos (MAX_PVAL X) - 1) / Z.pos (MAX_PVAL X)).
  { unfold eat_gold_steal, run. repeat exec_bind.
    destruct (Z.leb_spec gold 0) as [Hle|_]; [lia|].
    repeat exec_bind.
    match goal with
    | |- context [carry_gold X (Z.to_nat gold) gold ?st] =>
        destruct (carry_gold_carried (Z.to_nat gold) gold st ltac:(lia))
          as (l & Hcalls & Hctx & Hsum & Hall & Hlen)
    end.
    unfold run in Hcalls, Hctx. rewrite Hcalls. cbn.
    destruct (truth _); cbn in *; rewrite <- !app_assoc;
      (eexists; split; [reflexivity|]);
      rewrite !carried_app; cbn; auto. }
  destruct Hrun as (l & Hcalls & Hblink & Hsum & Hall & Hlen).
  rewrite (made_app _ _ _ Hcalls). auto.
Qed.

(** ** A thief who is caught *)

(** X8.  When the defender survives and makes the saving throw against
    EAT_GOLD, no gold moves: only the message is printed, the player and
    the monster are as the damage left them, and the thief blinks away
    exactly when a draw in [0,3) is not zero. *)
Theorem gold_theft_saved (s : mstate) :
  let s1 := run (set_obvious true) (after_hit X s) in
  let s2 := snd (dex_lev_save X s1) in
  let r := fst (Rand_div 3 (rng (game s2))) in
  let s' := run (melee_effect_handler_EAT_GOLD X) s in
  is_dead (p (game s1)) = false ->
  fst (dex_lev_save X s1) = true ->
  made (melee_effect_handler_EAT_GOLD X) s =
    [c_take_hit (damage (ctx s)) (ddesc (ctx s));
     c_msg "You quickly protect your money pouch!" []] /\
  p (game s') = p (game s1) /\
  mon (game s') = mon (game s1) /\
  0 <= r < 3 /\
  blinked (ctx s') = blinked (ctx s) || truth r /\
  obvious (ctx s') = true.
Proof.
  intros s1 s2 r s' Halive Hsaved.
  assert (Hr : 0 <= r < 3) by (apply Rand_div_range; lia).
  assert (Hrun :
    calls s' = calls s ++ [c_take_hit (damage (ctx s)) (ddesc (ctx s));
                           c_msg "You quickly protect your money pouch!" []] /\
    p (game s') = p (game s1) /\ mon (game s') = mon (game s1) /\
    blinked (ctx s') = blinked (ctx s) || truth r /\
    obvious (ctx s') = true).
  { subst s' r s2 s1.
    unfold melee_effect_handler_EAT_GOLD, after_hit in *.
    unfold run in *. cbn in *. repeat exec_bind. rewrite Halive. cbn.
    repeat exec_bind. rewrite Hsaved. cbn. repeat exec_bind.
    revert Hsaved. unfold dex_lev_save. repeat exec_bind.
    destruct (truth (timed _ _)); cbn; [discriminate|].
    repeat exec_bind. intros _. unfold when.
    destruct (truth _); cbn;
      rewrite <- ?app_assoc, ?orb_true_r, ?orb_false_r; auto. }
  destruct Hrun as (Hcalls & Hp & Hmon & Hblink & Hobv).
  apply made_app in Hcalls. auto 10.
Qed.

(** ** What a scan of the pack leaves *)

Lemma eat_item_scan_outcome (n : nat) (s : mstate) :
  let s' := run (eat_item_scan X n) s in
  (calls s' = calls s /\ ctx s' = ctx s /\ p (game s') = p (game s) /\
   mon (game s') = mon (game s)) \/
  (exists index obj w,
     inven_at index (p (game s)) = Some obj /\
     artifact obj = false /\
     p w = p (game s) /\ mon w = mon (game s) /\
     let taken_obj := x_gear_object_for_use X index obj 1 false w in
     calls s' = calls s ++ [stolen_msg X index obj;
                            c_gear_object_for_use index obj 1 false;
                            c_monster_carry (fst taken_obj)] /\
     game s' = x_monster_carry X (fst taken_obj) (snd taken_obj) /\
     obvious (ctx s') = true /\ blinked (ctx s') = true).
Proof.
  revert s. induction n as [|n IH]; intros s; cbn zeta.
  - left. cbn. auto.
  - rewrite eat_item_scan_S. unfold run. repeat exec_bind.
    destruct (inven_at _ _) as [obj|] eqn:Hslot;
      [destruct (artifact obj) eqn:Hart|];
      try use_scan IH (eat_item_scan X n).
    repeat exec_bind. right.
    exists (fst (Rand_div (pack_size X) (rng (game s)))), obj,
           (with_rng (snd (Rand_div (pack_size X) (rng (game s)))) (game s)).
    cbn. rewrite <- !app_assoc. auto 10.
Qed.

(** X9.  When the defender survives EAT_ITEM and misses the saving throw,
    either nothing is taken and the flags stay as they were, or exactly one
    unit of one object of the pack, not an artifact, is asked of
    [gear_object_for_use], what it returns is given to the monster, and
    the blow is marked obvious and the thief set to blink away. *)
Theorem item_theft_outcome (s : mstate) :
  let s1 := after_hit X s in
  let s' := run (melee_effect_handler_EAT_ITEM X) s in
  is_dead (p (game s1)) = false ->
  fst (dex_lev_save X s1) = false ->
  (made (melee_effect_handler_EAT_ITEM X) s =
     [c_take_hit (damage (ctx s)) (ddesc (ctx s))] /\
   ctx s' = ctx s /\ p (game s') = p (game s1) /\
   mon (game s') = mon (game s1)) \/
  (exists index obj w,
     inven_at index (p (game s1)) = Some obj /\
     artifact obj = false /\
     p w = p (game s1) /\ mon w = mon (game s1) /\
     let taken_obj := x_gear_object_for_use X index obj 1 false w in
     made (melee_effect_handler_EAT_ITEM X) s =
       [c_take_hit (damage (ctx s)) (ddesc (ctx s));
        stolen_msg X index obj;
        c_gear_object_for_use index obj 1 false;
        c_monster_carry (fst taken_obj)] /\
     game s' = x_monster_carry X (fst taken_obj) (snd taken_obj) /\
     obvious (ctx s') = true /\ blinked (ctx s') = true).
Proof.
  intros s1 s' Halive Hfail.
  assert (Hs' : s' = run (eat_item_scan X 10) (snd (dex_lev_save X s1))).
  { subst s' s1. unfold melee_effect_handler_EAT_ITEM, after_hit in *.
    unfold run in *. cbn in *. repeat exec_bind. rewrite Halive. cbn.
    repeat exec_bind. rewrite Hfail. reflexivity. }
  assert (Hsave : ctx (snd (dex_lev_save X s1)) = ctx s /\
                  calls (snd (dex_lev_save X s1)) =
                    calls s ++ [c_take_hit (damage (ctx s)) (ddesc (ctx s))] /\
                  p (game (snd (dex_lev_save X s1))) = p (game s1) /\
                  mon (game (snd (dex_lev_save X s1))) = mon (game s1)).
  { subst s1. unfold dex_lev_save, after_hit, run. cbn. repeat exec_bind.
    destruct (truth _); cbn; repeat exec_bind; auto. }
  destruct Hsave as (Hctx & Hcalls & Hp & Hmon).
  destruct (eat_item_scan_outcome 10 (snd (dex_lev_save X s1)))
    as [(Hc & Hx & Hpp & Hm)|(index & obj & w & Hslot & Hart & Hwp & Hwm & Hrest)];
    cbn zeta in *; rewrite <- Hs' in *.
  - left. rewrite Hx, Hpp, Hm. repeat split; auto.
    apply made_app. fold s'. rewrite Hc. exact Hcalls.
  - right. exists index, obj, w.
    destruct Hrest as (Hc & Hg & Ho & Hb).
    rewrite Hp in Hslot, Hwp. rewrite Hmon in Hwm.
    repeat split; auto.
    apply made_app. fold s'. rewrite Hc, Hcalls, <- app_assoc. reflexivity.
Qed.

(** X10.  Against a pack that holds nothing but artifacts and empty slots,
    EAT_ITEM takes nothing: after its ten tries only the damage has been
    dealt and the context is as it was. *)
Theorem item_theft_nothing_to_steal (s : mstate) :
  let s1 := after_hit X s in
  let s' := run (melee_effect_handler_EAT_ITEM X) s in
  is_dead (p (game s1)) = false ->
  fst (dex_lev_save X s1) = false ->
  Forall nothing_to_steal (inven (upkeep (p (game s1)))) ->
  made (melee_effect_handler_EAT_ITEM X) s =
    [c_take_hit (damage (ctx s)) (ddesc (ctx s))] /\
  ctx s' = ctx s /\ p (game s') = p (game s1).
Proof.
  intros s1 s' Halive Hfail Hpack.
  destruct (item_theft_outcome s Halive Hfail)
    as [(Hmade & Hctx & Hp & _)|(index & obj & w & Hslot & Hart & _)].
  - auto.
  - exfalso. fold s1 in Hslot. unfold inven_at in Hslot.
    destruct (inven (upkeep (p (game s1))) !! Z.to_nat index)
      as [slot|] eqn:E; [|discriminate].
    subst slot. pose proof (Forall_lookup_1 _ _ _ _ Hpack E) as Hno.
    cbn in Hno. congruence.
Qed.

(** ** A meal from the pack *)

(** The scan eats from the first slot it draws that holds something
    edible, and nothing when none of its draws does. *)
Lemma eat_food_scan_outcome (n : nat) (s : mstate) :
  let s' := run (eat_food_scan X n) s in
  match find (edible_slot X (p (game s))) (slots_drawn X n (rng (game s))) with
  | None =>
      calls s' = calls s /\ ctx s' = ctx s /\ p (game s') = p (game s) /\
      mon (game s') = mon (game s)
  | Some index =>
      exists obj tape,
        inven_at index (p (game s)) = Some obj /\
        x_tval_is_edible X obj = true /\
        let taken_obj :=
          x_gear_object_for_use X index obj 1 false (with_rng tape (game s)) in
        calls s' = calls s ++
          [eaten_msg X index obj; c_gear_object_for_use index obj 1 false] ++
          eaten_calls (fst taken_obj) /\
        game s' = eaten_game X (fst taken_obj) (snd taken_obj) /\
        ctx s' = with_obvious true (ctx s)
  end.
Proof.
  revert s. induction n as [|n IH]; intros s; cbn zeta.
  - change (slots_drawn X 0 (rng (game s))) with (@nil Z). cbn. auto.
  - rewrite slots_drawn_S. cbn [find].
    set (index := fst (Rand_div (pack_size X) (rng (game s)))).
    destruct (edible_slot X (p (game s)) index) eqn:Hhere;
      unfold edible_slot in Hhere;
      rewrite eat_food_scan_S; unfold run; repeat exec_bind; fold index;
      destruct (inven_at index (p (game s))) as [obj|] eqn:Hslot;
      try discriminate Hhere;
      try rewrite Hhere; cbn [negb];
      try use_scan IH (eat_food_scan X n).
    exists obj, (snd (Rand_div (pack_size X) (rng (game s)))).
    split; [reflexivity|]. split; [exact Hhere|].
    unfold eaten_msg, eaten_calls, eaten_game.
    destruct (number obj =? 1); repeat exec_bind;
      match goal with
      | |- context [known ?e] =>
          destruct (known e) as [copy|] eqn:Hknown; cbn; repeat exec_bind
      end;
      cbn; rewrite <- ?app_assoc; cbn; auto.
Qed.

(** X11.  EAT_FOOD never sets the thief to blink away and never hands
    anything to the monster.  When the defender survives, the meal is taken
    from the first slot among the ten drawn that holds something edible:
    one unit of it is asked of [gear_object_for_use], and the unit that call
    returns is destroyed, its known copy first; the blow is then obvious.
    When none of the ten slots holds something edible -- as whenever the
    pack holds nothing edible -- nothing is eaten and the context stays as
    it was. *)
Theorem food_theft_outcome (s : mstate) :
  let s1 := after_hit X s in
  let s' := run (melee_effect_handler_EAT_FOOD X) s in
  let l := made (melee_effect_handler_EAT_FOOD X) s in
  let hit := c_take_hit (damage (ctx s)) (ddesc (ctx s)) in
  blinked (ctx s') = blinked (ctx s) /\
  carried l = [] /\
  (is_dead (p (game s1)) = false ->
   match find (edible_slot X (p (game s1)))
              (slots_drawn X 10 (rng (game s1))) with
   | None =>
       l = [hit] /\ ctx s' = ctx s /\ p (game s') = p (game s1) /\
       mon (game s') = mon (game s1)
   | Some index =>
       exists obj tape,
         inven_at index (p (game s1)) = Some obj /\
         x_tval_is_edible X obj = true /\
         let taken_obj :=
           x_gear_object_for_use X index obj 1 false
             (with_rng tape (game s1)) in
         l = [hit; eaten_msg X index obj;
              c_gear_object_for_use index obj 1 false] ++
             eaten_calls (fst taken_obj) /\
         game s' = eaten_game X (fst taken_obj) (snd taken_obj) /\
         ctx s' = with_obvious true (ctx s)
   end) /\
  (is_dead (p (game s1)) = false ->
   Forall (nothing_to_eat X) (inven (upkeep (p (game s1)))) ->
   l = [hit] /\ ctx s' = ctx s /\ p (game s') = p (game s1)).
Proof.
  intros s1 s' l hit.
  assert (Hcases :
    (is_dead (p (game s1)) = true /\ s' = s1) \/
    (is_dead (p (game s1)) = false /\ s' = run (eat_food_scan X 10) s1)).
  { subst s' s1. unfold melee_effect_handler_EAT_FOOD, after_hit.
    unfold run. cbn. repeat exec_bind.
    destruct (is_dead _); [left|right]; auto. }
  assert (Hs1 : ctx s1 = ctx s /\ calls s1 = calls s ++ [hit])
    by (subst s1; unfold after_hit, run; cbn; auto).
  destruct Hs1 as [Hctx1 Hcalls1].
  pose proof (eat_food_scan_outcome 10 s1) as Hscan. cbn zeta in Hscan.
  assert (Halive :
    is_dead (p (game s1)) = false ->
    match find (edible_slot X (p (game s1)))
               (slots_drawn X 10 (rng (game s1))) with
    | None =>
        l = [hit] /\ ctx s' = ctx s /\ p (game s') = p (game s1) /\
        mon (game s') = mon (game s1)
    | Some index =>
        exists obj tape,
          inven_at index (p (game s1)) = Some obj /\
          x_tval_is_edible X obj = true /\
          let taken_obj :=
            x_gear_object_for_use X index obj 1 false
              (with_rng tape (game s1)) in
          l = [hit; eaten_msg X index obj;
               c_gear_object_for_use index obj 1 false] ++
              eaten_calls (fst taken_obj) /\
          game s' = eaten_game X (fst taken_obj) (snd taken_obj) /\
          ctx s' = with_obvious true (ctx s)
    end).
  { intros Hlive. destruct Hcases as [[Hdead _]|[_ Hs']]; [congruence|].
    rewrite <- Hs' in Hscan.
    destruct (find _ _) as [index|].
    - destruct Hscan as (obj & tape & Hslot & Hfood & Hc & Hg & Hx).
      exists obj, tape. split; [exact Hslot|]. split; [exact Hfood|].
      cbn zeta. split; [|split; [exact Hg|congruence]].
      apply made_app. fold s'. rewrite Hc, Hcalls1, <- app_assoc.
      reflexivity.
    - destruct Hscan as (Hc & Hx & Hp & Hm).
      split; [|split; [congruence|split; [exact Hp|exact Hm]]].
      apply made_app. fold s'. rewrite Hc. exact Hcalls1. }
  split; [|split; [|split]].
  - destruct Hcases as [[_ Hs']|[Hlive _]].
    + rewrite Hs', Hctx1. reflexivity.
    + specialize (Halive Hlive). destruct (find _ _) as [index|].
      * destruct Halive as (? & ? & _ & _ & _ & _ & Hx).
        rewrite Hx. reflexivity.
      * destruct Halive as (_ & Hx & _). rewrite Hx. reflexivity.
  - destruct Hcases as [[_ Hs']|[Hlive _]].
    + assert (Hl : l = [hit])
        by (apply made_app; fold s'; rewrite Hs'; exact Hcalls1).
      rewrite Hl. reflexivity.
    + specialize (Halive Hlive). destruct (find _ _) as [index|].
      * destruct Halive as (obj & tape & _ & _ & Hl & _).
        cbn zeta in Hl. rewrite Hl.
        unfold eaten_msg, eaten_calls.
        destruct (number obj =? 1), (known _); reflexivity.
      * destruct Halive as (Hl & _). rewrite Hl. reflexivity.
  - exact Halive.
  - intros Hlive Hpack. specialize (Halive Hlive).
    destruct (find _ _) as [index|].
    + exfalso. destruct Halive as (obj & tape & Hslot & Hfood & _).
      unfold inven_at in Hslot.
      destruct (inven (upkeep (p (game s1))) !! Z.to_nat index)
        as [slot|] eqn:E; [|discriminate].
      subst slot. pose proof (Forall_lookup_1 _ _ _ _ Hpack E) as Hno.
      cbn in Hno. congruence.
    + destruct Halive as (Hl & Hx & Hp & _). auto.
Qed.

(** ** A pack without charges *)

Lemma drain_charges_scan_nothing (n : nat) (s : mstate) :
  Forall (nothing_to_drain X) (inven (upkeep (p (game s)))) ->
  undrained s (run (drain_charges_scan X n 0) s).
Proof.
  revert s. induction n as [|n IH]; intros s Hpack.
  - unfold undrained. cbn. auto.
  - rewrite drain_charges_scan_S. unfold run. repeat exec_bind.
    destruct (inven_at _ _) as [obj|] eqn:Hslot.
    + assert (Hno : x_tval_can_have_charges X obj && truth (pval obj) = false).
      { unfold inven_at in Hslot.
        destruct (inven (upkeep (p (game s))) !! _) as [slot|] eqn:E;
          [|discriminate].
        subst slot. exact (Forall_lookup_1 _ _ _ _ Hpack E). }
      rewrite Hno. cbn. repeat exec_bind. change (truth 0) with false. cbn.
      use_scan_sized IH Hpack (drain_charges_scan X n 0).
    + use_scan_sized IH Hpack (drain_charges_scan X n 0).
Qed.

(** X12.  Against a pack without a charged wand or staff, DRAIN_CHARGES
    drains and heals nothing, whatever the monster level and the sizes of
    the numbers: after its ten tries the context, the player and the
    monster are as the damage left them and no message is printed. *)
Theorem drain_charges_nothing_to_drain (s : mstate) :
  let s1 := after_hit X s in
  let s' := run (melee_effect_handler_DRAIN_CHARGES X) s in
  is_dead (p (game s1)) = false ->
  Forall (nothing_to_drain X) (inven (upkeep (p (game s1)))) ->
  undrained s1 s'.
Proof.
  intros s1 s' Halive Hpack.
  assert (Hs' : s' = run (drain_charges_scan X 10 0) s1).
  { subst s' s1. unfold melee_effect_handler_DRAIN_CHARGES, after_hit in *.
    unfold run in *. cbn in *. repeat exec_bind. rewrite Halive. reflexivity. }
  rewrite Hs'. apply drain_charges_scan_nothing. exact Hpack.
Qed.

(** ** The length of the timers *)

Lemma timer_length_range (base m : Z) (tape : list Z) :
  0 <= base <= 10 -> m < 2 ^ 30 ->
  base + 1 <= int32 (base + int32 (fst (Rand_div m tape) + 1))
           <= base + Z.max 1 m.
Proof.
  intros Hbase Hm.
  assert (Hr : 0 <= fst (Rand_div m tape) < Z.max 1 m).
  { destruct (Z_le_gt_dec m 1) as [Hsmall|Hbig].
    - unfold Rand_div. destruct (Z.leb_spec m 1); [cbn; lia|lia].
    - pose proof (Rand_div_range m tape ltac:(lia)). lia. }
  rewrite (int32_id (_ + 1)) by (unfold in_int32; lia).
  rewrite int32_id by (unfold in_int32; lia). lia.
Qed.

(** X13.  The timers of BLIND, CONFUSE, TERRIFY, PARALYZE, POISON and HALLU
    are only ever increased by the fixed part of the handler plus a draw
    between 1 and the monster level (half of it for HALLU), a level below 1
    counting as 1; no other timer is touched. *)
Theorem timer_lengths (h : M unit) (t : tmd) (base : Z) (half : bool)
    (s : mstate) :
  In (h, t, base, half) (timer_tiers X) ->
  0 <= rlev (ctx s) < 2 ^ 30 ->
  forall t' amount notify check,
    In (c_player_inc_timed t' amount notify check) (made h s) ->
    t' = t /\ notify = true /\ check = true /\
    base + 1 <= amount
             <= base + Z.max 1 (if half then rlev (ctx s) / 2
                                else rlev (ctx s)).
Proof.
  intros Htier Hrl.
  assert (Hhalf : int32 (rlev (ctx s) ÷ 2) = rlev (ctx s) / 2).
  { rewrite Z.quot_div_nonneg by lia. apply int32_id. unfold in_int32.
    assert (0 <= rlev (ctx s) / 2 <= rlev (ctx s))
      by (split; [apply Z.div_pos; lia|apply Z.div_le_upper_bound; lia]).
    lia. }
  assert (Hhalf' : rlev (ctx s) / 2 < 2 ^ 30).
  { assert (rlev (ctx s) / 2 <= rlev (ctx s))
      by (apply Z.div_le_upper_bound; lia). lia. }
  assert (Hrun : exists l,
    calls (run h s) = calls s ++ l /\
    forall t' amount notify check,
      In (c_player_inc_timed t' amount notify check) l ->
      t' = t /\ notify = true /\ check = true /\
      base + 1 <= amount
               <= base + Z.max 1 (if half then rlev (ctx s) / 2
                                  else rlev (ctx s))).
  { unfold timer_tiers in Htier. cbn in Htier.
    destruct Htier as [E|[E|[E|[E|[E|[E|[]]]]]]]; inversion E; subst;
      clear E;
      unfold melee_effect_handler_BLIND, melee_effect_handler_CONFUSE,
        melee_effect_handler_TERRIFY, melee_effect_handler_PARALYZE,
        melee_effect_handler_POISON, melee_effect_handler_HALLU,
        melee_effect_timed, melee_effect_elemental;
      exec;
      rewrite <- ?app_assoc; cbn;
      (eexists; split; [reflexivity|]);
      intros t' amount notify check Hin; cbn in Hin; in_cases Hin;
      inversion Hin; subst;
      (split; [reflexivity|]); (split; [reflexivity|]);
      (split; [reflexivity|]);
      rewrite ?Hhalf; apply timer_length_range; lia. }
  destruct Hrun as (l & Hcalls & Hl).
  rewrite (made_app _ _ _ Hcalls). exact Hl.
Qed.

(** ** A drain that is held off *)

Lemma experience_family_negated (chance base : Z) (s : mstate) :
  let s1 := run (update_smart_learn X (Some OF_HOLD_LIFE) 0 learn_nothing)
                (after_hit X s) in
  let s' := run (melee_effect_experience X chance base) s in
  obvious (ctx s') = true /\
  (is_dead (p (game s1)) = false ->
   x_player_of_has X (p (game s1)) OF_HOLD_LIFE = true ->
   fst (Rand_div 100 (rng (game s1))) < chance ->
   calls s' = calls s1 ++ [c_msg "You keep hold of your life force!" []] /\
   p (game s') = p (game s1) /\ mon (game s') = mon (game s1)).
Proof.
  cbn zeta. split.
  - unfold melee_effect_experience. exec; reflexivity.
  - intros Halive Hhold Hdraw. apply Z.ltb_lt in Hdraw.
    unfold melee_effect_experience, after_hit in *. unfold run in *.
    cbn in *. repeat exec_bind. rewrite Halive. cbn. repeat exec_bind.
    rewrite Hhold. cbn. repeat exec_bind. rewrite Hdraw. cbn.
    repeat exec_bind. auto.
Qed.

(** X14.  EXP_10, EXP_20, EXP_40 and EXP_80 mark the blow obvious in every
    case; when the defender survives, holds the life force and draws below
    the chance of the handler, no experience is lost: only the message is
    printed, and player and monster stay as they were. *)
Theorem experience_drain_negated (h : M unit) (chance : Z) (dice : nat)
    (s : mstate) :
  In (h, chance, dice) (exp_tiers X) ->
  let s1 := run (update_smart_learn X (Some OF_HOLD_LIFE) 0 learn_nothing)
                (after_hit X (run (damroll dice 6) s)) in
  obvious (ctx (run h s)) = true /\
  (is_dead (p (game s1)) = false ->
   x_player_of_has X (p (game s1)) OF_HOLD_LIFE = true ->
   fst (Rand_div 100 (rng (game s1))) < chance ->
   made h s =
     [c_take_hit (damage (ctx s)) (ddesc (ctx s));
      c_update_smart_learn (Some OF_HOLD_LIFE) 0 learn_nothing;
      c_msg "You keep hold of your life force!" []] /\
   p (game (run h s)) = p (game s1) /\
   mon (game (run h s)) = mon (game s1)).
Proof.
  intros Hin.
  assert (Hh : h = bind (damroll dice 6)
                     (fun d => melee_effect_experience X chance d)).
  { unfold exp_tiers in Hin. simpl in Hin.
    destruct Hin as [E|[E|[E|[E|[]]]]]; inversion E; subst; reflexivity. }
  clear Hin. intros s1.
  assert (Hrun : run h s =
                 run (melee_effect_experience X chance (fst (damroll dice 6 s)))
                     (run (damroll dice 6) s)) by (rewrite Hh; reflexivity).
  destruct (experience_family_negated chance (fst (damroll dice 6 s))
              (run (damroll dice 6) s)) as [Hobv Hneg].
  cbn zeta in Hneg. rewrite <- Hrun in Hobv, Hneg.
  split; [exact Hobv|].
  intros Halive Hhold Hdraw.
  destruct (Hneg Halive Hhold Hdraw) as (Hcalls & Hp & Hmon).
  split; [|split; assumption].
  apply made_app. rewrite Hcalls.
  destruct (damroll_frame dice 6 s) as (Fctx & Fcalls & _ & _).
  unfold after_hit, run in *. cbn.
  rewrite !Fctx, Fcalls. rewrite <- !app_assoc. reflexivity.
Qed.

(** ** Disenchantment *)

(** X15.  When the defender survives DISENCHANT, the disenchanting effect
    is run exactly when the player does not resist disenchantment; the
    monster learns about that resistance in both cases, and against a
    resisting player the context is left as it was. *)
Theorem disenchant_respects_resistance (s : mstate) :
  let s1 := after_hit X s in
  let resists := x_player_resists X (p (game s1)) ELEM_DISEN in
  let s' := run (melee_effect_handler_DISENCHANT X) s in
  is_dead (p (game s1)) = false ->
  made (melee_effect_handler_DISENCHANT X) s =
    [c_take_hit (damage (ctx s)) (ddesc (ctx s))] ++
    (if resists then []
     else [c_effect_simple EF_DISENCHANT "0"
             (param_int 0) (param_int 0) (param_int 0)]) ++
    [c_update_smart_learn None 0 (learn_elem ELEM_DISEN)] /\
  (resists = true ->
     ctx s' = ctx s /\
     game s' = x_update_smart_learn X None 0 (learn_elem ELEM_DISEN) (game s1)).
Proof.
  intros s1 resists s' Halive.
  assert (Hrun :
    calls s' = calls s ++
      [c_take_hit (damage (ctx s)) (ddesc (ctx s))] ++
      (if resists then []
       else [c_effect_simple EF_DISENCHANT "0"
               (param_int 0) (param_int 0) (param_int 0)]) ++
      [c_update_smart_learn None 0 (learn_elem ELEM_DISEN)] /\
    (resists = true ->
       ctx s' = ctx s /\
       game s' = x_update_smart_learn X None 0 (learn_elem ELEM_DISEN)
                   (game s1))).
  { subst s' resists s1.
    unfold melee_effect_handler_DISENCHANT, effect_simple_obvious,
      after_hit in *.
    unfold run in *. cbn in *. repeat exec_bind. rewrite Halive. cbn.
    repeat exec_bind.
    destruct (x_player_resists X _ ELEM_DISEN); unfold when; cbn;
      repeat exec_bind; rewrite <- ?app_assoc; cbn.
    - split; [reflexivity|]. intros _. destruct s as [c g l]. cbn.
      destruct c; auto.
    - split; [reflexivity|discriminate]. }
  destruct Hrun as [Hcalls Hres].
  split; [exact (made_app _ _ _ Hcalls)|exact Hres].
Qed.

(** ** What the handlers leave alone *)

Section Keeps.

Context {B : Type} (f : context -> B).

(** [f] does not look at [obvious] nor at [damage]. *)
Hypothesis f_obvious : forall b c, f (with_obvious b c) = f c.
Hypothesis f_damage : forall d c, f (with_damage d c) = f c.

Lemma keeps_ret {A : Type} (a : A) : keeps f (@ret P G A a).
Proof. intros s. reflexivity. Qed.

Lemma keeps_bind {A C : Type} (m : M A) (k : A -> M C) :
  keeps f m -> (forall a, keeps f (k a)) -> keeps f (bind m k).
Proof.
  intros Hm Hk s. unfold run. rewrite bind_eq.
  transitivity (f (ctx (snd (m s)))); [apply Hk|apply Hm].
Qed.

Lemma keeps_frame {A : Type} (m : M A) :
  (forall s, ctx (run m s) = ctx s) -> keeps f m.
Proof. intros H s. rewrite H. reflexivity. Qed.

Lemma keeps_when (b : bool) (m : M unit) : keeps f m -> keeps f (when b m).
Proof. intros Hm. unfold when. destruct b; [exact Hm|apply keeps_ret]. Qed.

Lemma keeps_set_obvious (b : bool) : keeps f (@set_obvious P G b).
Proof. intros s. cbn. apply f_obvious. Qed.

Lemma keeps_set_damage (d : Z) : keeps f (@set_damage P G d).
Proof. intros s. cbn. apply f_damage. Qed.

Lemma keeps_set_blinked (b : bool) :
  (forall b' c, f (with_blinked b' c) = f c) -> keeps f (@set_blinked P G b).
Proof. intros H s. cbn. apply H. Qed.

Lemma keeps_set_do_break (b : bool) :
  (forall b' c, f (with_do_break b' c) = f c) -> keeps f (@set_do_break P G b).
Proof. intros H s. cbn. apply H. Qed.

Lemma keeps_effect_simple_obvious index dice p1 p2 p3 :
  keeps f (effect_simple_obvious X index dice p1 p2 p3).
Proof.
  intros s. unfold effect_simple_obvious, run. repeat exec_bind.
  apply f_obvious.
Qed.

Create HintDb keeps discriminated.

Ltac keeps_step :=
  lazymatch goal with
  | |- keeps f (ret _) => apply keeps_ret
  | |- keeps f (bind _ _) => apply keeps_bind; [|intros ?]
  | |- keeps f (when _ _) => apply keeps_when
  | |- keeps f (if ?b then _ else _) => destruct b
  | |- keeps f (match ?x with _ => _ end) => destruct x
  | |- keeps f (set_obvious _) => apply keeps_set_obvious
  | |- keeps f (set_damage _) => apply keeps_set_damage
  | |- keeps f (set_blinked _) => apply keeps_set_blinked; assumption
  | |- keeps f (set_do_break _) => apply keeps_set_do_break; assumption
  | |- keeps f (effect_simple_obvious _ _ _ _ _ _) =>
      apply keeps_effect_simple_obvious
  | |- keeps f (context_get _) => apply keeps_frame; reflexivity
  | |- keeps f (player_get _) => apply keeps_frame; reflexivity
  | |- keeps f (monster_get _) => apply keeps_frame; reflexivity
  | |- keeps f (player_set _) => apply keeps_frame; reflexivity
  | |- keeps f (monster_set _) => apply keeps_frame; reflexivity
  | |- keeps f (or_redraw _) => apply keeps_frame; reflexivity
  | |- keeps f (or_notice _) => apply keeps_frame; reflexivity
  | |- keeps f (inven_store _ _) => apply keeps_frame; reflexivity
  | |- keeps f (extern _ _) => apply keeps_frame; reflexivity
  | |- keeps f (extern_ _ _) => apply keeps_frame; reflexivity
  | |- keeps f (randint0 _) => apply keeps_frame; reflexivity
  | |- keeps f _ => solve [eauto 2 with keeps nocore]
  end.

Ltac keeps_all :=
  unfold msg, take_hit, adjust_dam, inven_damage, update_smart_learn,
    player_inc_timed, player_exp_lose, gear_object_for_use, object_prep,
    monster_carry, object_delete, effect_simple_NULL;
  repeat keeps_step.

Lemma keeps_randint1 (m : Z) : keeps f (@randint1 P G m).
Proof. unfold randint1. keeps_all. Qed.

#[local] Hint Resolve keeps_randint1 : keeps.

Lemma keeps_damroll (num : nat) (sides : Z) : keeps f (@damroll P G num sides).
Proof.
  induction num as [|num IH]; [apply keeps_ret|].
  rewrite damroll_S. keeps_all.
Qed.

#[local] Hint Resolve keeps_damroll : keeps.

Lemma keeps_elemental (type : gf_type) (pure_element : bool) :
  keeps f (melee_effect_elemental X type pure_element).
Proof. unfold melee_effect_elemental. keeps_all. Qed.

#[local] Hint Resolve keeps_elemental : keeps.

Lemma keeps_timed type amount flag attempt_save save_msg :
  keeps f (melee_effect_timed X type amount flag attempt_save save_msg).
Proof. unfold melee_effect_timed. keeps_all. Qed.

#[local] Hint Resolve keeps_timed : keeps.

Lemma keeps_stat (stat : stat_id) : keeps f (melee_effect_stat X stat).
Proof. unfold melee_effect_stat. keeps_all. Qed.

#[local] Hint Resolve keeps_stat : keeps.

Lemma keeps_experience (chance drain_amount : Z) :
  keeps f (melee_effect_experience X chance drain_amount).
Proof. unfold melee_effect_experience. keeps_all. Qed.

#[local] Hint Resolve keeps_experience : keeps.

Lemma keeps_dex_lev_save : keeps f (dex_lev_save X).
Proof. unfold dex_lev_save. keeps_all. Qed.

#[local] Hint Resolve keeps_dex_lev_save : keeps.

Lemma keeps_drain_charges_scan (n : nat) (unpower : Z) :
  keeps f (drain_charges_scan X n unpower).
Proof.
  revert unpower. induction n as [|n IH]; intros unpower;
    [apply keeps_ret|].
  rewrite drain_charges_scan_S. keeps_all.
Qed.

#[local] Hint Resolve keeps_drain_charges_scan : keeps.

Lemma keeps_carry_gold (fuel : nat) (gold : Z) : keeps f (carry_gold X fuel gold).
Proof.
  revert gold. induction fuel as [|fuel IH]; intros gold;
    [apply keeps_ret|].
  rewrite carry_gold_S. keeps_all.
Qed.

#[local] Hint Resolve keeps_carry_gold : keeps.

Lemma keeps_eat_food_scan (n : nat) : keeps f (eat_food_scan X n).
Proof.
  induction n as [|n IH]; [apply keeps_ret|].
  rewrite eat_food_scan_S. keeps_all.
Qed.

#[local] Hint Resolve keeps_eat_food_scan : keeps.

Lemma keeps_eat_item_scan (n : nat) :
  (forall b c, f (with_blinked b c) = f c) -> keeps f (eat_item_scan X n).
Proof.
  intros Hblinked. induction n as [|n IH]; [apply keeps_ret|].
  rewrite eat_item_scan_S. keeps_all.
Qed.

(** Every handler keeps [f], provided [f] does not look at [blinked] where
    EAT_GOLD and EAT_ITEM are concerned, nor at [do_break] where SHATTER
    is. *)
Lemma keeps_handlers (n : string) (h : M unit) :
  In (n, h) (effect_handlers X) ->
  (n = "EAT_GOLD" \/ n = "EAT_ITEM" ->
   forall b c, f (with_blinked b c) = f c) ->
  (n = "SHATTER" -> forall b c, f (with_do_break b c) = f c) ->
  keeps f h.
Proof.
  intros Hin Hblinked Hbreak.
  unfold effect_handlers in Hin. cbn in Hin.
  repeat (destruct Hin as [E|Hin];
          [inversion E; subst n h; clear E|]); [..|contradiction].
  all: try (assert (Hb : forall b c, f (with_blinked b c) = f c)
              by (apply Hblinked; auto)).
  all: try (assert (Hd : forall b c, f (with_do_break b c) = f c)
              by (apply Hbreak; reflexivity)).
  all: clear Hblinked Hbreak.
  all: try (pose proof (fun k => keeps_eat_item_scan k Hb) as Hscan).
  all: unfold melee_effect_handler_NONE, melee_effect_handler_HURT,
    melee_effect_handler_POISON, melee_effect_handler_DISENCHANT,
    melee_effect_handler_DRAIN_CHARGES, melee_effect_handler_EAT_GOLD,
    eat_gold_amount, eat_gold_steal,
    melee_effect_handler_EAT_ITEM, melee_effect_handler_EAT_FOOD,
    melee_effect_handler_EAT_LIGHT, melee_effect_handler_ACID,
    melee_effect_handler_ELEC, melee_effect_handler_FIRE,
    melee_effect_handler_COLD, melee_effect_handler_BLIND,
    melee_effect_handler_CONFUSE, melee_effect_handler_TERRIFY,
    melee_effect_handler_PARALYZE, melee_effect_handler_LOSE_STR,
    melee_effect_handler_LOSE_INT, melee_effect_handler_LOSE_WIS,
    melee_effect_handler_LOSE_DEX, melee_effect_handler_LOSE_CON,
    melee_effect_handler_LOSE_ALL, melee_effect_handler_SHATTER,
    melee_effect_handler_EXP_10, melee_effect_handler_EXP_20,
    melee_effect_handler_EXP_40, melee_effect_handler_EXP_80,
    melee_effect_handler_HALLU.
  all: keeps_all.
Qed.

End Keeps.

(** X16.  No handler of the registry changes the inputs it is given in the
    context: the monster level, the blow method, the armor class and the
    description of the attacker are after the handler what they were
    before. *)
Theorem context_inputs_kept (n : string) (h : M unit) (s : mstate) :
  In (n, h) (effect_handlers X) ->
  context_inputs (ctx (run h s)) = context_inputs (ctx s).
Proof.
  intros Hin.
  refine (keeps_handlers context_inputs _ _ n h Hin _ _ s);
    intros; reflexivity.
Qed.

(** X17.  Only SHATTER ever touches the sequence-break flag, and only
    EAT_GOLD and EAT_ITEM ever touch the blink flag: every other handler of
    the registry leaves them as they were. *)
Theorem break_and_blink_owners (n : string) (h : M unit) (s : mstate) :
  In (n, h) (effect_handlers X) ->
  (n <> "SHATTER" -> do_break (ctx (run h s)) = do_break (ctx s)) /\
  (n <> "EAT_GOLD" -> n <> "EAT_ITEM" ->
   blinked (ctx (run h s)) = blinked (ctx s)).
Proof.
  intros Hin. split.
  - intros Hname.
    refine (keeps_handlers do_break _ _ n h Hin _ _ s);
      try (intros; reflexivity).
    intros E. contradiction.
  - intros Hgold Hitem.
    refine (keeps_handlers blinked _ _ n h Hin _ _ s);
      try (intros; reflexivity).
    intros [E|E]; contradiction.
Qed.

(** ** The damage dealt and the damage reported *)

Lemma hits_app (l1 l2 : list call) : hits (l1 ++ l2) = hits l1 ++ hits l2.
Proof.
  induction l1 as [|c l1 IH]; [reflexivity|].
  destruct c; cbn; rewrite IH; reflexivity.
Qed.

Lemma quiet_hitless {A : Type} (m : M A) : quiet m -> hitless m.
Proof.
  intros H s. destruct (H s) as (l & Hc & Hh & Hd & _).
  exists l. auto.
Qed.

Lemma quiet_ret {A : Type} (a : A) : quiet (@ret P G A a).
Proof. intros s. exists []. cbn. rewrite app_nil_r. auto. Qed.

Lemma quiet_bind {A C : Type} (m : M A) (k : A -> M C) :
  quiet m -> (forall a, quiet (k a)) -> quiet (bind m k).
Proof.
  intros Hm Hk s. unfold run. rewrite bind_eq.
  destruct (Hm s) as (l1 & Hc1 & Hh1 & Hd1 & Hg1).
  destruct (Hk (fst (m s)) (snd (m s))) as (l2 & Hc2 & Hh2 & Hd2 & Hg2).
  unfold run in *. exists (l1 ++ l2).
  rewrite Hc2, Hc1, app_assoc, hits_app, Hh1, Hh2, Hd2, Hd1, Hg2, Hg1. auto.
Qed.

Lemma hitless_bind {A C : Type} (m : M A) (k : A -> M C) :
  hitless m -> (forall a, hitless (k a)) -> hitless (bind m k).
Proof.
  intros Hm Hk s. unfold run. rewrite bind_eq.
  destruct (Hm s) as (l1 & Hc1 & Hh1 & Hd1).
  destruct (Hk (fst (m s)) (snd (m s))) as (l2 & Hc2 & Hh2 & Hd2).
  unfold run in *. exists (l1 ++ l2).
  rewrite Hc2, Hc1, app_assoc, hits_app, Hh1, Hh2, Hd2, Hd1. auto.
Qed.

(** A computation that leaves the context and the log alone. *)
Lemma quiet_silent {A : Type} (m : M A) :
  (forall s, ctx (run m s) = ctx s /\ calls (run m s) = calls s) -> quiet m.
Proof.
  intros H s. destruct (H s) as [Hc Hl]. exists [].
  rewrite Hc, Hl, app_nil_r. auto.
Qed.

Lemma quiet_when (b : bool) (m : M unit) : quiet m -> quiet (when b m).
Proof. intros Hm. unfold when. destruct b; [exact Hm|apply quiet_ret]. Qed.

Lemma quiet_context_set (f : context -> context) :
  (forall c, ddesc (f c) = ddesc c /\ damage (f c) = damage c) ->
  quiet (@context_set P G f).
Proof.
  intros H s. exists []. cbn. rewrite app_nil_r.
  destruct (H (ctx s)). auto.
Qed.

Lemma hitless_set_damage (d : Z) : hitless (@set_damage P G d).
Proof. intros s. exists []. cbn. rewrite app_nil_r. auto. Qed.

Lemma quiet_extern {A : Type} (c : call)
  (f : @world P G -> A * @world P G) :
  hits [c] = [] -> quiet (extern c f).
Proof. intros H s. exists [c]. cbn. auto. Qed.

Lemma quiet_extern_ (c : call) (f : @world P G -> @world P G) :
  hits [c] = [] -> quiet (extern_ c f).
Proof. intros H s. exists [c]. cbn. auto. Qed.

Lemma quiet_effect_simple_obvious index dice p1 p2 p3 :
  quiet (effect_simple_obvious X index dice p1 p2 p3).
Proof.
  intros s. unfold effect_simple_obvious, run. repeat exec_bind.
  eexists. split; [reflexivity|]. cbn. auto.
Qed.

Create HintDb quiet discriminated.

Ltac quiet_step :=
  lazymatch goal with
  | |- quiet (ret _) => apply quiet_ret
  | |- quiet (bind _ _) => apply quiet_bind; [|intros ?]
  | |- quiet (when _ _) => apply quiet_when
  | |- quiet (if ?b then _ else _) => destruct b
  | |- quiet (match ?x with _ => _ end) => destruct x
  | |- quiet (set_obvious _) =>
      apply quiet_context_set; intros; split; reflexivity
  | |- quiet (set_blinked _) =>
      apply quiet_context_set; intros; split; reflexivity
  | |- quiet (set_do_break _) =>
      apply quiet_context_set; intros; split; reflexivity
  | |- quiet (effect_simple_obvious _ _ _ _ _ _) =>
      apply quiet_effect_simple_obvious
  | |- quiet (context_get _) => apply quiet_silent; intros; split; reflexivity
  | |- quiet (player_get _) => apply quiet_silent; intros; split; reflexivity
  | |- quiet (monster_get _) => apply quiet_silent; intros; split; reflexivity
  | |- quiet (player_set _) => apply quiet_silent; intros; split; reflexivity
  | |- quiet (monster_set _) => apply quiet_silent; intros; split; reflexivity
  | |- quiet (or_redraw _) => apply quiet_silent; intros; split; reflexivity
  | |- quiet (or_notice _) => apply quiet_silent; intros; split; reflexivity
  | |- quiet (inven_store _ _) => apply quiet_silent; intros; split; reflexivity
  | |- quiet (randint0 _) => apply quiet_silent; intros; split; reflexivity
  | |- quiet (extern _ _) => apply quiet_extern; reflexivity
  | |- quiet (extern_ _ _) => apply quiet_extern_; reflexivity
  | |- quiet _ => solve [eauto 2 with quiet nocore]
  end.

Ltac quiet_all :=
  unfold msg, adjust_dam, inven_damage, update_smart_learn,
    player_inc_timed, player_exp_lose, gear_object_for_use, object_prep,
    monster_carry, object_delete, effect_simple_NULL;
  repeat quiet_step.

Lemma quiet_randint1 (m : Z) : quiet (@randint1 P G m).
Proof. unfold randint1. quiet_all. Qed.

#[local] Hint Resolve quiet_randint1 : quiet.

Lemma quiet_damroll (num : nat) (sides : Z) : quiet (@damroll P G num sides).
Proof.
  induction num as [|num IH]; [apply quiet_ret|].
  rewrite damroll_S. quiet_all.
Qed.

#[local] Hint Resolve quiet_damroll : quiet.

Lemma quiet_dex_lev_save : quiet (dex_lev_save X).
Proof. unfold dex_lev_save. quiet_all. Qed.

#[local] Hint Resolve quiet_dex_lev_save : quiet.

Lemma quiet_drain_charges_scan (n : nat) (unpower : Z) :
  quiet (drain_charges_scan X n unpower).
Proof.
  revert unpower. induction n as [|n IH]; intros unpower;
    [apply quiet_ret|].
  rewrite drain_charges_scan_S. quiet_all.
Qed.

#[local] Hint Resolve quiet_drain_charges_scan : quiet.

Lemma quiet_carry_gold (fuel : nat) (gold : Z) : quiet (carry_gold X fuel gold).
Proof.
  revert gold. induction fuel as [|fuel IH]; intros gold;
    [apply quiet_ret|].
  rewrite carry_gold_S. quiet_all.
Qed.

#[local] Hint Resolve quiet_carry_gold : quiet.

Lemma quiet_eat_item_scan (n : nat) : quiet (eat_item_scan X n).
Proof.
  induction n as [|n IH]; [apply quiet_ret|].
  rewrite eat_item_scan_S. quiet_all.
Qed.

#[local] Hint Resolve quiet_eat_item_scan : quiet.

Lemma quiet_eat_food_scan (n : nat) : quiet (eat_food_scan X n).
Proof.
  induction n as [|n IH]; [apply quiet_ret|].
  rewrite eat_food_scan_S. quiet_all.
Qed.

#[local] Hint Resolve quiet_eat_food_scan : quiet.

(** The three shapes in which the handlers deal damage. *)
Lemma deals_once_first (k : M unit) :
  quiet k ->
  deals_once
    (bind (context_get damage) (fun dam =>
       bind (context_get ddesc) (fun kb =>
         bind (take_hit X dam kb) (fun _ => k)))).
Proof.
  intros Hk s. unfold run. repeat exec_bind.
  match goal with
  | |- context [k ?st] => destruct (Hk st) as (l & Hc & Hh & Hd & Hg)
  end.
  unfold run in *. cbn in *.
  exists ([c_take_hit (damage (ctx s)) (ddesc (ctx s))] ++ l).
  rewrite Hc, Hg, <- app_assoc. split; [reflexivity|].
  left. cbn. rewrite Hh. reflexivity.
Qed.

Lemma deals_once_last :
  deals_once
    (bind (context_get damage) (fun dam =>
       bind (context_get ddesc) (fun kb => take_hit X dam kb))).
Proof.
  intros s. unfold run. repeat exec_bind.
  eexists. split; [reflexivity|]. left. reflexivity.
Qed.

Lemma deals_once_positive (k : M unit) :
  quiet k ->
  deals_once
    (bind (context_get damage) (fun dam =>
       bind (context_get ddesc) (fun kb =>
         bind (when (dam >? 0) (take_hit X dam kb)) (fun _ => k)))).
Proof.
  intros Hk s. unfold run. repeat exec_bind. unfold when.
  destruct (Z.gtb_spec (damage (ctx s)) 0) as [Hpos|Hle]; cbn;
    match goal with
    | |- context [k ?st] => destruct (Hk st) as (l & Hc & Hh & Hd & Hg)
    end;
    unfold run in *; cbn in *; rewrite Hc, Hg.
  - exists ([c_take_hit (damage (ctx s)) (ddesc (ctx s))] ++ l).
    rewrite <- app_assoc. split; [reflexivity|].
    left. cbn. rewrite Hh. reflexivity.
  - exists l. split; [reflexivity|]. right. auto.
Qed.

Lemma deals_once_after {A C : Type} (m : M A) (k : A -> M C) :
  hitless m -> (forall a, deals_once (k a)) -> deals_once (bind m k).
Proof.
  intros Hm Hk s. unfold run. rewrite bind_eq.
  destruct (Hm s) as (l1 & Hc1 & Hh1 & Hd1).
  destruct (Hk (fst (m s)) (snd (m s))) as (l2 & Hc2 & Hcases).
  unfold run in *. exists (l1 ++ l2).
  rewrite Hc2, Hc1, app_assoc, hits_app, Hh1. split; [reflexivity|].
  rewrite Hd1 in Hcases. exact Hcases.
Qed.

Lemma deals_once_before {A C : Type} (m : M A) (k : A -> M C) :
  deals_once m -> (forall a, quiet (k a)) -> deals_once (bind m k).
Proof.
  intros Hm Hk s. unfold run. rewrite bind_eq.
  destruct (Hm s) as (l1 & Hc1 & Hcases).
  destruct (Hk (fst (m s)) (snd (m s))) as (l2 & Hc2 & Hh2 & Hd2 & Hg2).
  unfold run in *. exists (l1 ++ l2).
  rewrite Hc2, Hc1, app_assoc, hits_app, Hh2, app_nil_r, Hg2.
  split; [reflexivity|exact Hcases].
Qed.

(** A step that calls [take_hit] never and keeps the description. *)
Ltac hitless_step :=
  lazymatch goal with
  | |- hitless (set_damage _) => apply hitless_set_damage
  | |- hitless (bind _ _) => apply hitless_bind; [|intros ?]
  | |- hitless (when _ _) => unfold when at 1
  | |- hitless (ret _) => apply quiet_hitless, quiet_ret
  | |- hitless (if ?b then _ else _) => destruct b
  | |- hitless _ => apply quiet_hitless; quiet_all
  end.

Ltac deals_step :=
  lazymatch goal with
  | |- deals_once
         (bind (context_get damage) (fun dam =>
            bind (context_get ddesc) (fun kb =>
              bind (take_hit _ dam kb) _))) =>
      apply deals_once_first; quiet_all
  | |- deals_once
         (bind (context_get damage) (fun dam =>
            bind (context_get ddesc) (fun kb => take_hit _ dam kb))) =>
      apply deals_once_last
  | |- deals_once
         (bind (context_get damage) (fun dam =>
            bind (context_get ddesc) (fun kb =>
              bind (when (dam >? 0) (take_hit _ dam kb)) _))) =>
      apply deals_once_positive; quiet_all
  | |- deals_once (bind (melee_effect_elemental _ _ _) _) =>
      apply deals_once_before; [|intros ?; quiet_all]
  | |- deals_once (bind _ _) =>
      apply deals_once_after; [repeat hitless_step|intros ?]
  | |- deals_once (if ?b then _ else _) => destruct b
  | |- deals_once (match ?x with _ => _ end) => destruct x
  | |- deals_once _ => solve [eauto 2 with quiet nocore]
  end.

Lemma deals_once_elemental (type : gf_type) (pure_element : bool) :
  deals_once (melee_effect_elemental X type pure_element).
Proof.
  unfold melee_effect_elemental, when at 1.
  repeat deals_step.
Qed.

#[local] Hint Resolve deals_once_elemental : quiet.

Lemma deals_once_timed type amount flag attempt_save save_msg :
  deals_once (melee_effect_timed X type amount flag attempt_save save_msg).
Proof. unfold melee_effect_timed. repeat deals_step. Qed.

#[local] Hint Resolve deals_once_timed : quiet.

Lemma deals_once_stat (stat : stat_id) : deals_once (melee_effect_stat X stat).
Proof. unfold melee_effect_stat. repeat deals_step. Qed.

#[local] Hint Resolve deals_once_stat : quiet.

Lemma deals_once_experience (chance drain_amount : Z) :
  deals_once (melee_effect_experience X chance drain_amount).
Proof. unfold melee_effect_experience. repeat deals_step. Qed.

#[local] Hint Resolve deals_once_experience : quiet.

Lemma deals_once_none : deals_once (@melee_effect_handler_NONE P G).
Proof.
  intros s. exists []. unfold melee_effect_handler_NONE, run.
  repeat exec_bind. rewrite app_nil_r. split; [reflexivity|].
  right. cbn. split; [reflexivity|lia].
Qed.

#[local] Hint Resolve deals_once_none : quiet.

Lemma deals_once_handlers :
  Forall (fun entry => deals_once (snd entry)) (effect_handlers X).
Proof.
  unfold effect_handlers.
  repeat (apply List.Forall_cons; [cbn [snd]|]); [..|apply List.Forall_nil].
  all: try apply deals_once_none.
  all: unfold melee_effect_handler_HURT,
    melee_effect_handler_POISON, melee_effect_handler_DISENCHANT,
    melee_effect_handler_DRAIN_CHARGES, melee_effect_handler_EAT_GOLD,
    eat_gold_amount, eat_gold_steal,
    melee_effect_handler_EAT_ITEM, melee_effect_handler_EAT_FOOD,
    melee_effect_handler_EAT_LIGHT, melee_effect_handler_ACID,
    melee_effect_handler_ELEC, melee_effect_handler_FIRE,
    melee_effect_handler_COLD, melee_effect_handler_BLIND,
    melee_effect_handler_CONFUSE, melee_effect_handler_TERRIFY,
    melee_effect_handler_PARALYZE, melee_effect_handler_LOSE_STR,
    melee_effect_handler_LOSE_INT, melee_effect_handler_LOSE_WIS,
    melee_effect_handler_LOSE_DEX, melee_effect_handler_LOSE_CON,
    melee_effect_handler_LOSE_ALL, melee_effect_handler_SHATTER,
    melee_effect_handler_EXP_10, melee_effect_handler_EXP_20,
    melee_effect_handler_EXP_40, melee_effect_handler_EXP_80,
    melee_effect_handler_HALLU.
  all: repeat deals_step.
Qed.

(** X18.  Every handler of the registry calls [take_hit] at most once, and
    then with the damage it leaves in the context for the caller and with
    the description of the attacker; the call is left out only when that
    damage is not positive. *)
Theorem damage_dealt_is_reported (n : string) (h : M unit) (s : mstate) :
  In (n, h) (effect_handlers X) ->
  hits (made h s) = [(damage (ctx (run h s)), ddesc (ctx s))] \/
  (hits (made h s) = [] /\ damage (ctx (run h s)) <= 0).
Proof.
  intros Hin.
  pose proof deals_once_handlers as Hall.
  rewrite List.Forall_forall in Hall.
  destruct (Hall (n, h) Hin s) as (l & Hcalls & Hcases).
  cbn [snd] in Hcalls, Hcases.
  rewrite (made_app h s l Hcalls). exact Hcases.
Qed.

End Properties.

(** * The statements on the sample game *)

(** Each statement above is applied to a sample state: its hypotheses hold
    there and its conclusion is the value the handler computes. *)

Lemma elemental_damage_is_max_witness :
  In (melee_effect_handler_ACID sample, GF_ACID) (elemental_handlers sample) /\
  phys (method (ctx acid_state)) = false /\
  0 <= fst (x_adjust_dam sample GF_ACID 40 RANDOMISE 0 (game acid_state)) /\
  damage (ctx (run (melee_effect_handler_ACID sample) acid_state)) = 40.
Proof.
  assert (Hin : In (melee_effect_handler_ACID sample, GF_ACID)
                   (elemental_handlers sample)) by (left; reflexivity).
  assert (Hpos : 0 <= fst (x_adjust_dam sample GF_ACID 40 RANDOMISE 0
                             (game acid_state)))
    by (vm_compute; discriminate).
  split; [exact Hin|]. split; [reflexivity|]. split; [exact Hpos|].
  pose proof (elemental_damage_is_max sample _ _ acid_state Hin) as H.
  cbv zeta in H. destruct H as [_ H].
  destruct (H eq_refl) as [_ H'].
  exact (H' Hpos).
Defined.

Lemma gold_theft_amount_witness :
  let s1 := run (set_obvious true) (after_hit sample purse_state) in
  let s2 := snd (dex_lev_save sample s1) in
  is_dead (p (game s1)) = false /\
  fst (dex_lev_save sample s1) = false /\
  au (p (game s2)) = 100 /\
  2 <= fst (eat_gold_amount s2) <= 100.
Proof.
  cbv zeta.
  pose proof (gold_theft_amount sample purse_state) as H. cbv zeta in H.
  assert (Halive : is_dead (p (game (run (set_obvious true)
                                       (after_hit sample purse_state)))) = false)
    by reflexivity.
  assert (Hfail : fst (dex_lev_save sample
                         (run (set_obvious true)
                              (after_hit sample purse_state))) = false)
    by reflexivity.
  destruct (H Halive Hfail) as (_ & _ & _ & H100 & _).
  split; [exact Halive|]. split; [exact Hfail|]. split; [reflexivity|].
  apply H100. reflexivity.
Defined.

Lemma experience_drain_amount_witness :
  let s1 := run (update_smart_learn sample (Some OF_HOLD_LIFE) 0 learn_nothing)
                (after_hit sample (run (damroll 10 6) drain_state)) in
  In (melee_effect_handler_EXP_10 sample, 95, 10%nat) (exp_tiers sample) /\
  is_dead (p (game s1)) = false /\
  x_player_of_has sample (p (game s1)) OF_HOLD_LIFE = true /\
  fst (Rand_div 100 (rng (game s1))) = 99 /\
  exp (p (game s1)) = 1000 /\
  made (melee_effect_handler_EXP_10 sample) drain_state =
    [c_take_hit 5 "a sample monster";
     c_update_smart_learn (Some OF_HOLD_LIFE) 0 learn_nothing;
     c_msg "You feel your life slipping away!" [];
     c_player_exp_lose 13 false].
Proof.
  cbv zeta.
  assert (Hin : In (melee_effect_handler_EXP_10 sample, 95, 10%nat)
                   (exp_tiers sample)) by (left; reflexivity).
  pose proof (experience_drain_amount sample _ _ _ drain_state Hin) as H.
  cbv zeta in H.
  split; [exact Hin|]. do 4 (split; [reflexivity|]).
  refine (proj1 (H _ _ _ _ _)).
  - reflexivity.
  - reflexivity.
  - vm_compute. split; [discriminate|reflexivity].
  - vm_compute. discriminate.
  - vm_compute. reflexivity.
Defined.

Lemma timed_family_save_witness :
  let terrify := melee_effect_timed sample TMD_AFRAID 5 OF_PROT_FEAR true
                   (Some "You stand your ground!") in
  is_dead (p (game (after_hit sample fear_state))) = false /\
  obvious (ctx (run terrify fear_state)) = true /\
  calls (run terrify fear_state) =
    [c_take_hit 5 "a sample monster";
     c_msg "%s" [arg_str "You stand your ground!"];
     c_update_smart_learn (Some OF_PROT_FEAR) 0 learn_nothing].
Proof.
  cbv zeta.
  pose proof (timed_family_save sample TMD_AFRAID 5 OF_PROT_FEAR true
                (Some "You stand your ground!") fear_state) as H.
  cbv zeta in H.
  destruct (H eq_refl) as (_ & Hsaved & _).
  destruct (Hsaved eq_refl) as (Hobv & Hcalls & _).
  split; [reflexivity|]. split; [exact Hobv|exact Hcalls].
Defined.

Lemma shatter_earthquake_witness :
  is_dead (p (x_take_hit sample 60 "a sample monster" (game quake_state))) = false /\
  In earthquake (made (melee_effect_handler_SHATTER sample) quake_state) /\
  do_break (ctx (run (melee_effect_handler_SHATTER sample) quake_state)) = true /\
  is_dead (p (x_take_hit sample 200 "a sample monster" (game fatal_state))) = true /\
  made (melee_effect_handler_SHATTER sample) fatal_state =
    [c_take_hit 200 "a sample monster"].
Proof.
  pose proof (shatter_earthquake sample quake_state) as H. cbv zeta in H.
  destruct H as (_ & Hquake & Halive & _).
  pose proof (shatter_earthquake sample fatal_state) as F. cbv zeta in F.
  destruct F as (_ & _ & _ & Hdead).
  split; [reflexivity|]. split; [|split; [|split]].
  - apply Hquake. split; [reflexivity|vm_compute; reflexivity].
  - destruct (Halive eq_refl) as [Hmoved _].
    destruct Hmoved as [_ Hbreak]; [vm_compute; reflexivity|exact Hbreak].
  - reflexivity.
  - exact (proj1 (Hdead eq_refl)).
Defined.

(** Against C5 as stated: the blow of 200 exceeds 23 after mitigation, and
    no earthquake follows, because the player is dead. *)
Lemma shatter_earthquake_counterexample :
  ~ (In earthquake (made (melee_effect_handler_SHATTER sample) fatal_state) <->
     23 < damage (ctx (run (melee_effect_handler_SHATTER sample) fatal_state))).
Proof.
  intros [_ Hquake].
  assert (Hbig : 23 < damage (ctx (run (melee_effect_handler_SHATTER sample)
                                       fatal_state)))
    by (vm_compute; reflexivity).
  specialize (Hquake Hbig). vm_compute in Hquake.
  destruct Hquake as [E|[]]. discriminate E.
Qed.



Lemma theft_selection_witness :
  (taken (made (melee_effect_handler_EAT_ITEM sample) burglar_state)
         (sample_object 1 false 1) /\
   artifact (sample_object 1 false 1) = false) /\
  (taken (made (melee_effect_handler_EAT_FOOD sample) ration_state)
         (sample_object 3 false 0) /\
   x_tval_is_edible sample (sample_object 3 false 0) = true).
Proof.
  assert (Hitem : taken (made (melee_effect_handler_EAT_ITEM sample)
                              burglar_state) (sample_object 1 false 1)).
  { exists 0, 1, false. vm_compute. right. right. left. reflexivity. }
  assert (Hfood : taken (made (melee_effect_handler_EAT_FOOD sample)
                              ration_state) (sample_object 3 false 0)).
  { exists 0, 1, false. vm_compute. right. right. left. reflexivity. }
  split; (split; [assumption|]).
  - exact (proj1 (theft_selection sample burglar_state _) Hitem).
  - exact (proj1 (proj2 (theft_selection sample ration_state _) Hfood)).
Defined.

(** Against C7 as stated: EAT_FOOD takes the edible artifact. *)
Lemma theft_selection_counterexample :
  ~ (forall obj,
       taken (made (melee_effect_handler_EAT_FOOD sample) relic_state) obj ->
       artifact obj = false).
Proof.
  intros Hclaim.
  assert (Htaken : taken (made (melee_effect_handler_EAT_FOOD sample) relic_state)
                         (sample_object 3 true 0)).
  { exists 0, 1, false. vm_compute. right. right. left. reflexivity. }
  specialize (Hclaim _ Htaken). discriminate Hclaim.
Qed.

Lemma eat_item_save_always_blinks_witness :
  let pl := p (game (after_hit sample thief_state)) in
  is_dead pl = false /\
  timed pl TMD_PARALYZED = 0 /\
  fst (Rand_div 100 (rng (game (after_hit sample thief_state)))) <
    int32 (adj_dex_safe sample (stat_ind (state pl) STAT_DEX) + lev pl) /\
  blinked (ctx (run (melee_effect_handler_EAT_ITEM sample) thief_state)) = true.
Proof.
  cbv zeta.
  pose proof (eat_item_save_always_blinks sample thief_state) as H.
  cbv zeta in H.
  assert (Hsave :
    fst (Rand_div 100 (rng (game (after_hit sample thief_state)))) <
    int32 (adj_dex_safe sample
             (stat_ind (state (p (game (after_hit sample thief_state)))) STAT_DEX)
           + lev (p (game (after_hit sample thief_state)))))
    by (vm_compute; reflexivity).
  split; [reflexivity|]. split; [reflexivity|]. split; [exact Hsave|].
  exact (proj1 (H eq_refl eq_refl Hsave)).
Defined.

Lemma sample_ident_kept : ident_kept sample.
Proof. intros index dice p1 p2 p3 w. destruct index; reflexivity. Qed.

Lemma flags_monotonic_witness :
  In ("HURT", melee_effect_handler_HURT sample) (effect_handlers sample) /\
  blinked (ctx flagged_state) = true /\
  blinked (ctx (run (melee_effect_handler_HURT sample) flagged_state)) = true.
Proof.
  assert (Hin : In ("HURT", melee_effect_handler_HURT sample)
                   (effect_handlers sample)) by (right; left; reflexivity).
  pose proof (flags_monotonic sample "HURT" (melee_effect_handler_HURT sample)
                flagged_state sample_ident_kept Hin) as H.
  destruct H as (_ & Hblinked & _).
  split; [exact Hin|]. split; [reflexivity|]. exact (Hblinked eq_refl).
Defined.

Lemma paralyze_minimum_damage_witness :
  timed (p (game held_state)) TMD_PARALYZED <> 0 /\
  damage (ctx held_state) < 1 /\
  damage (ctx (run (melee_effect_handler_PARALYZE sample) held_state)) = 1.
Proof.
  pose proof (paralyze_minimum_damage sample held_state) as H. cbv zeta in H.
  destruct H as (Hraised & _ & _).
  assert (Hheld : timed (p (game held_state)) TMD_PARALYZED <> 0)
    by (vm_compute; discriminate).
  assert (Hlow : damage (ctx held_state) < 1) by (vm_compute; reflexivity).
  split; [exact Hheld|]. split; [exact Hlow|].
  exact (proj1 (Hraised Hheld Hlow)).
Defined.

(** ** The further statements *)

Lemma registry_finds_handler_witness :
  In ("SHATTER", melee_effect_handler_SHATTER sample) (effect_handlers sample) /\
  upper "Shatter" = upper "SHATTER" /\
  melee_handler_for_blow_effect sample "Shatter" =
    Some (melee_effect_handler_SHATTER sample).
Proof.
  assert (Hin : In ("SHATTER", melee_effect_handler_SHATTER sample)
                   (effect_handlers sample))
    by (repeat (first [left; reflexivity|right])).
  split; [exact Hin|]. split; [reflexivity|].
  exact (registry_finds_handler sample "Shatter" "SHATTER" _ Hin eq_refl).
Defined.

Lemma registry_unknown_name_witness :
  melee_handler_for_blow_effect sample "BITE" = None /\
  upper "BITE" <> upper "HURT".
Proof.
  split; [reflexivity|].
  refine (proj1 (registry_unknown_name sample "BITE") eq_refl "HURT"
            (melee_effect_handler_HURT sample) _).
  repeat (first [left; reflexivity|right]).
Defined.

Lemma method_action_in_table_witness :
  act_msg insult_method = None /\
  name insult_method = "INSULT" /\
  exists a,
    fst (monster_blow_method_action insult_method insult_state) = Some a /\
    In a desc_insult.
Proof.
  pose proof (method_action_in_table insult_method insult_state) as H.
  cbv zeta in H. destruct H as (_ & Hinsult & _).
  split; [reflexivity|]. split; [reflexivity|].
  exact (Hinsult eq_refl eq_refl).
Defined.

Lemma method_action_null_witness :
  act_msg bite_method = None /\
  name bite_method <> "INSULT" /\
  name bite_method <> "MOAN" /\
  fst (monster_blow_method_action bite_method insult_state) = None.
Proof.
  pose proof (method_action_null bite_method insult_state) as H.
  cbv zeta in H. destruct H as [Hnull _].
  assert (Hplain : act_msg bite_method = None /\
                   name bite_method <> "INSULT" /\
                   name bite_method <> "MOAN")
    by (split; [reflexivity|split; discriminate]).
  destruct Hplain as (Hmsg & Hinsult & Hmoan).
  split; [exact Hmsg|]. split; [exact Hinsult|]. split; [exact Hmoan|].
  apply Hnull. split; [exact Hmsg|]. split; [exact Hinsult|exact Hmoan].
Defined.

Lemma fatal_blow_stops_witness :
  In (melee_effect_handler_EAT_GOLD sample) (damage_first_handlers sample) /\
  is_dead (p (game (after_hit sample fatal_state))) = true /\
  run (melee_effect_handler_EAT_GOLD sample) fatal_state =
    after_hit sample fatal_state.
Proof.
  assert (Hin : In (melee_effect_handler_EAT_GOLD sample)
                   (damage_first_handlers sample))
    by (repeat (first [left; reflexivity|right])).
  split; [exact Hin|]. split; [reflexivity|].
  exact (fatal_blow_stops sample _ fatal_state (or_introl Hin) eq_refl).
Defined.

Lemma elemental_calls_witness :
  0 <= fst (x_adjust_dam sample GF_ACID (damage (ctx acid_state)) RANDOMISE 0
              (game acid_state)) < 2 ^ 28 /\
  MIN (int32 (fst (x_adjust_dam sample GF_ACID (damage (ctx acid_state))
                     RANDOMISE 0 (game acid_state)) * 5)) 300 =
    Z.min (5 * 40) 300.
Proof.
  pose proof (elemental_calls sample GF_ACID true acid_state) as H.
  cbv zeta in H. destruct H as (_ & _ & Hperc).
  assert (Hsmall :
    0 <= fst (x_adjust_dam sample GF_ACID (damage (ctx acid_state)) RANDOMISE 0
                (game acid_state)) < 2 ^ 28)
    by (vm_compute; split; [discriminate|reflexivity]).
  split; [exact Hsmall|]. exact (Hperc Hsmall).
Defined.

Lemma stolen_gold_is_carried_witness :
  0 < 40000 /\
  total_pval (carried (made (eat_gold_steal sample 40000) purse_state)) = 40000 /\
  Z.of_nat (length (carried (made (eat_gold_steal sample 40000) purse_state))) = 2.
Proof.
  assert (Hpos : 0 < 40000) by reflexivity.
  pose proof (stolen_gold_is_carried sample 40000 purse_state Hpos) as H.
  cbv zeta in H. destruct H as (Htotal & _ & Hcount & _).
  split; [exact Hpos|]. split; [exact Htotal|exact Hcount].
Defined.

Lemma gold_theft_saved_witness :
  let s1 := run (set_obvious true) (after_hit sample thief_state) in
  is_dead (p (game s1)) = false /\
  fst (dex_lev_save sample s1) = true /\
  made (melee_effect_handler_EAT_GOLD sample) thief_state =
    [c_take_hit 5 "a sample monster";
     c_msg "You quickly protect your money pouch!" []].
Proof.
  cbv zeta.
  pose proof (gold_theft_saved sample thief_state) as H. cbv zeta in H.
  assert (Halive : is_dead (p (game (run (set_obvious true)
                                       (after_hit sample thief_state)))) = false)
    by reflexivity.
  assert (Hsave : fst (dex_lev_save sample
                         (run (set_obvious true)
                              (after_hit sample thief_state))) = true)
    by reflexivity.
  split; [exact Halive|]. split; [exact Hsave|].
  exact (proj1 (H Halive Hsave)).
Defined.

Lemma item_theft_outcome_witness :
  let s1 := after_hit sample burglar_state in
  let s' := run (melee_effect_handler_EAT_ITEM sample) burglar_state in
  is_dead (p (game s1)) = false /\
  fst (dex_lev_save sample s1) = false /\
  blinked (ctx s') = true /\
  exists index obj,
    inven_at index (p (game s1)) = Some obj /\ artifact obj = false.
Proof.
  cbv zeta.
  pose proof (item_theft_outcome sample burglar_state) as H. cbv zeta in H.
  assert (Halive : is_dead (p (game (after_hit sample burglar_state))) = false)
    by reflexivity.
  assert (Hfail : fst (dex_lev_save sample (after_hit sample burglar_state))
                  = false) by reflexivity.
  split; [exact Halive|]. split; [exact Hfail|].
  destruct (H Halive Hfail)
    as [(Hmade & _)|(index & obj & w & Hslot & Hart & _ & _ & _ & _ & _ & Hblink)].
  - vm_compute in Hmade. discriminate Hmade.
  - split; [exact Hblink|]. exists index, obj. split; [exact Hslot|exact Hart].
Defined.

Lemma item_theft_nothing_to_steal_witness :
  let s1 := after_hit sample guarded_state in
  is_dead (p (game s1)) = false /\
  fst (dex_lev_save sample s1) = false /\
  Forall nothing_to_steal (inven (upkeep (p (game s1)))) /\
  made (melee_effect_handler_EAT_ITEM sample) guarded_state =
    [c_take_hit 5 "a sample monster"].
Proof.
  cbv zeta.
  assert (Halive : is_dead (p (game (after_hit sample guarded_state))) = false)
    by reflexivity.
  assert (Hfail : fst (dex_lev_save sample (after_hit sample guarded_state))
                  = false) by reflexivity.
  assert (Hpack : Forall nothing_to_steal
                    (inven (upkeep (p (game (after_hit sample guarded_state))))))
    by (apply List.Forall_cons; [reflexivity|apply List.Forall_nil]).
  split; [exact Halive|]. split; [exact Hfail|]. split; [exact Hpack|].
  exact (proj1 (item_theft_nothing_to_steal sample guarded_state
                  Halive Hfail Hpack)).
Defined.

Lemma food_theft_outcome_witness :
  let s1 := after_hit sample known_ration_state in
  is_dead (p (game s1)) = false /\
  find (edible_slot sample (p (game s1))) (slots_drawn sample 10 (rng (game s1)))
    = Some 0 /\
  made (melee_effect_handler_EAT_FOOD sample) known_ration_state =
    [c_take_hit 5 "a sample monster";
     c_msg "Your %s (%c) was eaten!" [arg_str "thing"; arg_slot 0];
     c_gear_object_for_use 0 known_ration 1 false;
     c_object_delete (sample_object 3 false 0);
     c_object_delete (sample_object 3 false 0)].
Proof.
  cbv zeta.
  pose proof (food_theft_outcome sample known_ration_state) as H.
  cbv zeta in H. destruct H as (_ & _ & Hmeal & _).
  assert (Hfind :
    find (edible_slot sample (p (game (after_hit sample known_ration_state))))
         (slots_drawn sample 10
            (rng (game (after_hit sample known_ration_state))))
    = Some 0) by (vm_compute; reflexivity).
  specialize (Hmeal eq_refl). rewrite Hfind in Hmeal.
  destruct Hmeal as (obj & tape & Hslot & _ & Hmade & _).
  split; [reflexivity|]. split; [exact Hfind|].
  assert (Hobj : obj = known_ration)
    by (vm_compute in Hslot; injection Hslot as <-; reflexivity).
  subst obj. exact Hmade.
Defined.

Lemma drain_charges_nothing_to_drain_witness :
  let s1 := after_hit sample ration_state in
  is_dead (p (game s1)) = false /\
  Forall (nothing_to_drain sample) (inven (upkeep (p (game s1)))) /\
  undrained s1 (run (melee_effect_handler_DRAIN_CHARGES sample) ration_state).
Proof.
  cbv zeta.
  assert (Halive : is_dead (p (game (after_hit sample ration_state))) = false)
    by reflexivity.
  assert (Hpack : Forall (nothing_to_drain sample)
                    (inven (upkeep (p (game (after_hit sample ration_state))))))
    by (apply List.Forall_cons; [reflexivity|apply List.Forall_nil]).
  split; [exact Halive|]. split; [exact Hpack|].
  exact (drain_charges_nothing_to_drain sample ration_state Halive Hpack).
Defined.

Lemma timer_lengths_witness :
  In (melee_effect_handler_BLIND sample, TMD_BLIND, 10, false)
     (timer_tiers sample) /\
  0 <= rlev (ctx fear_state) < 2 ^ 30 /\
  In (c_player_inc_timed TMD_BLIND 21 true true)
     (made (melee_effect_handler_BLIND sample) fear_state) /\
  10 + 1 <= 21 <= 10 + Z.max 1 (rlev (ctx fear_state)).
Proof.
  assert (Hin : In (melee_effect_handler_BLIND sample, TMD_BLIND, 10, false)
                   (timer_tiers sample)) by (left; reflexivity).
  assert (Hlev : 0 <= rlev (ctx fear_state) < 2 ^ 30)
    by (vm_compute; split; [discriminate|reflexivity]).
  assert (Hcall : In (c_player_inc_timed TMD_BLIND 21 true true)
                     (made (melee_effect_handler_BLIND sample) fear_state))
    by (vm_compute; right; left; reflexivity).
  split; [exact Hin|]. split; [exact Hlev|]. split; [exact Hcall|].
  exact (proj2 (proj2 (proj2
    (timer_lengths sample _ _ _ _ fear_state Hin Hlev _ _ _ _ Hcall)))).
Defined.

Lemma experience_drain_negated_witness :
  let s1 := run (update_smart_learn sample (Some OF_HOLD_LIFE) 0 learn_nothing)
                (after_hit sample (run (damroll 10 6) steadfast_state)) in
  In (melee_effect_handler_EXP_10 sample, 95, 10%nat) (exp_tiers sample) /\
  is_dead (p (game s1)) = false /\
  x_player_of_has sample (p (game s1)) OF_HOLD_LIFE = true /\
  fst (Rand_div 100 (rng (game s1))) < 95 /\
  made (melee_effect_handler_EXP_10 sample) steadfast_state =
    [c_take_hit 5 "a sample monster";
     c_update_smart_learn (Some OF_HOLD_LIFE) 0 learn_nothing;
     c_msg "You keep hold of your life force!" []].
Proof.
  cbv zeta.
  assert (Hin : In (melee_effect_handler_EXP_10 sample, 95, 10%nat)
                   (exp_tiers sample)) by (left; reflexivity).
  pose proof (experience_drain_negated sample _ _ _ steadfast_state Hin) as H.
  cbv zeta in H. destruct H as [_ H].
  assert (Hdraw :
    fst (Rand_div 100
           (rng (game (run (update_smart_learn sample (Some OF_HOLD_LIFE) 0
                              learn_nothing)
                           (after_hit sample
                              (run (damroll 10 6) steadfast_state)))))) < 95)
    by (vm_compute; reflexivity).
  split; [exact Hin|]. do 2 (split; [reflexivity|]). split; [exact Hdraw|].
  exact (proj1 (H eq_refl eq_refl Hdraw)).
Defined.

Lemma disenchant_respects_resistance_witness :
  is_dead (p (game (after_hit sample fear_state))) = false /\
  made (melee_effect_handler_DISENCHANT sample) fear_state =
    [c_take_hit 5 "a sample monster";
     c_effect_simple EF_DISENCHANT "0" (param_int 0) (param_int 0) (param_int 0);
     c_update_smart_learn None 0 (learn_elem ELEM_DISEN)].
Proof.
  split; [reflexivity|].
  exact (proj1 (disenchant_respects_resistance sample fear_state eq_refl)).
Defined.

Lemma context_inputs_kept_witness :
  In ("SHATTER", melee_effect_handler_SHATTER sample) (effect_handlers sample) /\
  context_inputs (ctx (run (melee_effect_handler_SHATTER sample) quake_state)) =
    (40, {| name := "HIT"; act_msg := None; phys := true |}, 0,
     "a sample monster").
Proof.
  assert (Hin : In ("SHATTER", melee_effect_handler_SHATTER sample)
                   (effect_handlers sample))
    by (repeat (first [left; reflexivity|right])).
  split; [exact Hin|].
  exact (context_inputs_kept sample _ _ quake_state Hin).
Defined.

Lemma break_and_blink_owners_witness :
  In ("EAT_FOOD", melee_effect_handler_EAT_FOOD sample) (effect_handlers sample) /\
  "EAT_FOOD" <> "SHATTER" /\ "EAT_FOOD" <> "EAT_GOLD" /\
  "EAT_FOOD" <> "EAT_ITEM" /\
  do_break (ctx (run (melee_effect_handler_EAT_FOOD sample) ration_state)) = false /\
  blinked (ctx (run (melee_effect_handler_EAT_FOOD sample) ration_state)) = false.
Proof.
  assert (Hin : In ("EAT_FOOD", melee_effect_handler_EAT_FOOD sample)
                   (effect_handlers sample))
    by (repeat (first [left; reflexivity|right])).
  assert (H1 : "EAT_FOOD" <> "SHATTER") by discriminate.
  assert (H2 : "EAT_FOOD" <> "EAT_GOLD") by discriminate.
  assert (H3 : "EAT_FOOD" <> "EAT_ITEM") by discriminate.
  destruct (break_and_blink_owners sample _ _ ration_state Hin)
    as [Hbreak Hblink].
  split; [exact Hin|]. split; [exact H1|]. split; [exact H2|].
  split; [exact H3|]. split; [exact (Hbreak H1)|exact (Hblink H2 H3)].
Defined.

Lemma damage_dealt_is_reported_witness :
  In ("SHATTER", melee_effect_handler_SHATTER sample) (effect_handlers sample) /\
  (hits (made (melee_effect_handler_SHATTER sample) quake_state) =
     [(damage (ctx (run (melee_effect_handler_SHATTER sample) quake_state)),
       "a sample monster")] \/
   (hits (made (melee_effect_handler_SHATTER sample) quake_state) = [] /\
    damage (ctx (run (melee_effect_handler_SHATTER sample) quake_state)) <= 0)).
Proof.
  assert (Hin : In ("SHATTER", melee_effect_handler_SHATTER sample)
                   (effect_handlers sample))
    by (repeat (first [left; reflexivity|right])).
  split; [exact Hin|].
  exact (damage_dealt_is_reported sample _ _ quake_state Hin).
Defined.
